(** * gridit: grid-polygon conversion (gridit/gridpolyconv.py)

    A shallow embedding of [GridPolyConv] and of the helpers of
    [gridpolyconv.py], followed by the properties established about them.

    Conventions of the embedding.
    - numpy arrays are a shape together with the flat, row-major data, as
      numpy stores them.
    - an integer array is of dtype int64, numpy's default: its elements are
      in [Z] and a sum along an axis wraps around at 64 bits, as numpy's
      does.  The counts of [from_grid_vector] are uint8 or uint16, which
      numpy sums in 64 bits: the model agrees on them while a total stays
      below 2^63.
    - a float array holds finite float64 numbers, each the rational [Q] it
      stands for.  The weights and the projection of [array_from_values]
      round every operation to the nearest float, ties to even (module
      [Float64]); a sum over the levels adds them in order, starting from
      the first, as numpy does along the first axis (its pairwise addition
      of eight or more numbers that lie next to each other in memory, the
      levels of a grid of one cell, is not modelled).  Overflow, infinities
      and NaN are not modelled.  The statistics over time of
      [array_from_netcdf] (means, medians, totals per year and the mass of
      a level) are computed without rounding.
    - Python exceptions are the [Raise] branch of [result]; statements that
      only log are left out.
    - polygon keys are the attribute values of a vector file: integers or
      strings. *)

From Stdlib Require Import ZArith QArith Qround Qabs Qpower List String Ascii Lia Lqa.
From stdpp Require Import base decidable option list strings gmap pretty.

Local Open Scope string_scope.

(** ** Python results and exceptions *)

Module Py.

Inductive exn : Type :=
| ValueError (msg : string)
| TypeError (msg : string)
| IndexError (msg : string)
| AssertionError
| AttributeError (msg : string)
| OSError (msg : string)
| UnpicklingError
| PicklingError
| EOFError.

Inductive result (A : Type) : Type :=
| Ok (a : A)
| Raise (e : exn).
Arguments Ok {A} a.
Arguments Raise {A} e.

#[export] Instance result_ret : MRet result := fun _ a => Ok a.
#[export] Instance result_bind : MBind result := fun _ _ f m =>
  match m with
  | Ok a => f a
  | Raise e => Raise e
  end.

#[export] Instance result_fmap : FMap result := fun _ _ f m =>
  match m with
  | Ok a => Ok (f a)
  | Raise e => Raise e
  end.

Definition raises {A} (r : result A) : Prop :=
  match r with Ok _ => False | Raise _ => True end.

Definition returns {A} (r : result A) : Prop :=
  match r with Ok _ => True | Raise _ => False end.

(** Attribute values read from a vector file, used as polygon keys. *)
Inductive key : Type :=
| KInt (z : Z)
| KStr (s : string).

#[export] Instance key_eq_dec : EqDecision key.
Proof. solve_decision. Defined.

End Py.
Export Py.

(** ** 64-bit numbers *)

Module Float64.
Local Open Scope Q_scope.

Definition pow2 (k : Z) : Q := 2 ^ k.

(** The exponent [k] with [2^k <= x < 2^(k+1)], for a positive [x]. *)
Definition floor_log2 (x : Q) : Z :=
  let k := (Z.log2 (Qnum x) - Z.log2 (Zpos (Qden x)))%Z in
  if Qle_bool (pow2 k) x then k else (k - 1)%Z.

(** The nearest integer, the even one of two equally near. *)
Definition round_half_even (x : Q) : Z :=
  let f := Qfloor x in
  match Qcompare (x - inject_Z f) (1 # 2) with
  | Lt => f
  | Gt => (f + 1)%Z
  | Eq => if Z.even f then f else (f + 1)%Z
  end.

(** The exponent of the last of the 53 bits of the float nearest to a
    positive [x]; the subnormal numbers share the exponent -1074. *)
Definition ulp_exponent (x : Q) : Z := Z.max (floor_log2 x - 52) (-1074).

Definition round_pos (x : Q) : Q :=
  let e := ulp_exponent x in
  inject_Z (round_half_even (x / pow2 e)) * pow2 e.

(** The float64 number nearest to [x], ties to even. *)
Definition round64 (x : Q) : Q :=
  match Qnum x with
  | Z0 => 0
  | Zpos _ => Qred (round_pos x)
  | Zneg _ => Qred (- round_pos (- x))
  end.

(** The operations of float64: the exact result, rounded. *)
Definition fadd (x y : Q) : Q := round64 (x + y).
Definition fsub (x y : Q) : Q := round64 (x - y).
Definition fmul (x y : Q) : Q := round64 (x * y).
Definition fdiv (x y : Q) : Q := round64 (x / y).

(** A sum along the first axis adds the terms in order, starting from the
    first. *)
Definition fsum (xs : list Q) : Q :=
  match xs with
  | [] => 0
  | x :: xs' => fold_left fadd xs' x
  end.

(** int64 to float64. *)
Definition of_int (z : Z) : Q := round64 (inject_Z z).

(** An int64 result wraps around. *)
Definition wrap64 (z : Z) : Z := ((z + 2 ^ 63) mod 2 ^ 64 - 2 ^ 63)%Z.

Definition unit_roundoff : Q := pow2 (-53).

End Float64.
Export Float64.

(** ** numpy arrays *)

Module Np.

Record ndarray (T : Type) : Type := NdArray {
  shape : list nat;
  data : list T }.
Arguments NdArray {T} shape data.
Arguments shape {T} n.
Arguments data {T} n.

Definition ndim {T} (a : ndarray T) : nat := length (shape a).

Definition size_of (sh : list nat) : nat := foldr Nat.mul 1%nat sh.

(** The invariant of every numpy array: as many elements as the shape says. *)
Definition well_formed {T} (a : ndarray T) : Prop :=
  length (data a) = size_of (shape a).

#[export] Instance ndarray_eq_dec {T} `{EqDecision T} : EqDecision (ndarray T).
Proof. solve_decision. Defined.

(** Element [(l, i)] of a stack of [L] levels of [n] cells each: the cell
    [i = r * ncol + c] of level [l] sits at flat position [l * n + i]. *)
Definition at_level {T} (d : T) (n : nat) (xs : list T) (l i : nat) : T :=
  nth (l * n + i) xs d.

Definition Zsum (xs : list Z) : Z := foldr Z.add 0%Z xs.
Definition Qsum (xs : list Q) : Q := foldr Qplus 0%Q xs.

(** [a.sum(0)] of a stack of [L] levels of [n] cells: of an integer array,
    in int64; of a float array, one rounded addition per level. *)
Definition sum_axis0_Z (L n : nat) (xs : list Z) : list Z :=
  map (fun i => wrap64 (Zsum (map (fun l => at_level 0%Z n xs l i) (seq 0 L))))
      (seq 0 n).

Definition sum_axis0_Q (L n : nat) (xs : list Q) : list Q :=
  map (fun i => fsum (map (fun l => at_level 0%Q n xs l i) (seq 0 L))) (seq 0 n).

(** Broadcasting a 2D array against a stack of [L] levels repeats it. *)
Definition broadcast_levels {T} (L : nat) (xs : list T) : list T :=
  mjoin (replicate L xs).

(** True division of integer arrays, [a / b], elementwise: both operands
    are converted to float64 and divided there. *)
Definition true_divide (a b : list Z) : list Q :=
  zip_with (fun x y => fdiv (of_int x) (of_int y)) a b.

(** Boolean-mask selection [a[m]]. *)
Fixpoint select {T} (m : list bool) (a : list T) : list T :=
  match m, a with
  | true :: m', x :: a' => x :: select m' a'
  | false :: m', _ :: a' => select m' a'
  | _, _ => []
  end.

(** Boolean-mask assignment [a[m] = vals]. *)
Fixpoint put_mask {T} (m : list bool) (a vals : list T) : list T :=
  match m, a with
  | true :: m', x :: a' =>
      match vals with
      | v :: vals' => v :: put_mask m' a' vals'
      | [] => x :: put_mask m' a' []
      end
  | false :: m', x :: a' => x :: put_mask m' a' vals
  | _, _ => a
  end.

Definition clip (lo hi x : Q) : Q :=
  if Qlt_le_dec x lo then lo else if Qlt_le_dec hi x then hi else x.

End Np.
Export Np.

(** ** The GridPolyConv object *)

Module GPC.

(** The Python values that reach the constructor. *)
Inductive pyval : Type :=
| PNone
| PTuple (l : list key)
| PList (l : list key)
| PIntArray (a : ndarray Z)
| PFloatArray (a : ndarray Q)
| PObject (type_name : string).

Record GridPolyConv : Type := MkGridPolyConv {
  class_name : string;
  poly_idx : list key;
  idx_ar : ndarray Z;
  ar_count : option (ndarray Z);
  weight : option (ndarray Q);
  mask : ndarray bool }.

(** [ar_count / ar_count.sum(0)] where the sum is non-zero, zero elsewhere;
    both branches of the source are kept. *)
Definition weight_of (L n : nat) (cnt : list Z) : list Q :=
  let denominator := sum_axis0_Z L n cnt in
  if forallb (fun d => negb (d =? 0)%Z) denominator then
    true_divide cnt (broadcast_levels L denominator)
  else
    let denominator := broadcast_levels L denominator in
    let nzdm := map (fun d => negb (d =? 0)%Z) denominator in
    put_mask nzdm (replicate (L * n) 0%Q)
      (true_divide (select nzdm cnt) (select nzdm denominator)).

(** [GridPolyConv.__init__]; [cls] is the class being instantiated. *)
Definition __init__ (cls : string) (poly_idx idx_ar ar_count : pyval)
  : result GridPolyConv :=
  p ← match poly_idx with
      | PTuple l | PList l => Ok l
      | _ => Raise (ValueError "poly_idx must be a tuple or list-like")
      end;
  if negb (bool_decide (NoDup p)) then
    Raise (ValueError "poly_idx values are not unique")
  else
  match idx_ar with
  | PIntArray idx =>
      match shape idx with
      | [_; _] =>
          Ok {| class_name := cls; poly_idx := p; idx_ar := idx;
                ar_count := None; weight := None;
                mask := NdArray (shape idx) (map (fun v => (v =? 0)%Z) (data idx)) |}
      | [L; nrow; ncol] =>
          match ar_count with
          | PNone => Raise (ValueError "ar_count must be specified if idx_ar is 3D")
          | PIntArray cnt =>
              if negb (bool_decide (shape cnt = shape idx)) then
                Raise (ValueError "ar_count shape must match idx_ar")
              else
                let n := (nrow * ncol)%nat in
                let w := NdArray (shape idx) (weight_of L n (data cnt)) in
                match L with
                | O => Raise (IndexError "index 0 is out of bounds for axis 0 with size 0")
                | S _ =>
                    Ok {| class_name := cls; poly_idx := p; idx_ar := idx;
                          ar_count := Some cnt; weight := Some w;
                          mask := NdArray [nrow; ncol]
                                    (map (fun v => (v =? 0)%Z) (take n (data idx))) |}
                end
          | PFloatArray _ => Raise (ValueError "ar_count dtype must integer-based")
          | _ => Raise (ValueError "ar_count must be a numpy array")
          end
      | _ => Raise (ValueError "idx_ar ndim must be 2 or 3")
      end
  | PFloatArray _ => Raise (ValueError "idx_ar dtype must integer-based")
  | _ => Raise (ValueError "idx_ar must be a numpy array")
  end.

(** An arbitrary Python object, as far as [__eq__] looks at it: the name of
    its class and its attributes. *)
Record pyobject : Type := MkPyObject {
  obj_class : string;
  obj_attrs : gmap string pyval }.

(** [getattr(o, name, None)]: a missing attribute reads as [None]. *)
Definition getattr (o : pyobject) (name : string) : pyval :=
  default PNone (obj_attrs o !! name).

Definition opt_array (c : option (ndarray Z)) : pyval :=
  match c with
  | Some a => PIntArray a
  | None => PNone
  end.

(** [__iter__] yields the three datasets; [__getstate__] is [dict(self)]. *)
Definition __iter__ (self : GridPolyConv) : list (string * pyval) :=
  [("poly_idx", PTuple (poly_idx self));
   ("idx_ar", PIntArray (idx_ar self));
   ("ar_count", opt_array (ar_count self))].

Definition __getstate__ (self : GridPolyConv) : gmap string pyval :=
  list_to_map (__iter__ self).

(** A GridPolyConv instance seen as a Python object. *)
Definition as_object (self : GridPolyConv) : pyobject :=
  {| obj_class := class_name self; obj_attrs := __getstate__ self |}.

(** [__setstate__] calls [__init__] with the entries of the state as
    keyword arguments: the keywords are bound to the
    parameters of [__init__], [ar_count] and [logger] have defaults. *)
Definition __setstate__ (cls : string) (state : gmap string pyval)
  : result GridPolyConv :=
  if negb (bool_decide (dom state ⊆ ({["poly_idx"; "idx_ar"; "ar_count"; "logger"]} : gset string))) then
    Raise (TypeError "__init__() got an unexpected keyword argument")
  else
    match state !! "poly_idx", state !! "idx_ar" with
    | Some p, Some i => __init__ cls p i (default PNone (state !! "ar_count"))
    | _, _ => Raise (TypeError "__init__() missing required positional arguments")
    end.

(** [np.testing.assert_array_equal(x, y)] for an integer array [x]: the
    shapes agree (or one side is a scalar, compared with every element) and
    all elements are equal; otherwise AssertionError. *)
Definition assert_array_equal (x : ndarray Z) (y : pyval) : result unit :=
  match y with
  | PIntArray b =>
      if bool_decide (shape x = shape b) then
        if bool_decide (data x = data b) then Ok tt else Raise AssertionError
      else
        match shape x, shape b, data x, data b with
        | [], _, [v], _ =>
            if forallb (Z.eqb v) (data b) then Ok tt else Raise AssertionError
        | _, [], _, [v] =>
            if forallb (Z.eqb v) (data x) then Ok tt else Raise AssertionError
        | _, _, _, _ => Raise AssertionError
        end
  | PFloatArray b =>
      if bool_decide (shape x = shape b) then
        if bool_decide (length (data x) = length (data b))
           && forallb (fun p => Qeq_bool (inject_Z p.1) p.2) (zip (data x) (data b))
        then Ok tt else Raise AssertionError
      else Raise AssertionError
  | PNone | PObject _ =>
      (* a scalar object equals no integer *)
      match data x with
      | [] => Ok tt
      | _ => Raise AssertionError
      end
  | PTuple _ | PList _ => Raise AssertionError
  end.

(** [self.poly_idx != v]: a tuple equals only a tuple of equal items. *)
Definition tuple_ne (t : list key) (v : pyval) : bool :=
  match v with
  | PTuple l => negb (bool_decide (t = l))
  | _ => true
  end.

(** Statements of a function body: a statement either returns or lets
    control fall through to the next one. *)
Inductive flow (A : Type) : Type :=
| Return (a : A)
| Fallthrough.
Arguments Return {A} a.
Arguments Fallthrough {A}.

Definition then_ {A} (s1 s2 : flow A) : flow A :=
  match s1 with
  | Return a => Return a
  | Fallthrough => s2
  end.
Notation "s1 ;;; s2" := (then_ s1 s2) (at level 100, s2 at level 200, right associativity).

(** [GridPolyConv.__eq__], statement by statement, including the statements
    that follow the first [try]. *)
Definition __eq__ (self : GridPolyConv) (other : pyobject) : flow bool :=
  (if negb (String.eqb (class_name self) (obj_class other)) then Return false
   else if tuple_ne (poly_idx self) (getattr other "poly_idx") then Return false
   else Fallthrough) ;;;
  (match assert_array_equal (idx_ar self) (getattr other "idx_ar") with
   | Ok _ => Return true
   | Raise _ => Return false
   end) ;;;
  (match ar_count self with
   | Some c =>
       match assert_array_equal c (getattr other "ar_count") with
       | Ok _ => Return true
       | Raise _ => Return false
       end
   | None =>
       match getattr other "ar_count" with
       | PNone => Fallthrough
       | _ => Return false
       end
   end) ;;;
  Return true.

(** *** array_from_values *)

Record masked_array : Type := MkMasked {
  ma_data : ndarray Q;
  ma_mask : ndarray bool }.

(** [xs[i]] with Python's negative indices. *)
Definition py_index {T} (xs : list T) (i : Z) : option T :=
  let n := Z.of_nat (length xs) in
  if ((0 <=? i) && (i <? n))%Z then xs !! Z.to_nat i
  else if ((- n <=? i) && (i <? 0))%Z then xs !! Z.to_nat (n + i)
  else None.

(** [values[idx_ar]]: a gather; an index out of range raises. *)
Fixpoint gather (values : list Q) (idx : list Z) : result (list Q) :=
  match idx with
  | [] => Ok []
  | i :: idx' =>
      match py_index values i with
      | Some v => rest ← gather values idx'; Ok (v :: rest)
      | None => Raise (IndexError "index is out of bounds")
      end
  end.

(** [l.index(k)]: the first position of [k]. *)
Fixpoint list_index (k : key) (l : list key) : nat :=
  match l with
  | [] => 0
  | x :: l' => if bool_decide (x = k) then 0 else S (list_index k l')
  end.

Definition isdisjoint (a b : list key) : bool :=
  forallb (fun x => negb (bool_decide (x ∈ b))) a.

Definition issuperset (a b : list key) : bool :=
  forallb (fun x => bool_decide (x ∈ a)) b.

(** The positions in [index] of the keys of [poly_idx], in that order. *)
Definition reorder (self : GridPolyConv) (index : list key) : list nat :=
  map (fun k => list_index k index)
      (filter (fun k => k ∈ index) (poly_idx self)).

(** Number of levels and of cells per level of the weight stack. *)
Definition levels_of (w : ndarray Q) : nat := hd 0%nat (shape w).
Definition cells_of (w : ndarray Q) : nat := size_of (tl (shape w)).

(** The statements applied to one vector of values (already in the order
    of [poly_idx]): prepend [fill], gather by [idx_ar], and weight. *)
Definition spread (self : GridPolyConv) (vals : list Q) (fill : Q)
  : result (list Q) :=
  let values := fill :: vals in
  ar_values ← gather values (data (idx_ar self));
  match weight self with
  | None => Ok ar_values
  | Some w =>
      Ok (sum_axis0_Q (levels_of w) (cells_of w)
            (zip_with fmul ar_values (data w)))
  end.

Definition out_shape (self : GridPolyConv) : list nat :=
  match weight self with
  | None => shape (idx_ar self)
  | Some w => tl (shape w)
  end.

(** The rows of a 2D array. *)
Definition rows_of {T} (nrows ncols : nat) (xs : list T) : list (list T) :=
  map (fun r => take ncols (drop (r * ncols) xs)) (seq 0 nrows).

Fixpoint spread_rows (self : GridPolyConv) (rows : list (list Q)) (fill : Q)
  : result (list (list Q)) :=
  match rows with
  | [] => Ok []
  | vals :: rows' =>
      ar ← spread self vals fill;
      rest ← spread_rows self rows' fill;
      Ok (ar :: rest)
  end.

(** The indexes [values[i]] accepts for a vector of [n] values. *)
Definition in_range (n : nat) (i : Z) : bool :=
  ((- Z.of_nat n <=? i) && (i <? Z.of_nat n))%Z.

(** Every entry of [idx_ar] indexes the values with [fill] prepended. *)
Definition index_in_range (self : GridPolyConv) : bool :=
  forallb (in_range (S (length (poly_idx self)))) (data (idx_ar self)).

Definition msg_ndim := "expected values to have 1 or 2 dimensions".
Definition msg_length :=
  "length of last dimension of values does not match index length".
Definition msg_enforce1d := "values must have one dimension".
Definition msg_disjoint := "index is disjoint from poly_idx".
Definition msg_superset := "index is not a superset of poly_idx".
Definition msg_stack := "need at least one array to stack".

(** Lines 563-574: the values in the order of [poly_idx]. *)
Definition reindex (self : GridPolyConv) (index : list key) (vals : list Q)
  : list Q :=
  if bool_decide (index = poly_idx self) then vals
  else map (fun o => nth o vals 0%Q) (reorder self index).

(** Lines 593-596: what is added for the part of a cell outside every
    polygon. *)
Definition outside (w : ndarray Q) (fill : Q) : list Q :=
  let weight2d :=
    map (clip 0 1) (sum_axis0_Q (levels_of w) (cells_of w) (data w)) in
  map (fun w2 => fmul (fsub 1 w2) fill) weight2d.

Definition array_from_values (self : GridPolyConv) (index : list key)
    (values : ndarray Q) (fill : Q) (enforce1d : bool) : result masked_array :=
  if negb (bool_decide (ndim values = 1%nat ∨ ndim values = 2%nat)) then
    Raise (ValueError msg_ndim)
  else if negb (bool_decide (length index = List.last (shape values) 0%nat)) then
    Raise (ValueError msg_length)
  else if enforce1d && negb (bool_decide (ndim values = 1%nat)) then
    Raise (ValueError msg_enforce1d)
  else if isdisjoint index (poly_idx self) then
    Raise (ValueError msg_disjoint)
  else if negb (issuperset index (poly_idx self)) then
    Raise (ValueError msg_superset)
  else
    ar ← match shape values with
         | [_] =>
             ar ← spread self (reindex self index (data values)) fill;
             Ok (NdArray (out_shape self) ar)
         | [extra; npoly] =>
             ar_l ← spread_rows self
                      (map (reindex self index)
                         (rows_of extra npoly (data values))) fill;
             match ar_l with
             | [] => Raise (ValueError msg_stack)
             | _ => Ok (NdArray (length ar_l :: out_shape self) (mjoin ar_l))
             end
         | _ => Raise (ValueError msg_ndim)
         end;
    let ar :=
      match weight self with
      | Some w =>
          if negb (Qeq_bool fill 0) then
            NdArray (shape ar)
              (zip_with fadd (data ar)
                 (match shape values with
                  | [_] => outside w fill
                  | _ => broadcast_levels (hd 0%nat (shape ar)) (outside w fill)
                  end))
          else ar
      | None => ar
      end in
    Ok {| ma_data := ar;
          ma_mask := NdArray (shape ar)
                       (match shape values with
                        | [_] => data (mask self)
                        | _ => broadcast_levels (hd 0%nat (shape ar)) (data (mask self))
                        end) |}.

(** *** Statements about array_from_values *)

(** The value gathered for level [l] of cell [i]: the value of the polygon
    indexed there, [fill] for index 0. *)
Definition gathered (self : GridPolyConv) (vals : list Q) (fill : Q)
    (n l i : nat) : Q :=
  default 0%Q (py_index (fill :: vals) (at_level 0%Z n (data (idx_ar self)) l i)).

(** The weights of the levels of cell [i], and their sum as
    [weight.sum(0)] computes it. *)
Definition weight_at (w : ndarray Q) (l i : nat) : Q :=
  at_level 0%Q (cells_of w) (data w) l i.

Definition cell_weights (w : ndarray Q) (i : nat) : list Q :=
  map (fun l => weight_at w l i) (seq 0 (levels_of w)).

Definition coverage (w : ndarray Q) (i : nat) : Q :=
  fsum (cell_weights w i).

(** The counts of the levels of cell [i], and their total as
    [ar_count.sum(0)] computes it. *)
Definition cell_counts (cnt : ndarray Z) (w : ndarray Q) (i : nat) : list Z :=
  map (fun l => at_level 0%Z (cells_of w) (data cnt) l i) (seq 0 (levels_of w)).

Definition total_count (cnt : ndarray Z) (w : ndarray Q) (i : nat) : Z :=
  wrap64 (Zsum (cell_counts cnt w i)).

(** The per-level gather multiplied by the weight and summed over levels,
    as [(ar_values * weight).sum(0)] computes it. *)
Definition weighted_sum (self : GridPolyConv) (w : ndarray Q) (vals : list Q)
    (fill : Q) (i : nat) : Q :=
  fsum (map (fun l => fmul (gathered self vals fill (cells_of w) l i)
                           (weight_at w l i))
            (seq 0 (levels_of w))).

(** The rows of the values: the vector itself, or the rows of the 2D
    array. *)
Definition value_rows (values : ndarray Q) : list (list Q) :=
  match shape values with
  | [extra; npoly] => rows_of extra npoly (data values)
  | _ => [data values]
  end.

(** The output at cell [i] of row [e]. *)
Definition out_at (w : ndarray Q) (out : masked_array) (e i : nat) : Q :=
  nth (e * cells_of w + i) (data (ma_data out)) 0%Q.

(** The seven conditions under which [array_from_values] raises. *)
Definition raise_conditions (self : GridPolyConv) (index : list key)
    (values : ndarray Q) (enforce1d : bool) : Prop :=
  (ndim values ≠ 1%nat ∧ ndim values ≠ 2%nat)
  ∨ length index ≠ List.last (shape values) 0%nat
  ∨ (enforce1d = true ∧ ndim values ≠ 1%nat)
  ∨ isdisjoint index (poly_idx self) = true
  ∨ issuperset index (poly_idx self) = false
  ∨ (ndim values = 2%nat ∧ hd 0%nat (shape values) = 0%nat)
  ∨ index_in_range self = false.

(** The four conditions of a call that fails on none of the first three
    checks. *)
Definition passes_shape_checks (index : list key) (values : ndarray Q)
    (enforce1d : bool) : Prop :=
  (ndim values = 1%nat ∨ ndim values = 2%nat)
  ∧ length index = List.last (shape values) 0%nat
  ∧ (enforce1d = true → ndim values = 1%nat).

(** What the output holds at cell [i] of row [e], for a call with [fill]
    that returned [out] and the same call with a fill of 0 that returned
    [out0]: [vals] are the values of the row in the order of [poly_idx] and
    [cnt] the counts the weights were made from.  Where the total count is
    zero the cell is outside every polygon: its coverage is 0 and it holds
    the fill. *)
Definition projection_at (self : GridPolyConv) (cnt : ndarray Z)
    (w : ndarray Q) (vals : list Q) (fill : Q) (out out0 : masked_array)
    (e i : nat) : Prop :=
  out_at w out0 e i = weighted_sum self w vals 0 i
  ∧ ((fill == 0)%Q → out_at w out e i = weighted_sum self w vals fill i)
  ∧ (¬ (fill == 0)%Q →
     out_at w out e i
     = fadd (weighted_sum self w vals fill i)
            (fmul (fsub 1 (clip 0 1 (coverage w i))) fill))
  ∧ (total_count cnt w i = 0%Z → (round64 fill == fill)%Q →
     coverage w i = 0%Q
     ∧ (out_at w out0 e i == 0)%Q
     ∧ (out_at w out e i == fill)%Q
     ∧ (out_at w out e i - out_at w out0 e i
        == (1 - clip 0 1 (coverage w i)) * fill)%Q).

(** *** Statement about the weights *)

(** At cell [i]: each weight is the count divided by the total count, in
    float64, where the total is non-zero; every weight and their sum are
    zero where it is zero; the sum of the weights is within [2^-51] per
    level of 1 where no count is negative and the total is positive and at
    most [2^53]. *)
Definition normalised_at (cnt : ndarray Z) (w : ndarray Q) (i : nat) : Prop :=
  let counts := cell_counts cnt w i in
  let total := total_count cnt w i in
  (total ≠ 0%Z →
     cell_weights w i = map (fun c => fdiv (of_int c) (of_int total)) counts)
  ∧ (total = 0%Z →
     cell_weights w i = map (fun _ => 0%Q) counts ∧ coverage w i = 0%Q)
  ∧ (Forall (fun c => (0 <= c)%Z) counts →
     (0 < Zsum counts <= 2 ^ 53)%Z →
     (Z.of_nat (levels_of w) <= 2 ^ 51)%Z →
     (Qabs (coverage w i - 1)
      <= inject_Z (Z.of_nat (levels_of w)) * pow2 (-51))%Q).

End GPC.
Export GPC.

(** ** Pickling and the cache of from_grid_vector *)

Module Cache.

(** What a file holds: a pickled object (the class it is to be rebuilt as,
    and the state of [__getstate__]), bytes that do not unpickle, or nothing
    at all (a file just created or truncated). *)
Inductive file_content : Type :=
| Pickled (cls : string) (state : gmap string pyval)
| Garbage
| Empty.

Inductive node : Type :=
| File (c : file_content)
| Subdir.

(** A directory: its entries in the order [iterdir] yields them, and whether
    entries can be created and removed in it. *)
Record directory : Type := MkDir {
  entries : list (string * node);
  writable : bool }.

(** The part of the outside world the cache touches: the directories by
    path; the classes pickle finds under their name; the classes defined
    inside a function, which pickle refuses; and the directories on a
    device that has no room left, where files can be created but nothing
    can be written to them. *)
Record world : Type := MkWorld {
  fs : gmap string directory;
  importable : gset string;
  local_classes : gset string;
  no_space : gset string }.

(** [dirname / fname]. *)
Record path : Type := MkPath {
  parent : string;
  name : string }.

#[export] Instance path_eq_dec : EqDecision path.
Proof. solve_decision. Defined.

Fixpoint entry_lookup (nm : string) (es : list (string * node)) : option node :=
  match es with
  | [] => None
  | (n, nd) :: es' => if String.eqb n nm then Some nd else entry_lookup nm es'
  end.

Fixpoint entry_put (nm : string) (nd : node) (es : list (string * node))
  : list (string * node) :=
  match es with
  | [] => [(nm, nd)]
  | (n, x) :: es' =>
      if String.eqb n nm then (n, nd) :: es' else (n, x) :: entry_put nm nd es'
  end.

Definition entry_remove (nm : string) (es : list (string * node))
  : list (string * node) :=
  List.filter (fun e => negb (String.eqb e.1 nm)) es.

Definition set_entries (w : world) (dirname : string) (d : directory)
    (es : list (string * node)) : world :=
  {| fs := <[dirname := {| entries := es; writable := writable d |}]> (fs w);
     importable := importable w;
     local_classes := local_classes w;
     no_space := no_space w |}.

(** [open(path, "wb")]: creates or truncates the file. *)
Definition open_wb (w : world) (p : path) : result world :=
  match fs w !! parent p with
  | None => Raise (OSError "No such file or directory")
  | Some d =>
      if negb (writable d) then Raise (OSError "Permission denied")
      else
        match entry_lookup (name p) (entries d) with
        | Some Subdir => Raise (OSError "Is a directory")
        | _ =>
            Ok (set_entries w (parent p) d
                  (entry_put (name p) (File Empty) (entries d)))
        end
  end.

Definition write_content (w : world) (p : path) (c : file_content) : world :=
  match fs w !! parent p with
  | None => w
  | Some d => set_entries w (parent p) d (entry_put (name p) (File c) (entries d))
  end.

(** [open(path, "rb")] and read. *)
Definition read_content (w : world) (p : path) : result file_content :=
  match fs w !! parent p with
  | None => Raise (OSError "No such file or directory")
  | Some d =>
      match entry_lookup (name p) (entries d) with
      | Some (File c) => Ok c
      | Some Subdir => Raise (OSError "Is a directory")
      | None => Raise (OSError "No such file or directory")
      end
  end.

(** [os.remove(path)]. *)
Definition os_remove (w : world) (p : path) : world * result unit :=
  match fs w !! parent p with
  | None => (w, Raise (OSError "No such file or directory"))
  | Some d =>
      match entry_lookup (name p) (entries d) with
      | Some (File _) =>
          if writable d then
            (set_entries w (parent p) d (entry_remove (name p) (entries d)), Ok tt)
          else (w, Raise (OSError "Permission denied"))
      | Some Subdir => (w, Raise (OSError "Is a directory"))
      | None => (w, Raise (OSError "No such file or directory"))
      end
  end.

(** The pickling of [pickle.dump]: the class is pickled by name.  A class
    defined inside a function is refused with AttributeError, a class that
    is not found under its name with PicklingError; the state is
    [__getstate__], whose keys and arrays always pickle. *)
Definition pickle_dump (w : world) (obj : GridPolyConv) : result file_content :=
  if bool_decide (class_name obj ∈ local_classes w) then
    Raise (AttributeError "Can't pickle local object")
  else if bool_decide (class_name obj ∈ importable w) then
    Ok (Pickled (class_name obj) (__getstate__ obj))
  else Raise PicklingError.

(** The writing of [pickle.dump] to the open file. *)
Definition file_write (w : world) (p : path) : result unit :=
  if bool_decide (parent p ∈ no_space w) then
    Raise (OSError "No space left on device")
  else Ok tt.

(** [pickle.load]: rebuilds the object through [__setstate__]; an empty
    file runs out of input. *)
Definition pickle_load (w : world) (c : file_content) : result GridPolyConv :=
  match c with
  | Empty => Raise EOFError
  | Garbage => Raise UnpicklingError
  | Pickled cls state =>
      if bool_decide (cls ∈ importable w) then __setstate__ cls state
      else Raise (AttributeError "Can't get attribute")
  end.

(** [to_pickle]: the file is created or truncated before anything is
    pickled, and stays so when [pickle.dump] fails. *)
Definition to_pickle (self : GridPolyConv) (w : world) (p : path)
  : world * result unit :=
  match open_wb w p with
  | Raise e => (w, Raise e)
  | Ok w1 =>
      match pickle_dump w1 self with
      | Raise e => (w1, Raise e)
      | Ok c =>
          match file_write w1 p with
          | Raise e => (w1, Raise e)
          | Ok _ => (write_content w1 p c, Ok tt)
          end
      end
  end.

Definition from_pickle (w : world) (p : path) : result GridPolyConv :=
  c ← read_content w p; pickle_load w c.

(** [Path.suffix]: the part of the name from its last dot, when that dot is
    neither the first nor the last character. *)
Fixpoint last_dot_suffix (s : string) : option string :=
  match s with
  | EmptyString => None
  | String c r =>
      match last_dot_suffix r with
      | Some t => Some t
      | None => if Ascii.eqb c "." then Some s else None
      end
  end.

Definition suffix (nm : string) : string :=
  match nm with
  | EmptyString => ""
  | String _ r =>
      match last_dot_suffix r with
      | Some t => if String.eqb t "." then "" else t
      | None => ""
      end
  end.

(** The comprehension of [find_cache]: names of the regular files that
    start with [c] and have suffix [.gpc]. *)
Definition is_cache_file (e : string * node) : bool :=
  match e.2 with
  | File _ =>
      match String.get 0 e.1 with
      | Some c => Ascii.eqb c "c"
      | None => false
      end && String.eqb (suffix e.1) ".gpc"
  | Subdir => false
  end.

Definition list_dir (d : directory) : list string :=
  map fst (List.filter is_cache_file (entries d)).

(** [find_cache], the function nested in [from_grid_vector]; [caching] is
    the variable it closes over. *)
Definition find_cache (caching : Z) (w : world) (dirname fname : string)
  : option path :=
  match fs w !! dirname with
  | None => None
  | Some d =>
      let list_dir := list_dir d in
      if bool_decide (length list_dir = 0%nat) then None
      else if bool_decide (fname ∈ list_dir) then Some (MkPath dirname fname)
      else if (caching =? 1)%Z then
        let prefix := substring 0 9 fname in
        let part_list_dir :=
          List.filter (fun f => String.eqb (substring 0 9 f) prefix) list_dir in
        match part_list_dir with
        | f :: _ => Some (MkPath dirname f)
        | [] => None
        end
      else None
  end.

(** [generate_cached_fname]; [md5] is [hashlib.md5(..).hexdigest()], and the
    arguments are the [str(..)] of the grid, of the polygon values, of the
    refine factor and, in the strict mode, of the sorted shapes. *)
Definition generate_cached_fname (md5 : string → string)
    (grid vals_d refine : string) (shapes : option string) : string :=
  let prefix := "c" in
  let suffix := ".gpc" in
  let pt1 := substring 0 8 (md5 (grid ++ vals_d ++ refine)) in
  match shapes with
  | None => prefix ++ pt1 ++ suffix
  | Some sh =>
      let pt2 := substring 0 8 (md5 sh) in
      prefix ++ pt1 ++ pt2 ++ suffix
  end.

(** [write_cache], the second nested function; it returns "try again". *)
Definition write_cache (cache_fname : string) (obj : GridPolyConv)
    (w : world) (dirname : string) : world * result bool :=
  let cache_path := MkPath dirname cache_fname in
  match to_pickle obj w cache_path with
  | (w', Ok _) => (w', Ok false)
  | (w', Raise PicklingError) => (w', Raise PicklingError)
  | (w', Raise _) => (w', Ok true)
  end.

(** The arguments of [from_grid_vector] and what it reads from its
    environment.  The polygons are read and rasterized by fiona and
    rasterio; [built] is what these steps hand to the constructor. *)
Record request : Type := MkRequest {
  cls : string;
  vector_dir : string;              (* Path(fname).parent *)
  caching : Z;
  grid_cache_dir : option string;   (* os.environ.get("GRID_CACHE_DIR") *)
  grid_str : string;
  poly_idx_str : string;
  refine_str : string;
  geoms_idxs_str : string;
  built : pyval * pyval * pyval }.

Definition cwd : string := ".".

(** Lines 320-326: the name under which the request is cached. *)
Definition cache_fname_of (md5 : string → string) (rq : request)
  : result string :=
  if (caching rq =? 1)%Z then
    Ok (generate_cached_fname md5 (grid_str rq) (poly_idx_str rq)
          (refine_str rq) None)
  else if (caching rq =? 2)%Z then
    Ok (generate_cached_fname md5 (grid_str rq) (poly_idx_str rq)
          (refine_str rq) (Some (geoms_idxs_str rq)))
  else Raise (ValueError "caching must be 0, 1 or 2").

(** The override directory when the variable is set and not empty. *)
Definition override (rq : request) : option string :=
  match grid_cache_dir rq with
  | Some d => if String.eqb d "" then None else Some d
  | None => None
  end.

(** Lines 326-338: where the cache is searched. *)
Definition search (rq : request) (w : world) (cache_fname : string)
  : result (option path) :=
  match override rq with
  | Some d =>
      match fs w !! d with
      | None => Raise (OSError "GRID_CACHE_DIR is not a directory")
      | Some _ => Ok (find_cache (caching rq) w d cache_fname)
      end
  | None =>
      match find_cache (caching rq) w (vector_dir rq) cache_fname with
      | Some p => Ok (Some p)
      | None => Ok (find_cache (caching rq) w cwd cache_fname)
      end
  end.

(** Lines 350-450: build the object from the rasterized arrays. *)
Definition build (rq : request) : result GridPolyConv :=
  let '(poly_idx, idx_ar, ar_count) := built rq in
  __init__ (cls rq) poly_idx idx_ar ar_count.

(** Lines 452-476: store the new object. *)
Definition store (rq : request) (cache_fname : string) (obj : GridPolyConv)
    (w : world) : world * result GridPolyConv :=
  match override rq with
  | Some d =>
      match write_cache cache_fname obj w d with
      | (w', Raise e) => (w', Raise e)
      | (w', Ok _) => (w', Ok obj)
      end
  | None =>
      match write_cache cache_fname obj w (vector_dir rq) with
      | (w', Raise e) => (w', Raise e)
      | (w', Ok tryagain) =>
          if tryagain then
            match write_cache cache_fname obj w' cwd with
            | (w'', Raise e) => (w'', Raise e)
            | (w'', Ok _) => (w'', Ok obj)
            end
          else (w', Ok obj)
      end
  end.

Definition build_and_store (rq : request) (cache_fname : string) (w : world)
  : world * result GridPolyConv :=
  match build rq with
  | Raise e => (w, Raise e)
  | Ok obj => store rq cache_fname obj w
  end.

(** [from_grid_vector] from line 300 on. *)
Definition from_grid_vector (md5 : string → string) (rq : request) (w : world)
  : world * result GridPolyConv :=
  if (caching rq =? 0)%Z then
    match build rq with
    | Raise e => (w, Raise e)
    | Ok obj => (w, Ok obj)
    end
  else
    match cache_fname_of md5 rq with
    | Raise e => (w, Raise e)
    | Ok cache_fname =>
        match search rq w cache_fname with
        | Raise e => (w, Raise e)
        | Ok None => build_and_store rq cache_fname w
        | Ok (Some cache_path) =>
            match from_pickle w cache_path with
            | Ok obj => (w, Ok obj)
            | Raise _ =>
                match os_remove w cache_path with
                | (w', Raise e) => (w', Raise e)
                | (w', Ok _) => build_and_store rq cache_fname w'
                end
            end
        end
    end.

(** *** Statements about the cache *)




(** The file can be created or truncated. *)
Definition can_open (w : world) (dirname fname : string) : Prop :=
  returns (open_wb w (MkPath dirname fname)).

(** The object can be written to the file: the file can be created or
    truncated, pickling succeeds and the device has room. *)
Definition can_store (w : world) (dirname fname : string) (obj : GridPolyConv)
  : Prop :=
  can_open w dirname fname
  ∧ returns (pickle_dump w obj)
  ∧ dirname ∉ no_space w.

(** The world [w'] differs from [w] at most in the directory [dirname]. *)
Definition same_but (dirname : string) (w w' : world) : Prop :=
  importable w' = importable w
  ∧ local_classes w' = local_classes w
  ∧ no_space w' = no_space w
  ∧ ∀ d, d ≠ dirname → fs w' !! d = fs w !! d.

(** The file holds the pickled object. *)
Definition stored_at (w : world) (dirname fname : string) (obj : GridPolyConv)
  : Prop :=
  read_content w (MkPath dirname fname)
  = Ok (Pickled (class_name obj) (__getstate__ obj)).

(** The directories in which the store is attempted: the override
    directory alone when it is set, otherwise the directory of the vector
    file and then the current directory. *)
Definition attempted (rq : request) (d : string) : Prop :=
  match override rq with
  | Some o => d = o
  | None => d = vector_dir rq ∨ d = cwd
  end.

(** What storing [obj] from the world [w] can end in.  The call returns the
    new object or raises PicklingError, and it raises exactly when pickle
    does not find the class and the file could be opened in an attempted
    directory; every other failure (a file that cannot be created, a class
    that pickle refuses otherwise, a device without room) is passed over.
    Nothing is touched outside the attempted directories; a successful
    first attempt stores there, and after a first attempt that failed the
    current directory is tried. *)
Definition store_outcome (rq : request) (fname : string) (obj : GridPolyConv)
    (w w' : world) (r : result GridPolyConv) : Prop :=
  (r = Ok obj ∨ r = Raise PicklingError)
  ∧ (r = Raise PicklingError
     ↔ pickle_dump w obj = Raise PicklingError
       ∧ ∃ d, attempted rq d ∧ can_open w d fname)
  ∧ (∀ q, ¬ attempted rq (parent q) → read_content w' q = read_content w q)
  ∧ match override rq with
    | Some d => can_store w d fname obj → stored_at w' d fname obj
    | None =>
        (can_store w (vector_dir rq) fname obj →
         stored_at w' (vector_dir rq) fname obj)
        ∧ (¬ can_store w (vector_dir rq) fname obj →
           can_store w cwd fname obj → stored_at w' cwd fname obj)
    end.

End Cache.
Export Cache.

(** ** Time statistics of array_from_netcdf *)

Module TimeStats.

(** *** month_number *)

Definition is_upper (c : ascii) : bool :=
  let n := nat_of_ascii c in (65 <=? n)%nat && (n <=? 90)%nat.
Definition is_lower (c : ascii) : bool :=
  let n := nat_of_ascii c in (97 <=? n)%nat && (n <=? 122)%nat.
Definition to_upper (c : ascii) : ascii :=
  if is_lower c then ascii_of_nat (nat_of_ascii c - 32) else c.
Definition to_lower (c : ascii) : ascii :=
  if is_upper c then ascii_of_nat (nat_of_ascii c + 32) else c.

(** [str.title()] on ASCII text: a letter that follows a letter is lowered,
    any other letter is raised. *)
Fixpoint title_from (prev_cased : bool) (s : string) : string :=
  match s with
  | EmptyString => EmptyString
  | String c r =>
      if is_upper c || is_lower c then
        String (if prev_cased then to_lower c else to_upper c) (title_from true r)
      else String c (title_from false r)
  end.
Definition title : string → string := title_from false.

(** [calendar.month_abbr] and [calendar.month_name] (English names). *)
Definition month_abbr : list string :=
  [""; "Jan"; "Feb"; "Mar"; "Apr"; "May"; "Jun";
   "Jul"; "Aug"; "Sep"; "Oct"; "Nov"; "Dec"].
Definition month_name : list string :=
  [""; "January"; "February"; "March"; "April"; "May"; "June";
   "July"; "August"; "September"; "October"; "November"; "December"].

Fixpoint str_index (k : string) (l : list string) : nat :=
  match l with
  | [] => 0
  | x :: l' => if String.eqb x k then 0 else S (str_index k l')
  end.

Definition month_number (txt : string) : result Z :=
  if String.eqb txt "" then Raise (ValueError "month input cannot be empty")
  else
    let Txt := title txt in
    if bool_decide (Txt ∈ month_abbr) then Ok (Z.of_nat (str_index Txt month_abbr))
    else if bool_decide (Txt ∈ month_name) then
      Ok (Z.of_nat (str_index Txt month_name))
    else Raise (ValueError "cannot evaluate month").

(** *** Parsing the time_stats argument *)

(** [s.split(sep)] for a one-character separator. *)
Fixpoint split_on (sep : ascii) (s : string) : list string :=
  match s with
  | EmptyString => [EmptyString]
  | String c r =>
      if Ascii.eqb c sep then EmptyString :: split_on sep r
      else
        match split_on sep r with
        | [] => [String c EmptyString]
        | w :: ws => String c w :: ws
        end
  end.

(** [s.count(sep)]. *)
Fixpoint count_char (sep : ascii) (s : string) : nat :=
  match s with
  | EmptyString => 0
  | String c r => (if Ascii.eqb c sep then 1 else 0) + count_char sep r
  end.

Record time_spec : Type := MkTimeSpec {
  time_window : option string;
  time_stats_l : list string;
  start_month : Z;
  end_month : Z }.

(** Lines 667-691. *)
Definition parse_time_stats (time_stats : string) : result time_spec :=
  if (0 <? count_char ":" time_stats)%nat then
    if negb (count_char ":" time_stats =? 1)%nat then
      Raise (ValueError "expected one ':' in time stats")
    else
      match split_on ":" time_stats with
      | [time_window; stats_types_str] =>
          let time_stats_l := split_on "," stats_types_str in
          if String.eqb time_window "annual" then
            Ok (MkTimeSpec (Some time_window) time_stats_l 1 12)
          else if (0 <? count_char "-" time_window)%nat then
            if negb (count_char "-" time_window =? 1)%nat then
              Raise (ValueError "too many '-' for time_window")
            else
              match split_on "-" time_window with
              | [a; b] =>
                  start_month ← month_number a;
                  end_month ← month_number b;
                  Ok (MkTimeSpec (Some time_window) time_stats_l
                        start_month end_month)
              | _ => Raise (ValueError "too many '-' for time_window")
              end
          else Raise (ValueError "time stats window not supported")
      | _ => Raise (ValueError "expected one ':' in time stats")
      end
  else Ok (MkTimeSpec None (split_on "," time_stats) 1 12).

(** *** The month selection, lines 759-778 *)

Inductive month_mask : Type :=
| AllMonths                       (* np.ones_like(month) *)
| Wrapping (start_month end_month : Z)   (* (month >= start) | (month <= end) *)
| Contiguous (start_month end_month : Z).  (* (month >= start) & (month <= end) *)

Definition month_mask_of (start_month end_month : Z) : month_mask :=
  let num_months := (end_month - start_month + 1)%Z in
  if (num_months mod 12 =? 0)%Z then AllMonths
  else if (num_months <? 1)%Z then Wrapping start_month end_month
  else Contiguous start_month end_month.

Definition in_mask (m : month_mask) (month : Z) : bool :=
  match m with
  | AllMonths => true
  | Wrapping s e => (s <=? month)%Z || (month <=? e)%Z
  | Contiguous s e => (s <=? month)%Z && (month <=? e)%Z
  end.

Definition month_sel (start_month end_month : Z) (month : list Z) : list bool :=
  map (in_mask (month_mask_of start_month end_month)) month.

(** *** The statistics, lines 752-865 *)

(** The variable after its selection on [poly_idx]: one value per polygon
    or, with a time dimension, one row per timestamp; a timestamp is kept
    as its year and month. *)
Record timeseries : Type := MkSeries {
  time : list (Z * Z);
  rows : list (list Q) }.

Inductive variable : Type :=
| Static (vals : list Q)
| Series (ts : timeseries).

(** The labels of the yearly groups: a year, or the text of a year pair. *)
Inductive label : Type :=
| LInt (y : Z)
| LStr (s : string).

#[export] Instance label_eq_dec : EqDecision label.
Proof. solve_decision. Defined.

Definition label_leb (a b : label) : bool :=
  match a, b with
  | LInt x, LInt y => (x <=? y)%Z
  | LStr x, LStr y => String.leb x y
  | LInt _, LStr _ => true
  | LStr _, LInt _ => false
  end.

Fixpoint insert_label (x : label) (l : list label) : list label :=
  match l with
  | [] => [x]
  | y :: l' =>
      if bool_decide (x = y) then l
      else if label_leb x y then x :: l else y :: insert_label x l'
  end.

(** The sorted distinct labels, as groupby orders its groups. *)
Definition groups (labels : list label) : list label :=
  foldr insert_label [] labels.

(** The decimal text of an integer, [str(y)]. *)
Definition str_Z (y : Z) : string := pretty.pretty y.

(** Lines 787-798: the year label of every timestamp. *)
Definition year_labels (start_month end_month : Z) (sel : list bool)
    (time : list (Z * Z)) : list label * label :=
  let wrapping := (end_month <? start_month)%Z in
  let bogus := if wrapping then LStr "bogus" else LInt (-1) in
  let year :=
    map (fun t : Z * Z =>
           let (y, m) := t in
           if wrapping then
             let yp := if (m <? start_month)%Z then (y - 1)%Z else y in
             LStr (str_Z yp ++ "-" ++ str_Z (yp + 1))
           else LInt y) time in
  let has_partial_month_sel := negb (forallb id sel) in
  (if has_partial_month_sel then
     zip_with (fun (l : label) (b : bool) => if b then l else bogus) year sel
   else year,
   bogus).

(** The mean over the rows, column by column. *)
Definition column (j : nat) (rows : list (list Q)) : list Q :=
  map (fun r => nth j r 0%Q) rows.

Definition mean (xs : list Q) : Q :=
  (Qsum xs / inject_Z (Z.of_nat (length xs)))%Q.

Definition mean_rows (npoly : nat) (rows : list (list Q)) : list Q :=
  map (fun j => mean (column j rows)) (seq 0 npoly).

Definition rows_with {T} (g : label) (labels : list label) (rows : list T)
  : list T :=
  select (map (fun l => bool_decide (l = g)) labels) rows.

(** [var.groupby(year).mean()], with the group of [drop] removed when one is
    given ([drop_sel]). *)
Definition groupby_mean (npoly : nat) (labels : list label)
    (drop : option label) (rows : list (list Q)) : list (label * list Q) :=
  map (fun g => (g, mean_rows npoly (rows_with g labels rows)))
      (List.filter (fun g => negb (bool_decide (Some g = drop))) (groups labels)).

(** [self.weight.sum((1, 2))]: one sum per level. *)
Definition level_mass (w : ndarray Q) : list Q :=
  map (fun l => Qsum (take (cells_of w) (drop (l * cells_of w) (data w))))
      (seq 0 (levels_of w)).

(** [weight * var]: the weight is the scalar 1.0, or the vector of the level
    sums, which numpy broadcasts against the last axis of the variable. *)
Definition weighted (self : GridPolyConv) (npoly : nat) (rows : list (list Q))
  : result (list (list Q)) :=
  match weight self with
  | None => Ok (map (map (Qmult 1)) rows)
  | Some w =>
      let weight := level_mass w in
      if bool_decide (length weight = npoly) then
        Ok (map (fun r => zip_with Qmult weight r) rows)
      else
        match weight with
        | [w0] => Ok (map (map (Qmult w0)) rows)
        | _ => Raise (ValueError "operands could not be broadcast together")
        end
  end.

(** Positions of the smallest and of the largest element, the first one
    among equals, and the positions in ascending order of the elements. *)
Fixpoint argmin_from (i best : nat) (bv : Q) (xs : list Q) : nat :=
  match xs with
  | [] => best
  | x :: xs' =>
      if Qlt_le_dec x bv then argmin_from (S i) i x xs'
      else argmin_from (S i) best bv xs'
  end.
Definition argmin (xs : list Q) : option nat :=
  match xs with
  | [] => None
  | x :: xs' => Some (argmin_from 1 0 x xs')
  end.

Fixpoint argmax_from (i best : nat) (bv : Q) (xs : list Q) : nat :=
  match xs with
  | [] => best
  | x :: xs' =>
      if Qlt_le_dec bv x then argmax_from (S i) i x xs'
      else argmax_from (S i) best bv xs'
  end.
Definition argmax (xs : list Q) : option nat :=
  match xs with
  | [] => None
  | x :: xs' => Some (argmax_from 1 0 x xs')
  end.

Fixpoint insert_by (x : nat * Q) (l : list (nat * Q)) : list (nat * Q) :=
  match l with
  | [] => [x]
  | y :: l' => if Qlt_le_dec x.2 y.2 then x :: l else y :: insert_by x l'
  end.
Definition argsort (xs : list Q) : list nat :=
  map fst (foldr insert_by [] (zip (seq 0 (length xs)) xs)).

Fixpoint insert_Q (x : Q) (l : list Q) : list Q :=
  match l with
  | [] => [x]
  | y :: l' => if Qlt_le_dec x y then x :: l else y :: insert_Q x l'
  end.
Definition sort_Q (xs : list Q) : list Q := foldr insert_Q [] xs.

Definition median (xs : list Q) : Q :=
  let s := sort_Q xs in
  let n := length s in
  if Nat.even n then ((nth (n / 2 - 1) s 0 + nth (n / 2) s 0) / 2)%Q
  else nth (n / 2) s 0%Q.

Definition minimum (xs : list Q) : Q :=
  match sort_Q xs with
  | [] => 0%Q
  | x :: _ => x
  end.
Definition maximum (xs : list Q) : Q := List.last (sort_Q xs) 0%Q.

(** What the yearly grouping leaves for min, median and max. *)
Record year_totals : Type := MkYearTotals {
  var_mean : list (label * list Q);
  wvar_year_total : list (label * Q) }.

(** Lines 784-814. *)
Definition yearly (self : GridPolyConv) (spec : time_spec) (npoly : nat)
    (sel : list bool) (ts : timeseries) : result year_totals :=
  let has_partial_month_sel := negb (forallb id sel) in
  let '(year, bogus) :=
    year_labels (start_month spec) (end_month spec) sel (time ts) in
  let drop := if has_partial_month_sel then Some bogus else None in
  let var_mean := groupby_mean npoly year drop (rows ts) in
  wvar ← weighted self npoly (rows ts);
  let wvar_mean := groupby_mean npoly year drop wvar in
  Ok (MkYearTotals var_mean (map (fun gv : label * list Q => (gv.1, Qsum gv.2)) wvar_mean)).

(** The values of the year at a position of the yearly totals. *)
Definition year_values (yt : year_totals) (pos : option nat)
  : result (list Q) :=
  match pos with
  | None => Raise (ValueError "attempt to get an index of an empty sequence")
  | Some i =>
      match wvar_year_total yt !! i with
      | None => Raise (IndexError "index out of bounds")
      | Some (year, _) =>
          match List.find (fun gv : label * list Q => bool_decide (gv.1 = year))
                          (var_mean yt) with
          | Some gv => Ok gv.2
          | None => Raise (ValueError "year not found")
          end
      end
  end.

Definition startswith (pre s : string) : bool :=
  String.eqb (substring 0 (String.length pre) s) pre.

(** One statistic, lines 819-853.  [quantile] stands for the parsing of the
    quantile and for numpy's quantile over the time axis. *)
Definition statistic (quantile : string → list (list Q) → result (list Q))
    (spec : time_spec) (npoly : nat) (yt : option year_totals)
    (var : list (list Q)) (tstats : string) : result (list Q) :=
  let columns f := map (fun j => f (column j var)) (seq 0 npoly) in
  let totals := match yt with
                | Some t => map snd (wvar_year_total t)
                | None => []
                end in
  let of_year pos := match yt with
                     | Some t => year_values t pos
                     | None => Raise (ValueError "no yearly totals")
                     end in
  if String.eqb tstats "mean" then Ok (columns mean)
  else if String.eqb tstats "median" then
    match time_window spec with
    | Some _ => of_year (argsort totals !! (length totals / 2)%nat)
    | None => Ok (columns median)
    end
  else if String.eqb tstats "min" then
    match time_window spec with
    | Some _ => of_year (argmin totals)
    | None => Ok (columns minimum)
    end
  else if String.eqb tstats "max" then
    match time_window spec with
    | Some _ => of_year (argmax totals)
    | None => Ok (columns maximum)
    end
  else if startswith "quantile(" tstats then quantile tstats var
  else Raise (ValueError "unhandled time stats").

(** [ret[key] = ar] on the dict under construction. *)
Fixpoint dict_set {V} (k : option string) (v : V)
    (d : list (option string * V)) : list (option string * V) :=
  match d with
  | [] => [(k, v)]
  | (k', v') :: d' =>
      if bool_decide (k' = k) then (k', v) :: d' else (k', v') :: dict_set k v d'
  end.

Fixpoint each_statistic (quantile : string → list (list Q) → result (list Q))
    (self : GridPolyConv) (spec : time_spec) (yt : option year_totals)
    (var : list (list Q)) (fill : Q) (enforce1d : bool)
    (stats : list string) (ret : list (option string * masked_array))
  : result (list (option string * masked_array)) :=
  match stats with
  | [] => Ok ret
  | tstats :: stats' =>
      let npoly := length (poly_idx self) in
      values ← statistic quantile spec npoly yt var tstats;
      ar ← array_from_values self (poly_idx self)
             (NdArray [length values] values) fill enforce1d;
      each_statistic quantile self spec yt var fill enforce1d stats'
        (dict_set (Some tstats) ar ret)
  end.

(** [array_from_netcdf] once the variable is loaded: lines 667-691 and
    752-865. *)
Definition array_from_netcdf
    (quantile : string → list (list Q) → result (list Q))
    (self : GridPolyConv) (var : variable) (time_stats : option string)
    (fill : Q) (enforce1d : bool)
  : result (list (option string * masked_array)) :=
  spec ← match time_stats with
         | Some s => Some <$> parse_time_stats s
         | None => Ok None
         end;
  match spec, var with
  | Some spec, Series ts =>
      let npoly := length (poly_idx self) in
      let month := map snd (time ts) in
      let sel := month_sel (start_month spec) (end_month spec) month in
      let has_partial_month_sel := negb (forallb id sel) in
      yt ← (if existsb (fun s => bool_decide (s ∈ ["min"; "max"; "median"]))
                 (time_stats_l spec)
               && bool_decide (is_Some (time_window spec))
            then Some <$> yearly self spec npoly sel ts
            else Ok None);
      let var := if has_partial_month_sel then select sel (rows ts) else rows ts in
      each_statistic quantile self spec yt var fill enforce1d
        (time_stats_l spec) []
  | _, Series ts =>
      ar ← array_from_values self (poly_idx self)
             (NdArray [length (rows ts); length (poly_idx self)]
                (mjoin (rows ts))) fill enforce1d;
      Ok [(None, ar)]
  | _, Static vals =>
      ar ← array_from_values self (poly_idx self)
             (NdArray [length vals] vals) fill enforce1d;
      Ok [(None, ar)]
  end.

(** *** Statements about the time statistics *)

(** The month selection of a window, case by case. *)
Definition window_mask (start_month end_month : Z) (month : list Z) : Prop :=
  ((end_month - start_month + 1) mod 12 = 0 →
   month_sel start_month end_month month = map (fun _ => true) month)%Z
  ∧ ((end_month - start_month + 1) mod 12 ≠ 0 → start_month > end_month →
     month_sel start_month end_month month
     = map (fun m => (start_month <=? m) || (m <=? end_month)) month)%Z
  ∧ ((end_month - start_month + 1) mod 12 ≠ 0 → start_month <= end_month →
     month_sel start_month end_month month
     = map (fun m => (start_month <=? m) && (m <=? end_month)) month)%Z.

(** The weight (area) of each catchment, as the comment of line 805 words
    it: the sum of the weights of the levels and cells indexed to the
    polygon.  This is what the comment describes, not what the code
    computes, which is [level_mass]. *)
Definition catchment_mass (self : GridPolyConv) (w : ndarray Q) : list Q :=
  map (fun j =>
         Qsum (zip_with (fun (i : Z) (x : Q) =>
                           if (i =? Z.of_nat (S j))%Z then x else 0%Q)
                        (data (idx_ar self)) (data w)))
      (seq 0 (length (poly_idx self))).

End TimeStats.
Export TimeStats.

(** ** The polygon keys and their indexes *)

Module Indexing.

#[export] Instance key_countable : Countable key.
Proof.
  refine (inj_countable'
            (fun k => match k with KInt z => inl z | KStr s => inr s end)
            (fun x => match x with inl z => KInt z | inr s => KStr s end) _).
  intros []; reflexivity.
Defined.

Definition is_int (k : key) : bool :=
  match k with KInt _ => true | KStr _ => false end.

(** [a <= b] between two attribute values of the same type. *)
Definition key_leb (a b : key) : bool :=
  match a, b with
  | KInt x, KInt y => (x <=? y)%Z
  | KStr x, KStr y => String.leb x y
  | _, _ => false
  end.

Fixpoint insert_key (x : key) (l : list key) : list key :=
  match l with
  | [] => [x]
  | y :: l' => if key_leb x y then x :: l else y :: insert_key x l'
  end.

(** [sorted(s)] of a set of attribute values: integers and strings do not
    compare with each other. *)
Definition sorted (s : list key) : result (list key) :=
  if forallb is_int s || forallb (fun k => negb (is_int k)) s then
    Ok (foldr insert_key [] s)
  else
    Raise (TypeError "'<' not supported between instances of 'str' and 'int'").

(** [enumerate(l, start)]. *)
Definition enumerate {T} (start : Z) (l : list T) : list (Z * T) :=
  imap (fun i x => ((start + Z.of_nat i)%Z, x)) l.

(** Lines 289-297 of [from_grid_vector]: the attribute values [vals] of the
    features, in the order they were read, give the polygon keys and the
    index of every feature.  The second [raise] of the source follows the
    first one inside the same [if] and is never reached. *)
Definition index_features (vals : list key)
  : result (list key * list (option Z)) :=
  if bool_decide (vals = []) then
    Raise (ValueError "no features were found in grid extent")
  else
    s ← sorted (remove_dups vals);
    let vals_d := enumerate 1 s in
    let poly_idx := map snd vals_d in
    let idx_vals : gmap key Z :=
      foldl (fun d kv => <[kv.2 := kv.1]> d) ∅ vals_d in
    let idxs := map (fun v => idx_vals !! v) vals in
    Ok (poly_idx, idxs).

Fixpoint ascending (l : list key) : bool :=
  match l with
  | a :: (b :: _) as l' => key_leb a b && ascending l'
  | _ => true
  end.

End Indexing.
Export Indexing.

(** ** Helpers for the statements of further properties *)

Module Statements.

(** [str.lower()] on ASCII text. *)
Fixpoint lower (s : string) : string :=
  match s with
  | EmptyString => EmptyString
  | String c r => String (to_lower c) (lower r)
  end.

(** The month named at position [m] of a calendar table. *)
Definition month_at (table : list string) (m : Z) : string :=
  nth (Z.to_nat m) table "".

(** What the constructor guarantees of the object it returns. *)
Definition object_invariant (x : GridPolyConv) : Prop :=
  NoDup (poly_idx x)
  ∧ ((ndim (idx_ar x) = 2%nat
      ∧ ar_count x = None ∧ weight x = None
      ∧ mask x = NdArray (shape (idx_ar x))
                   (map (fun v => (v =? 0)%Z) (data (idx_ar x))))
     ∨ (ndim (idx_ar x) = 3%nat
        ∧ hd 0%nat (shape (idx_ar x)) ≠ 0%nat
        ∧ ∃ cnt w,
            ar_count x = Some cnt ∧ weight x = Some w
            ∧ shape cnt = shape (idx_ar x)
            ∧ shape w = shape (idx_ar x)
            ∧ mask x = NdArray (tl (shape (idx_ar x)))
                         (map (fun v => (v =? 0)%Z)
                            (take (size_of (tl (shape (idx_ar x))))
                               (data (idx_ar x)))))).

(** What a parsed time_stats argument looks like. *)
Definition parsed_shape (time_stats : string) (spec : time_spec) : Prop :=
  (1 <= start_month spec <= 12)%Z
  ∧ (1 <= end_month spec <= 12)%Z
  ∧ time_stats_l spec ≠ []
  ∧ (time_window spec = None →
     start_month spec = 1%Z ∧ end_month spec = 12%Z
     ∧ time_stats_l spec = split_on "," time_stats)
  ∧ (∀ w, time_window spec = Some w → w ≠ "")
  ∧ (month_mask_of (start_month spec) (end_month spec) = AllMonths
     ↔ (start_month spec = 1 ∧ end_month spec = 12)%Z
       ∨ (start_month spec = end_month spec + 1)%Z).

(** What [to_pickle] does to the files.  It touches no other path.  When
    the file cannot be created or truncated it raises that OSError and
    changes nothing.  Otherwise it raises what pickling or writing raises,
    and the file is left empty: whatever it held is gone, and loading it
    runs out of input; or it returns, and the file holds the pickled
    object. *)
Definition to_pickle_effects (self : GridPolyConv) (w : world) (p : path)
    (w' : world) (r : result unit) : Prop :=
  (∀ q, q ≠ p → read_content w' q = read_content w q)
  ∧ (¬ can_open w (parent p) (name p) →
     w' = w ∧ ∃ msg, r = Raise (OSError msg))
  ∧ (can_open w (parent p) (name p) →
     match pickle_dump w self, file_write w p with
     | Ok c, Ok _ => r = Ok tt ∧ read_content w' p = Ok c
     | Ok _, Raise e | Raise e, _ =>
         r = Raise e
         ∧ read_content w' p = Ok Empty
         ∧ from_pickle w' p = Raise EOFError
     end)
  ∧ (r = Ok tt → stored_at w' (parent p) (name p) self).

(** What the path returned by [find_cache] is. *)
Definition found_cache_file (caching : Z) (w : world) (dirname fname : string)
    (p : path) : Prop :=
  parent p = dirname
  ∧ ∃ d c, fs w !! dirname = Some d
           ∧ (name p, File c) ∈ entries d
           ∧ is_cache_file (name p, File c) = true
           ∧ (name p = fname
              ∨ (caching = 1%Z ∧ (fname ∉ list_dir d)
                 ∧ substring 0 9 (name p) = substring 0 9 fname)).

(** A name that [find_cache] lists when it is the name of a regular file. *)
Definition cache_name (nm : string) : bool := is_cache_file (nm, File Garbage).

(** The cheap and the strict name of the same grid, values and refine
    factor: their lengths, and what the cheap name finds in a directory
    that holds a file stored under the strict name. *)
Definition cheap_finds_strict (md5 : string → string)
    (grid vals_d refine shapes : string) (w : world) (dirname : string)
  : Prop :=
  let cheap := generate_cached_fname md5 grid vals_d refine None in
  let strict := generate_cached_fname md5 grid vals_d refine (Some shapes) in
  String.length cheap = 13%nat
  ∧ String.length strict = 21%nat
  ∧ substring 0 9 cheap = substring 0 9 strict
  ∧ ∃ p, find_cache 1 w dirname cheap = Some p
         ∧ parent p = dirname
         ∧ substring 0 9 (name p) = substring 0 9 strict.

(** The same call, made again in the world the first call left: it returns
    the same object and changes nothing; and when the first call wrote
    something, the second finds the file under the wanted name and loads the
    object from it. *)
Definition second_call_hits (md5 : string → string) (rq : request)
    (fname : string) (obj : GridPolyConv) (w w' : world) : Prop :=
  from_grid_vector md5 rq w' = (w', Ok obj)
  ∧ (w' ≠ w →
     ∃ p, search rq w' fname = Ok (Some p)
          ∧ name p = fname
          ∧ from_pickle w' p = Ok obj).

(** The value that an index and its values give to a key. *)
Definition value_of (index : list key) (vals : list Q) (k : key) : Q :=
  nth (list_index k index) vals 0%Q.

(** The shape and the mask of the output of [array_from_values], and its
    well-formedness. *)
Definition output_shape (self : GridPolyConv) (values : ndarray Q)
    (out : masked_array) : Prop :=
  well_formed (ma_data out) ∧ well_formed (ma_mask out)
  ∧ shape (ma_mask out) = shape (ma_data out)
  ∧ (ndim values = 1%nat →
     shape (ma_data out) = shape (mask self) ∧ ma_mask out = mask self)
  ∧ (ndim values = 2%nat →
     shape (ma_data out) = hd 0%nat (shape values) :: shape (mask self)
     ∧ data (ma_mask out)
       = broadcast_levels (hd 0%nat (shape values)) (data (mask self))).

(** The cells of the output of an object without weights, for a vector of
    values: the fill where the index is 0, the value of the indexed polygon
    elsewhere; masked where the index is 0. *)
Definition unrefined_cell (self : GridPolyConv) (index : list key)
    (values : ndarray Q) (fill : Q) (out : masked_array) (c : nat) : Prop :=
  let j := nth c (data (idx_ar self)) 0%Z in
  (j = 0%Z → nth c (data (ma_data out)) 0%Q = fill
             ∧ nth c (data (ma_mask out)) false = true)
  ∧ (∀ i, j = Z.of_nat (S i) → i < length (poly_idx self) →
          nth c (data (ma_data out)) 0%Q
          = value_of index (data values) (nth i (poly_idx self) (KInt 0))
          ∧ nth c (data (ma_mask out)) false = false).

(** The values of a year whose total is the best of all years: [better] is
    "at most" for the minimum and "at least" for the maximum. *)
Definition extreme_year (yt : year_totals) (better : Q → Q → Prop)
    (values : list Q) : Prop :=
  ∃ year total,
    (year, total) ∈ wvar_year_total yt
    ∧ (∀ y t, (y, t) ∈ wvar_year_total yt → better total t)
    ∧ (year, values) ∈ var_mean yt.

(** With a time window, min and max return the mean values of a year of
    smallest and of largest total. *)
Definition windowed_extremes
    (quantile : string → list (list Q) → result (list Q))
    (spec : time_spec) (npoly : nat) (yt : year_totals) (var : list (list Q))
  : Prop :=
  (∃ values, statistic quantile spec npoly (Some yt) var "min" = Ok values
             ∧ extreme_year yt Qle values)
  ∧ (∃ values, statistic quantile spec npoly (Some yt) var "max" = Ok values
               ∧ extreme_year yt (fun a b => (b <= a)%Q) values).

(** A 2D array on the grid of the object, with the mask of the object. *)
Definition on_grid (self : GridPolyConv) (out : masked_array) : Prop :=
  ndim (ma_data out) = 2%nat
  ∧ shape (ma_data out) = shape (mask self)
  ∧ ma_mask out = mask self
  ∧ well_formed (ma_data out).

(** The dict returned by [array_from_netcdf]: its keys are distinct; with
    time statistics on a variable with a time dimension they are the
    statistics asked for, otherwise the single key [None]; and unless a
    variable with a time dimension is projected without statistics, every
    array is on the grid. *)
Definition netcdf_result (self : GridPolyConv) (var : variable)
    (time_stats : option string) (enforce1d : bool)
    (ret : list (option string * masked_array)) : Prop :=
  NoDup (map fst ret)
  ∧ match time_stats, var with
    | Some s, Series _ =>
        ∃ spec, parse_time_stats s = Ok spec
                ∧ ∀ k, k ∈ map fst ret
                       ↔ ∃ t, k = Some t ∧ t ∈ time_stats_l spec
    | _, _ => map fst ret = [None]
    end
  ∧ (enforce1d = true ∨ is_Some time_stats ∨ (∃ vals, var = Static vals) →
     Forall (fun kv => on_grid self kv.2) ret).

(** The keys and the indexes that [index_features] gives: the keys are the
    distinct values in ascending order, which the constructor accepts as
    unique; every feature gets the 1-based position of its value among the
    keys, never the nodata index 0, and features of equal value share their
    index. *)
Definition indexed (vals poly_idx : list key) (idxs : list (option Z))
  : Prop :=
  NoDup poly_idx
  ∧ ascending poly_idx = true
  ∧ (∀ k, k ∈ poly_idx ↔ k ∈ vals)
  ∧ length idxs = length vals
  ∧ (∀ i v, vals !! i = Some v →
            ∃ j, idxs !! i = Some (Some (Z.of_nat (S j)))
                 ∧ poly_idx !! j = Some v)
  ∧ (∀ cls i a, __init__ cls (PList poly_idx) i a
                ≠ Raise (ValueError "poly_idx values are not unique")).

(** Row [e] of a 2D array of values, [values[e]], and level [e] of the
    output, as flat lists. *)
Definition row_of_values (values : ndarray Q) (e : nat) : ndarray Q :=
  let npoly := List.last (shape values) 0%nat in
  NdArray [npoly] (take npoly (drop (e * npoly) (data values))).

Definition level_of_output (self : GridPolyConv) (out : masked_array)
    (e : nat) : list Q :=
  let n := size_of (shape (mask self)) in
  take n (drop (e * n) (data (ma_data out))).

(** Level [e] of the output for a 2D array of values is the output for row
    [e] alone. *)
Definition row_projection (self : GridPolyConv) (index : list key)
    (values : ndarray Q) (fill : Q) (enforce1d : bool) (out : masked_array)
    (e : nat) : Prop :=
  ∃ out_e,
    array_from_values self index (row_of_values values e) fill enforce1d
    = Ok out_e
    ∧ data (ma_data out_e) = level_of_output self out e
    ∧ shape (ma_data out_e) = shape (mask self)
    ∧ ma_mask out_e = mask self.

(** The objects the constructor returns. *)
Definition constructed (x : GridPolyConv) : Prop :=
  ∃ cls p i a, __init__ cls p i a = Ok x.

End Statements.
Export Statements.

(** ** Sample objects *)

Module Samples.

(** Two levels over a grid of one row and two columns, three polygons. *)
Definition refined : GridPolyConv :=
  {| class_name := "GridPolyConv";
     poly_idx := [KInt 10; KInt 20; KInt 30];
     idx_ar := NdArray [2; 1; 2] [1; 2; 3; 0]%Z;
     ar_count := Some (NdArray [2; 1; 2] [3; 2; 1; 0]%Z);
     weight := Some (NdArray [2; 1; 2] (weight_of 2 2 [3; 2; 1; 0]%Z));
     mask := NdArray [1; 2] [false; false] |}.

(** The same index array with no counts. *)
Definition uncounted : GridPolyConv :=
  {| class_name := "GridPolyConv";
     poly_idx := [KInt 10; KInt 20; KInt 30];
     idx_ar := NdArray [2; 1; 2] [1; 2; 3; 0]%Z;
     ar_count := None;
     weight := None;
     mask := NdArray [1; 2] [false; false] |}.

(** One polygon on a grid of one row and two columns, no refinement. *)
Definition plain : GridPolyConv :=
  {| class_name := "GridPolyConv";
     poly_idx := [KInt 10; KInt 20];
     idx_ar := NdArray [1; 2] [1; 2]%Z;
     ar_count := None;
     weight := None;
     mask := NdArray [1; 2] [false; false] |}.

(** One cell, indexed to the only polygon, with a count of zero. *)
Definition zero_count_idx : ndarray Z := NdArray [1; 1; 1] [1]%Z.
Definition zero_count_cnt : ndarray Z := NdArray [1; 1; 1] [0]%Z.

(** Two levels over two cells: the first cell is shared by the two
    polygons, the second one is outside both. *)
Definition patchy_idx : ndarray Z := NdArray [2; 1; 2] [1; 0; 2; 0]%Z.
Definition patchy_cnt : ndarray Z := NdArray [2; 1; 2] [3; 0; 1; 0]%Z.
Definition patchy : GridPolyConv :=
  {| class_name := "GridPolyConv";
     poly_idx := [KInt 10; KInt 20];
     idx_ar := patchy_idx;
     ar_count := Some patchy_cnt;
     weight := Some (NdArray [2; 1; 2] (weight_of 2 2 [3; 0; 1; 0]%Z));
     mask := NdArray [1; 2] [false; true] |}.

(** One cell in three levels with counts 3, 2 and 1. *)
Definition sixths_idx : ndarray Z := NdArray [3; 1; 1] [1; 2; 3]%Z.
Definition sixths_cnt : ndarray Z := NdArray [3; 1; 1] [3; 2; 1]%Z.
Definition sixths : GridPolyConv :=
  {| class_name := "GridPolyConv";
     poly_idx := [KInt 10; KInt 20; KInt 30];
     idx_ar := sixths_idx;
     ar_count := Some sixths_cnt;
     weight := Some (NdArray [3; 1; 1] (weight_of 3 1 [3; 2; 1]%Z));
     mask := NdArray [1; 1] [false] |}.

(** One cell in five levels with counts 8, 7, 4, 4 and 2. *)
Definition fifths_idx : ndarray Z := NdArray [5; 1; 1] [1; 2; 3; 4; 5]%Z.
Definition fifths_cnt : ndarray Z := NdArray [5; 1; 1] [8; 7; 4; 4; 2]%Z.

(** One cell in two levels with a count of 2^62 each. *)
Definition huge_idx : ndarray Z := NdArray [2; 1; 1] [1; 2]%Z.
Definition huge_cnt : ndarray Z :=
  NdArray [2; 1; 1] [4611686018427387904; 4611686018427387904]%Z.

(** Two polygons over two cells and two levels: each cell is three quarters
    one polygon and one quarter the other, so both polygons cover one
    cell's worth of area, while the first level holds three quarters of
    every cell. *)
Definition crossed : GridPolyConv :=
  {| class_name := "GridPolyConv";
     poly_idx := [KInt 10; KInt 20];
     idx_ar := NdArray [2; 1; 2] [1; 2; 2; 1]%Z;
     ar_count := Some (NdArray [2; 1; 2] [3; 3; 1; 1]%Z);
     weight := Some (NdArray [2; 1; 2] (weight_of 2 2 [3; 3; 1; 1]%Z));
     mask := NdArray [1; 2] [false; false] |}.

(** Two years of one January value per polygon. *)
Definition two_januaries : timeseries :=
  {| time := [(2000, 1); (2001, 1)]%Z;
     rows := [[1; 10]; [5; 1]]%Q |}.

Definition two_januaries3 : timeseries :=
  {| time := [(2000, 1); (2001, 1)]%Z;
     rows := [[1; 2; 3]; [4; 5; 6]]%Q |}.

(** Monthly values of two polygons over three water years. *)
Definition three_water_years : timeseries :=
  {| time := [(2000, 7); (2000, 12); (2001, 3); (2001, 8); (2002, 1);
              (2002, 6); (2002, 9)]%Z;
     rows := [[1; 1]; [2; 2]; [3; 3]; [0; 1]; [1; 0]; [2; 2]; [9; 9]]%Q |}.

(** The water years from July to June, for the minimum and the maximum. *)
Definition water_years : time_spec :=
  {| time_window := Some "Jul-Jun";
     time_stats_l := ["min"; "max"];
     start_month := 7;
     end_month := 6 |}.

(** The same object as an instance of a class defined inside a function. *)
Definition local_plain : GridPolyConv :=
  {| class_name := "LocalConv";
     poly_idx := [KInt 10; KInt 20];
     idx_ar := NdArray [1; 2] [1; 2]%Z;
     ar_count := None;
     weight := None;
     mask := NdArray [1; 2] [false; false] |}.

(** An object without polygons. *)
Definition keyless : GridPolyConv :=
  {| class_name := "GridPolyConv";
     poly_idx := [];
     idx_ar := NdArray [1; 2] [0; 0]%Z;
     ar_count := None;
     weight := None;
     mask := NdArray [1; 2] [true; true] |}.

(** A world with one writable, empty directory. *)
Definition world0 : world :=
  {| fs := {[ "." := MkDir [] true ]};
     importable := {[ "GridPolyConv" ]};
     local_classes := ∅;
     no_space := ∅ |}.

(** A stand-in for md5: every text has the same digest. *)
Definition fixed_md5 (text : string) : string :=
  "0123abcd4567ef890123abcd4567ef89".

(** A request for two polygons on a grid of one row and two columns, the
    vector file being in the directory [data]. *)
Definition request_of (cls : string) (grid_cache_dir : option string)
    (caching : Z) : request :=
  {| cls := cls; vector_dir := "data"; caching := caching;
     grid_cache_dir := grid_cache_dir;
     grid_str := "<Grid: resolution=1.0, shape=(1, 2), top_left=(0.0, 1.0) />";
     poly_idx_str := "[10, 20]"; refine_str := "1";
     geoms_idxs_str := "[({'type': 'Polygon'}, 1), ({'type': 'Polygon'}, 2)]";
     built := (PList [KInt 10; KInt 20],
               PIntArray (NdArray [1; 2] [1; 2]%Z), PNone) |}.

(** Both the directory of the vector file and the current directory are
    writable and empty; [classes] are the classes pickle finds. *)
Definition world_rw (classes : gset string) : world :=
  {| fs := {[ "data" := MkDir [] true; "." := MkDir [] true ]};
     importable := classes;
     local_classes := ∅;
     no_space := ∅ |}.

(** As [world_rw], with a class defined inside a function. *)
Definition world_local : world :=
  {| fs := {[ "data" := MkDir [] true; "." := MkDir [] true ]};
     importable := {[ "GridPolyConv" ]};
     local_classes := {[ "LocalConv" ]};
     no_space := ∅ |}.

(** As [world_rw], the directory of the vector file being on a device
    without room. *)
Definition world_full : world :=
  {| fs := {[ "data" := MkDir [] true; "." := MkDir [] true ]};
     importable := {[ "GridPolyConv" ]};
     local_classes := ∅;
     no_space := {[ "data" ]} |}.

(** As [world_rw], with an override directory in which nothing can be
    created. *)
Definition world_override : world :=
  {| fs := {[ "cache" := MkDir [] false;
              "data" := MkDir [] true; "." := MkDir [] true ]};
     importable := {[ "GridPolyConv" ]};
     local_classes := ∅;
     no_space := ∅ |}.

(** The directory of the vector file is read-only and holds a cache file
    that does not unpickle. *)
Definition world_corrupt_ro : world :=
  {| fs := {[ "data" := MkDir [("c0123abcd.gpc", File Garbage)] false;
              "." := MkDir [] true ]};
     importable := {[ "GridPolyConv" ]};
     local_classes := ∅;
     no_space := ∅ |}.

(** The same cache file in a writable directory. *)
Definition world_corrupt_rw : world :=
  {| fs := {[ "data" := MkDir [("c0123abcd.gpc", File Garbage)] true;
              "." := MkDir [] true ]};
     importable := {[ "GridPolyConv" ]};
     local_classes := ∅;
     no_space := ∅ |}.

(** A directory with a cache file written at caching level 2. *)
Definition world_strict : world :=
  {| fs := {[ "data" := MkDir [("notes.txt", File Garbage);
                               ("c0123abcd0123abcd.gpc",
                                File (Pickled "GridPolyConv" (__getstate__ plain)))]
                          true ]};
     importable := {[ "GridPolyConv" ]};
     local_classes := ∅;
     no_space := ∅ |}.

End Samples.

(** * Properties *)

(** ** Lists, sums and arrays *)

Section array_facts.

Lemma nth_map_seq {T} (f : nat → T) (n i : nat) (d : T) :
  i < n → nth i (map f (seq 0 n)) d = f i.
Proof.
  intros Hi. rewrite (nth_indep _ d (f 0%nat)) by (rewrite length_map, length_seq; lia).
  rewrite (map_nth f (seq 0 n) 0%nat i), seq_nth by lia. reflexivity.
Qed.

Lemma length_broadcast_levels {T} (L : nat) (xs : list T) :
  length (broadcast_levels L xs) = (L * length xs)%nat.
Proof.
  unfold broadcast_levels. induction L as [|L IH]; simpl; [reflexivity|].
  rewrite length_app, IH. reflexivity.
Qed.

Lemma nth_broadcast_levels {T} (L : nat) (xs : list T) (l i : nat) (d : T) :
  l < L → i < length xs →
  nth (l * length xs + i) (broadcast_levels L xs) d = nth i xs d.
Proof.
  unfold broadcast_levels. revert l. induction L as [|L IH]; intros l Hl Hi; [lia|].
  simpl. destruct l as [|l].
  - simpl. apply app_nth1. exact Hi.
  - rewrite app_nth2 by (simpl; lia).
    replace (S l * length xs + i - length xs)%nat with (l * length xs + i)%nat
      by (simpl; lia).
    apply IH; lia.
Qed.

Lemma nth_zip_with {A B C} (f : A → B → C) (xs : list A) (ys : list B)
    (k : nat) (da : A) (db : B) (dc : C) :
  k < length xs → k < length ys →
  nth k (zip_with f xs ys) dc = f (nth k xs da) (nth k ys db).
Proof.
  revert ys k. induction xs as [|x xs IH]; intros [|y ys] k Hx Hy; simpl in *; try lia.
  destruct k as [|k]; [reflexivity|]. apply IH; lia.
Qed.

Lemma length_sum_axis0_Z (L n : nat) (xs : list Z) :
  length (sum_axis0_Z L n xs) = n.
Proof. unfold sum_axis0_Z. rewrite length_map, length_seq. reflexivity. Qed.

Lemma length_sum_axis0_Q (L n : nat) (xs : list Q) :
  length (sum_axis0_Q L n xs) = n.
Proof. unfold sum_axis0_Q. rewrite length_map, length_seq. reflexivity. Qed.

Lemma nth_sum_axis0_Z (L n : nat) (xs : list Z) (i : nat) :
  i < n →
  nth i (sum_axis0_Z L n xs) 0%Z
  = wrap64 (Zsum (map (fun l => at_level 0%Z n xs l i) (seq 0 L))).
Proof. intros Hi. unfold sum_axis0_Z. rewrite nth_map_seq by exact Hi. reflexivity. Qed.

Lemma nth_sum_axis0_Q (L n : nat) (xs : list Q) (i : nat) :
  i < n →
  nth i (sum_axis0_Q L n xs) 0%Q
  = fsum (map (fun l => at_level 0%Q n xs l i) (seq 0 L)).
Proof. intros Hi. unfold sum_axis0_Q. rewrite nth_map_seq by exact Hi. reflexivity. Qed.

(** Assigning through a mask the values computed from the selected
    elements is the elementwise conditional. *)
Lemma nth_put_mask_select {A B T} (f : A → B → T) (m : list bool)
    (a : list T) (xs : list A) (ys : list B) (k : nat)
    (da : A) (db : B) (d : T) :
  length a = length m → length xs = length m → length ys = length m →
  k < length m →
  nth k (put_mask m a (zip_with f (select m xs) (select m ys))) d
  = if nth k m false then f (nth k xs da) (nth k ys db) else nth k a d.
Proof.
  revert a xs ys k.
  induction m as [|b m IH]; intros [|t a] [|x xs] [|y ys] k Ha Hx Hy Hk;
    simpl in *; try lia.
  destruct b; simpl.
  - destruct k as [|k]; [reflexivity|]. apply IH; lia.
  - destruct k as [|k]; [reflexivity|]. apply IH; lia.
Qed.

End array_facts.

(** ** Rounding to float64 *)

Section pow2_facts.
Local Open Scope Q_scope.

Lemma pow2_pos (k : Z) : 0 < pow2 k.
Proof. apply Qpower_0_lt. reflexivity. Qed.

Lemma pow2_plus (a b : Z) : pow2 (a + b) == pow2 a * pow2 b.
Proof. apply Qpower_plus. discriminate. Qed.

Lemma pow2_minus (a b : Z) : pow2 (a - b) == pow2 a / pow2 b.
Proof. apply Qpower_minus. discriminate. Qed.

Lemma pow2_le (a b : Z) : (a <= b)%Z → pow2 a <= pow2 b.
Proof. intros H. apply Qpower_le_compat_l; [exact H|discriminate]. Qed.

Lemma pow2_lt (a b : Z) : (a < b)%Z → pow2 a < pow2 b.
Proof. intros H. apply Qpower_lt_compat_l; [exact H|reflexivity]. Qed.

Lemma pow2_lt_inv (a b : Z) : pow2 a < pow2 b → (a < b)%Z.
Proof. intros H. apply (Qpower_lt_compat_l_inv 2); [exact H|reflexivity]. Qed.

Lemma pow2_inject (k : Z) : (0 <= k)%Z → inject_Z (2 ^ k) == pow2 k.
Proof. intros H. apply (Zpower_Qpower 2 k H). Qed.

End pow2_facts.

Section log2_facts.
Local Open Scope Q_scope.

Lemma Qnum_pos (x : Q) : 0 < x ↔ (0 < Qnum x)%Z.
Proof. unfold Qlt. simpl. lia. Qed.

Lemma int_bounds (n : Z) :
  (0 < n)%Z → pow2 (Z.log2 n) <= inject_Z n ∧ inject_Z n < pow2 (Z.log2 n + 1).
Proof.
  intros Hn. destruct (Z.log2_spec n Hn) as [H1 H2].
  pose proof (Z.log2_nonneg n) as H0.
  split.
  - rewrite <- pow2_inject by exact H0. rewrite <- Zle_Qle. exact H1.
  - rewrite <- pow2_inject by lia. rewrite <- Zlt_Qlt.
    replace (Z.log2 n + 1)%Z with (Z.succ (Z.log2 n)) by lia. exact H2.
Qed.

(** [floor_log2 x] is the exponent of the binade of [x]. *)
Lemma floor_log2_spec (x : Q) :
  0 < x → pow2 (floor_log2 x) <= x ∧ x < pow2 (floor_log2 x + 1).
Proof.
  intros Hx. unfold floor_log2.
  destruct x as [n d]. cbn [Qnum Qden].
  assert (Hn : (0 < n)%Z) by (apply Qnum_pos in Hx; exact Hx).
  destruct (int_bounds n Hn) as [A1 A2].
  destruct (int_bounds (Zpos d) eq_refl) as [B1 B2].
  set (a := Z.log2 n) in *. set (b := Z.log2 (Z.pos d)) in *.
  assert (E : n # d == inject_Z n / inject_Z (Z.pos d)) by apply Qmake_Qdiv.
  assert (HD : 0 < inject_Z (Z.pos d)) by reflexivity.
  assert (U : n # d < pow2 (a - b + 1)).
  { rewrite E. apply Qlt_shift_div_r; [exact HD|].
    assert (P : pow2 (a + 1) == pow2 (a - b + 1) * pow2 b)
      by (rewrite <- pow2_plus; f_equiv; lia).
    pose proof (pow2_pos (a - b + 1)). pose proof (pow2_pos b).
    rewrite P in A2. nra. }
  assert (L : pow2 (a - b - 1) < n # d).
  { rewrite E. apply Qlt_shift_div_l; [exact HD|].
    assert (P : pow2 a == pow2 (a - b - 1) * pow2 (b + 1))
      by (rewrite <- pow2_plus; f_equiv; lia).
    pose proof (pow2_pos (a - b - 1)). pose proof (pow2_pos (b + 1)).
    rewrite P in A1. nra. }
  destruct (Qle_bool (pow2 (a - b)) (n # d)) eqn:Hb.
  - apply Qle_bool_iff in Hb. split; [exact Hb|exact U].
  - assert (Hlt : n # d < pow2 (a - b)).
    { apply Qnot_le_lt. intros H. apply Qle_bool_iff in H. congruence. }
    split; [apply Qlt_le_weak; exact L|].
    replace (a - b - 1 + 1)%Z with (a - b)%Z by lia. exact Hlt.
Qed.

Lemma floor_log2_unique (x : Q) (k : Z) :
  pow2 k <= x → x < pow2 (k + 1) → floor_log2 x = k.
Proof.
  intros H1 H2.
  assert (Hx : 0 < x) by (pose proof (pow2_pos k); lra).
  destruct (floor_log2_spec x Hx) as [S1 S2].
  assert (k < floor_log2 x + 1)%Z by (apply pow2_lt_inv; lra).
  assert (floor_log2 x < k + 1)%Z by (apply pow2_lt_inv; lra).
  lia.
Qed.

Lemma floor_log2_mono (x y : Q) :
  0 < x → x <= y → (floor_log2 x <= floor_log2 y)%Z.
Proof.
  intros Hx Hxy.
  destruct (floor_log2_spec x Hx) as [S1 _].
  destruct (floor_log2_spec y) as [_ T2]; [lra|].
  assert (floor_log2 x < floor_log2 y + 1)%Z by (apply pow2_lt_inv; lra).
  lia.
Qed.

Lemma floor_log2_comp (x y : Q) :
  0 < x → x == y → floor_log2 x = floor_log2 y.
Proof.
  intros Hx E. destruct (floor_log2_spec x Hx) as [S1 S2].
  symmetry. apply floor_log2_unique; rewrite <- E; assumption.
Qed.

End log2_facts.

Section nearest_facts.
Local Open Scope Q_scope.

Lemma floor_bounds (x : Q) :
  inject_Z (Qfloor x) <= x ∧ x < inject_Z (Qfloor x) + 1.
Proof.
  split; [apply Qfloor_le|].
  pose proof (Qlt_floor x) as H. rewrite inject_Z_plus in H. exact H.
Qed.

Lemma inject_Z_succ (z : Z) : inject_Z (z + 1) == inject_Z z + 1.
Proof. rewrite inject_Z_plus. reflexivity. Qed.

Lemma round_half_even_floor (x : Q) :
  round_half_even x = Qfloor x ∨ round_half_even x = (Qfloor x + 1)%Z.
Proof.
  unfold round_half_even.
  destruct (Qcompare _ _); [destruct (Z.even _)| |]; auto.
Qed.

(** The nearest integer is within one half. *)
Lemma round_half_even_near (x : Q) :
  - (1 # 2) <= inject_Z (round_half_even x) - x
  ∧ inject_Z (round_half_even x) - x <= 1 # 2.
Proof.
  destruct (floor_bounds x) as [F1 F2]. unfold round_half_even.
  destruct (Qcompare (x - inject_Z (Qfloor x)) (1 # 2)) eqn:C.
  - rewrite <- Qeq_alt in C.
    destruct (Z.even _); [|rewrite inject_Z_succ]; split; lra.
  - rewrite <- Qlt_alt in C. split; lra.
  - rewrite <- Qgt_alt in C. rewrite inject_Z_succ. split; lra.
Qed.

Lemma round_half_even_mono (x y : Q) :
  x <= y → (round_half_even x <= round_half_even y)%Z.
Proof.
  intros Hxy. pose proof (Qfloor_resp_le x y Hxy) as Hf.
  destruct (Z.eq_dec (Qfloor x) (Qfloor y)) as [E|Hne].
  - unfold round_half_even. rewrite <- E.
    destruct (Qcompare (x - inject_Z (Qfloor x)) (1 # 2)) eqn:Cx;
      destruct (Qcompare (y - inject_Z (Qfloor x)) (1 # 2)) eqn:Cy;
      try rewrite <- Qeq_alt in Cx; try rewrite <- Qlt_alt in Cx;
      try rewrite <- Qgt_alt in Cx; try rewrite <- Qeq_alt in Cy;
      try rewrite <- Qlt_alt in Cy; try rewrite <- Qgt_alt in Cy;
      destruct (Z.even (Qfloor x)); try lia; exfalso; lra.
  - destruct (round_half_even_floor x) as [-> | ->];
      destruct (round_half_even_floor y) as [-> | ->]; lia.
Qed.

Lemma round_half_even_Z (z : Z) : round_half_even (inject_Z z) = z.
Proof.
  unfold round_half_even. rewrite Qfloor_Z.
  assert (C : Qcompare (inject_Z z - inject_Z z) (1 # 2) = Lt)
    by (rewrite <- Qlt_alt; lra).
  rewrite C. reflexivity.
Qed.

Lemma round_half_even_comp (x y : Q) :
  x == y → round_half_even x = round_half_even y.
Proof.
  intros E. unfold round_half_even.
  rewrite (Qfloor_comp x y E).
  assert (C : Qcompare (x - inject_Z (Qfloor y)) (1 # 2)
              = Qcompare (y - inject_Z (Qfloor y)) (1 # 2))
    by (apply Qcompare_comp; [rewrite E|]; reflexivity).
  rewrite C. reflexivity.
Qed.

End nearest_facts.

Section round64_facts.
Local Open Scope Q_scope.

Lemma ulp_exponent_mono (x y : Q) :
  0 < x → x <= y → (ulp_exponent x <= ulp_exponent y)%Z.
Proof.
  intros Hx Hxy. unfold ulp_exponent.
  pose proof (floor_log2_mono x y Hx Hxy). lia.
Qed.

(** The significand has at most 53 bits, and exactly 53 for a normal
    number. *)
Lemma scaled_lt (x : Q) : 0 < x → x / pow2 (ulp_exponent x) < pow2 53.
Proof.
  intros Hx. destruct (floor_log2_spec x Hx) as [_ S2].
  apply Qlt_shift_div_r; [apply pow2_pos|].
  rewrite <- pow2_plus.
  apply Qlt_le_trans with (pow2 (floor_log2 x + 1)); [exact S2|].
  apply pow2_le. unfold ulp_exponent. lia.
Qed.

Lemma scaled_ge (x : Q) :
  0 < x → ulp_exponent x = (floor_log2 x - 52)%Z →
  pow2 52 <= x / pow2 (ulp_exponent x).
Proof.
  intros Hx He. destruct (floor_log2_spec x Hx) as [S1 _].
  apply Qle_shift_div_l; [apply pow2_pos|].
  rewrite <- pow2_plus, He.
  replace (52 + (floor_log2 x - 52))%Z with (floor_log2 x) by lia. exact S1.
Qed.

Lemma round_pos_upper (x : Q) :
  0 < x → round_pos x <= pow2 (ulp_exponent x + 53).
Proof.
  intros Hx. unfold round_pos. cbv zeta.
  set (e := ulp_exponent x).
  assert (H : (round_half_even (x / pow2 e) <= 2 ^ 53)%Z).
  { rewrite <- (round_half_even_Z (2 ^ 53)). apply round_half_even_mono.
    rewrite pow2_inject by lia. apply Qlt_le_weak, scaled_lt. exact Hx. }
  rewrite Zle_Qle, pow2_inject in H by lia.
  rewrite Z.add_comm, pow2_plus.
  apply Qmult_le_compat_r; [exact H|apply Qlt_le_weak, pow2_pos].
Qed.

Lemma round_pos_lower (x : Q) :
  0 < x → ulp_exponent x = (floor_log2 x - 52)%Z →
  pow2 (floor_log2 x) <= round_pos x.
Proof.
  intros Hx He. unfold round_pos. cbv zeta.
  assert (H : (2 ^ 52 <= round_half_even (x / pow2 (ulp_exponent x)))%Z).
  { rewrite <- (round_half_even_Z (2 ^ 52)). apply round_half_even_mono.
    rewrite pow2_inject by lia. apply scaled_ge; assumption. }
  rewrite Zle_Qle, pow2_inject in H by lia.
  replace (floor_log2 x) with (52 + ulp_exponent x)%Z at 1 by lia.
  rewrite pow2_plus.
  apply Qmult_le_compat_r; [exact H|apply Qlt_le_weak, pow2_pos].
Qed.

Lemma round_pos_nonneg (x : Q) : 0 < x → 0 <= round_pos x.
Proof.
  intros Hx. unfold round_pos. cbv zeta.
  assert (H : (0 <= round_half_even (x / pow2 (ulp_exponent x)))%Z).
  { rewrite <- (round_half_even_Z 0). apply round_half_even_mono.
    apply Qle_shift_div_l; [apply pow2_pos|].
    change (inject_Z 0) with 0. lra. }
  rewrite Zle_Qle in H.
  apply Qmult_le_0_compat; [exact H|apply Qlt_le_weak, pow2_pos].
Qed.

Lemma round_pos_mono (x y : Q) :
  0 < x → x <= y → round_pos x <= round_pos y.
Proof.
  intros Hx Hxy. assert (Hy : 0 < y) by lra.
  pose proof (ulp_exponent_mono x y Hx Hxy) as He.
  destruct (Z.eq_dec (ulp_exponent x) (ulp_exponent y)) as [E|Hne].
  - unfold round_pos. cbv zeta. rewrite E.
    apply Qmult_le_compat_r; [|apply Qlt_le_weak, pow2_pos].
    rewrite <- Zle_Qle. apply round_half_even_mono.
    apply Qmult_le_compat_r; [exact Hxy|].
    apply Qlt_le_weak, Qinv_lt_0_compat, pow2_pos.
  - assert (Hy52 : ulp_exponent y = (floor_log2 y - 52)%Z).
    { unfold ulp_exponent in *. lia. }
    apply Qle_trans with (pow2 (ulp_exponent x + 53));
      [apply round_pos_upper; exact Hx|].
    apply Qle_trans with (pow2 (floor_log2 y));
      [|apply round_pos_lower; assumption].
    apply pow2_le. lia.
Qed.

Lemma round_pos_comp (x y : Q) :
  0 < x → x == y → round_pos x == round_pos y.
Proof.
  intros Hx E. unfold round_pos, ulp_exponent. cbv zeta.
  rewrite (floor_log2_comp x y Hx E).
  rewrite (round_half_even_comp (x / pow2 (Z.max (floor_log2 y - 52) (-1074)))
             (y / pow2 (Z.max (floor_log2 y - 52) (-1074))))
    by (rewrite E; reflexivity).
  reflexivity.
Qed.

Lemma round64_pos (x : Q) : 0 < x → round64 x == round_pos x.
Proof.
  intros Hx. apply Qnum_pos in Hx. unfold round64.
  destruct (Qnum x); try lia. apply Qred_correct.
Qed.

Lemma round64_neg (x : Q) : x < 0 → round64 x == - round_pos (- x).
Proof.
  intros Hx. assert (Hn : (Qnum x < 0)%Z) by (unfold Qlt in Hx; simpl in Hx; lia).
  unfold round64. destruct (Qnum x); try lia. apply Qred_correct.
Qed.

Lemma round64_zero (x : Q) : x == 0 → round64 x = 0.
Proof.
  intros Hx. assert (Hn : Qnum x = 0%Z) by (unfold Qeq in Hx; simpl in Hx; lia).
  unfold round64. rewrite Hn. reflexivity.
Qed.

(** Rounding does not depend on how the rational is written. *)
Lemma round64_comp (x y : Q) : x == y → round64 x = round64 y.
Proof.
  intros E.
  destruct (Q_dec x 0) as [[Hlt|Hgt]|Hz].
  - assert (Hy : y < 0) by lra.
    assert (Hnx : (Qnum x < 0)%Z) by (unfold Qlt in Hlt; simpl in Hlt; lia).
    assert (Hny : (Qnum y < 0)%Z) by (unfold Qlt in Hy; simpl in Hy; lia).
    unfold round64. destruct (Qnum x); try lia. destruct (Qnum y); try lia.
    apply Qred_complete. apply Qopp_comp. apply round_pos_comp; lra.
  - assert (Hy : 0 < y) by lra.
    pose proof (proj1 (Qnum_pos x) Hgt). pose proof (proj1 (Qnum_pos y) Hy).
    unfold round64. destruct (Qnum x); try lia. destruct (Qnum y); try lia.
    apply Qred_complete. apply round_pos_comp; assumption.
  - rewrite (round64_zero x Hz). symmetry. apply round64_zero. lra.
Qed.

(** Rounding to nearest is monotone. *)
Lemma round64_mono (x y : Q) : x <= y → round64 x <= round64 y.
Proof.
  intros Hxy.
  destruct (Q_dec x 0) as [[Hx|Hx]|Hx]; destruct (Q_dec y 0) as [[Hy|Hy]|Hy];
    try (exfalso; lra).
  - rewrite (round64_neg x Hx), (round64_neg y Hy).
    apply Qopp_le_compat. apply round_pos_mono; lra.
  - rewrite (round64_neg x Hx), (round64_pos y Hy).
    pose proof (round_pos_nonneg (- x)). pose proof (round_pos_nonneg y). lra.
  - rewrite (round64_neg x Hx), (round64_zero y Hy).
    pose proof (round_pos_nonneg (- x)). lra.
  - rewrite (round64_pos x Hx), (round64_pos y Hy).
    apply round_pos_mono; assumption.
  - rewrite (round64_zero x Hx), (round64_pos y Hy).
    apply round_pos_nonneg. exact Hy.
  - rewrite (round64_zero x Hx), (round64_zero y Hy). lra.
Qed.

Lemma round64_opp (x : Q) : round64 (- x) == - round64 x.
Proof.
  destruct (Q_dec x 0) as [[Hx|Hx]|Hx].
  - rewrite (round64_neg x Hx), (round64_pos (- x)) by lra. lra.
  - rewrite (round64_pos x Hx), (round64_neg (- x)) by lra.
    rewrite (round_pos_comp (- - x) x) by lra. reflexivity.
  - rewrite (round64_zero x Hx), (round64_zero (- x)) by lra. reflexivity.
Qed.

(** The relative error of rounding a number in the normal range. *)
Lemma round_pos_error (x : Q) :
  pow2 (-1022) <= x →
  Qabs (round_pos x - x) <= pow2 (-53) * x.
Proof.
  intros Hn. assert (Hx : 0 < x) by (pose proof (pow2_pos (-1022)); lra).
  destruct (floor_log2_spec x Hx) as [S1 S2].
  assert (Hfl : (-1022 <= floor_log2 x)%Z).
  { assert (-1022 < floor_log2 x + 1)%Z by (apply pow2_lt_inv; lra). lia. }
  assert (He : ulp_exponent x = (floor_log2 x - 52)%Z)
    by (unfold ulp_exponent; lia).
  unfold round_pos. cbv zeta. set (e := ulp_exponent x) in *.
  destruct (round_half_even_near (x / pow2 e)) as [N1 N2].
  set (m := inject_Z (round_half_even (x / pow2 e))) in *.
  set (s := x / pow2 e) in *.
  pose proof (pow2_pos e) as Pe.
  assert (Ex : x == s * pow2 e) by (unfold s; field; lra).
  assert (Hhalf : pow2 e * (1 # 2) <= pow2 (-53) * x).
  { assert (P : pow2 (floor_log2 x) == pow2 e * pow2 52)
      by (rewrite <- pow2_plus; f_equiv; lia).
    assert (P53 : pow2 (-53) * pow2 52 == 1 # 2) by reflexivity.
    pose proof (pow2_pos (-53)). pose proof (pow2_pos 52).
    rewrite P in S1. nra. }
  assert (A1 : - (1 # 2) * pow2 e <= (m - s) * pow2 e)
    by (apply Qmult_le_compat_r; lra).
  assert (A2 : (m - s) * pow2 e <= (1 # 2) * pow2 e)
    by (apply Qmult_le_compat_r; lra).
  apply Qabs_Qle_condition. split; nra.
Qed.

Lemma round64_error (x : Q) :
  pow2 (-1022) <= Qabs x →
  Qabs (round64 x - x) <= pow2 (-53) * Qabs x.
Proof.
  intros Hn. pose proof (pow2_pos (-1022)) as P.
  destruct (Q_dec x 0) as [[Hx|Hx]|Hx].
  - rewrite (Qabs_neg x) in * by lra.
    rewrite (round64_neg x Hx).
    pose proof (round_pos_error (- x) Hn) as H.
    rewrite <- Qabs_opp.
    assert (E : - (- round_pos (- x) - x) == round_pos (- x) - - x) by ring.
    rewrite E. exact H.
  - rewrite (Qabs_pos x) in * by lra.
    rewrite (round64_pos x Hx). apply round_pos_error. exact Hn.
  - rewrite Hx in Hn. change (Qabs 0) with 0 in Hn. lra.
Qed.

End round64_facts.

Section exact_facts.
Local Open Scope Q_scope.

(** A multiple of the unit in the last place is a float. *)
Lemma round_pos_exact (x : Q) (m e : Z) :
  0 < x → x == inject_Z m * pow2 e → (ulp_exponent x <= e)%Z →
  round_pos x == x.
Proof.
  intros Hx E He. unfold round_pos. cbv zeta.
  set (u := ulp_exponent x) in *.
  assert (Hs : x / pow2 u == inject_Z (m * 2 ^ (e - u))).
  { rewrite inject_Z_mult, pow2_inject by lia. rewrite pow2_minus, E.
    pose proof (pow2_pos u). field. lra. }
  rewrite (round_half_even_comp _ _ Hs), round_half_even_Z, <- Hs.
  pose proof (pow2_pos u). field. lra.
Qed.

Lemma floor_log2_bounds (x : Q) (a b : Z) :
  pow2 a <= x → x < pow2 b → (a <= floor_log2 x < b)%Z.
Proof.
  intros Ha Hb. assert (Hx : 0 < x) by (pose proof (pow2_pos a); lra).
  destruct (floor_log2_spec x Hx) as [S1 S2].
  assert (a < floor_log2 x + 1)%Z by (apply pow2_lt_inv; lra).
  assert (floor_log2 x < b)%Z by (apply pow2_lt_inv; lra). lia.
Qed.

(** The integers up to 2^53 are floats. *)
Lemma of_int_exact (z : Z) : (0 <= z <= 2 ^ 53)%Z → of_int z == inject_Z z.
Proof.
  intros Hz. unfold of_int.
  destruct (Z.eq_dec z 0%Z) as [->|Hne]; [reflexivity|].
  destruct (Z.eq_dec z (2 ^ 53)%Z) as [->|Hne53]; [vm_compute; reflexivity|].
  assert (Hx : 0 < inject_Z z) by (rewrite <- (Zlt_Qlt 0%Z); lia).
  rewrite round64_pos by exact Hx.
  apply (round_pos_exact _ z 0); [exact Hx|change (pow2 0) with 1; ring|].
  assert (H1 : pow2 0 <= inject_Z z)
    by (change (pow2 0) with (inject_Z 1); rewrite <- Zle_Qle; lia).
  assert (H2 : inject_Z z < pow2 53)
    by (rewrite <- pow2_inject by lia; rewrite <- Zlt_Qlt; lia).
  pose proof (floor_log2_bounds _ _ _ H1 H2). unfold ulp_exponent. lia.
Qed.

Lemma of_int_mono (a b : Z) : (a <= b)%Z → of_int a <= of_int b.
Proof. intros H. apply round64_mono. rewrite <- Zle_Qle. exact H. Qed.

Lemma round64_0 : round64 0 = 0.
Proof. reflexivity. Qed.

Lemma round64_1 : round64 1 = 1.
Proof. vm_compute. reflexivity. Qed.

Lemma round64_nonneg (x : Q) : 0 <= x → 0 <= round64 x.
Proof. intros H. rewrite <- round64_0. apply round64_mono. exact H. Qed.

Lemma round64_le_1 (x : Q) : x <= 1 → round64 x <= 1.
Proof. intros H. rewrite <- round64_1. apply round64_mono. exact H. Qed.

End exact_facts.

Section sum_facts.
Local Open Scope Q_scope.

Let ratio (t c : Z) : Q := inject_Z c / inject_Z t.
Let quotient (t c : Z) : Q := fdiv (of_int c) (of_int t).

Lemma unit_roundoff_val : unit_roundoff == 1 # 9007199254740992.
Proof. vm_compute. reflexivity. Qed.

Lemma round64_unit : round64 unit_roundoff == unit_roundoff.
Proof. vm_compute. reflexivity. Qed.

Lemma Zsum_nonneg (cs : list Z) : Forall (fun c => (0 <= c)%Z) cs → (0 <= Zsum cs)%Z.
Proof. induction 1; simpl; lia. Qed.

Lemma ratio_bounds (t c : Z) :
  (0 <= c <= t)%Z → (0 < t)%Z → 0 <= ratio t c ∧ ratio t c <= 1.
Proof.
  intros Hc Ht. unfold ratio.
  assert (H1 : 0 < inject_Z t) by (rewrite <- (Zlt_Qlt 0%Z); lia).
  assert (H2 : 0 <= inject_Z c) by (rewrite <- (Zle_Qle 0%Z); lia).
  assert (H3 : inject_Z c <= inject_Z t) by (rewrite <- Zle_Qle; lia).
  split.
  - apply Qle_shift_div_l; [exact H1|lra].
  - apply Qle_shift_div_r; [exact H1|lra].
Qed.

Lemma ratio_ge_unit (t c : Z) :
  (1 <= c)%Z → (0 < t <= 2 ^ 53)%Z → unit_roundoff <= ratio t c.
Proof.
  intros Hc Ht. unfold ratio.
  assert (H1 : 0 < inject_Z t) by (rewrite <- (Zlt_Qlt 0%Z); lia).
  assert (H2 : 1 <= inject_Z c) by (rewrite <- (Zle_Qle 1%Z); lia).
  assert (H3 : inject_Z t <= inject_Z (2 ^ 53)) by (rewrite <- Zle_Qle; lia).
  apply Qle_shift_div_l; [exact H1|].
  rewrite unit_roundoff_val.
  change (inject_Z (2 ^ 53)) with (9007199254740992 # 1) in H3. lra.
Qed.

Lemma quotient_ratio (t c : Z) :
  (0 <= c <= t)%Z → (0 < t <= 2 ^ 53)%Z → quotient t c = round64 (ratio t c).
Proof.
  intros Hc Ht. unfold quotient, fdiv, ratio. apply round64_comp.
  rewrite !of_int_exact by lia. reflexivity.
Qed.

Lemma pow2_small : pow2 (-1022) <= unit_roundoff.
Proof. apply pow2_le. lia. Qed.

(** The error of one rounding, for a number that is 0 or at least 2^-53. *)
Lemma round64_step (x : Q) :
  x == 0 ∨ unit_roundoff <= x →
  0 <= round64 x ∧ (round64 x == 0 ∨ unit_roundoff <= round64 x)
  ∧ - (unit_roundoff * x) <= round64 x - x ∧ round64 x - x <= unit_roundoff * x.
Proof.
  intros [E|H].
  - rewrite (round64_zero x E). split; [lra|]. split; [left; reflexivity|].
    rewrite E. lra.
  - assert (Hu : 0 < unit_roundoff) by apply pow2_pos.
    assert (Hx : 0 < x) by lra.
    split; [apply round64_nonneg; lra|]. split.
    + right. rewrite <- round64_unit. apply round64_mono. exact H.
    + pose proof pow2_small as Hs.
      assert (Ha : Qabs x == x) by (apply Qabs_pos; lra).
      assert (He : Qabs (round64 x - x) <= pow2 (-53) * Qabs x).
      { apply round64_error. rewrite Ha. unfold unit_roundoff in *. lra. }
      rewrite Ha in He. apply Qabs_Qle_condition in He.
      unfold unit_roundoff. exact He.
Qed.

Lemma quotient_step (t c : Z) :
  (0 <= c <= t)%Z → (0 < t <= 2 ^ 53)%Z →
  0 <= quotient t c ∧ (quotient t c == 0 ∨ unit_roundoff <= quotient t c)
  ∧ - (unit_roundoff * ratio t c) <= quotient t c - ratio t c
  ∧ quotient t c - ratio t c <= unit_roundoff * ratio t c.
Proof.
  intros Hc Ht. rewrite quotient_ratio by assumption.
  apply round64_step.
  destruct (Z.eq_dec c 0%Z) as [->|Hne].
  - left. unfold ratio. change (inject_Z 0) with 0. unfold Qdiv. ring.
  - right. apply ratio_ge_unit; lia.
Qed.

(** The running sum stays within four units of roundoff per term. *)
Lemma running_sum (t : Z) (cs : list Z) (k : Z) (acc T : Q) :
  (0 < t <= 2 ^ 53)%Z → (0 <= k)%Z →
  Forall (fun c => (0 <= c)%Z) cs →
  0 <= T → T + ratio t (Zsum cs) <= 1 → (Zsum cs <= t)%Z →
  inject_Z (k + Z.of_nat (length cs)) * (4 * unit_roundoff) <= 1 →
  0 <= acc → (acc == 0 ∨ unit_roundoff <= acc) →
  - (inject_Z k * (4 * unit_roundoff)) <= acc - T →
  acc - T <= inject_Z k * (4 * unit_roundoff) →
  let s := fold_left fadd (map (quotient t) cs) acc in
  let B := inject_Z (k + Z.of_nat (length cs)) * (4 * unit_roundoff) in
  - B <= s - (T + ratio t (Zsum cs)) ∧ s - (T + ratio t (Zsum cs)) <= B.
Proof.
  intros Ht Hk Hcs. revert k acc T Hk.
  induction Hcs as [|c cs Hc Hcs IH]; intros k acc T Hk HT Hsum Hle Hsmall Hacc Hz Hlo Hhi.
  - simpl. change (Z.of_nat 0) with 0%Z. rewrite Z.add_0_r.
    assert (E : ratio t 0 == 0)
      by (unfold ratio; change (inject_Z 0) with 0; unfold Qdiv; ring).
    rewrite E. split; lra.
  - cbn [map fold_left length Zsum foldr] in *. fold (Zsum cs) in *.
    assert (Hu : 0 < unit_roundoff) by apply pow2_pos.
    pose proof (Zsum_nonneg cs Hcs) as Hs0.
    assert (Hct : (0 <= c <= t)%Z) by lia.
    destruct (quotient_step t c Hct Ht) as (Q0 & Qz & Qlo & Qhi).
    destruct (ratio_bounds t c Hct ltac:(lia)) as [R0 R1].
    destruct (ratio_bounds t (Zsum cs) ltac:(lia) ltac:(lia)) as [S0 S1].
    assert (Hsplit : ratio t (c + Zsum cs) == ratio t c + ratio t (Zsum cs)).
    { unfold ratio. rewrite inject_Z_plus. unfold Qdiv. ring. }
    rewrite Hsplit in *.
    assert (Hk1 : inject_Z (k + Z.of_nat (S (length cs)))
                  == inject_Z k + 1 + inject_Z (Z.of_nat (length cs))).
    { replace (k + Z.of_nat (S (length cs)))%Z
        with (k + 1 + Z.of_nat (length cs))%Z by lia.
      rewrite !inject_Z_plus. reflexivity. }
    assert (Hk2 : inject_Z (k + 1 + Z.of_nat (length cs))
                  == inject_Z k + 1 + inject_Z (Z.of_nat (length cs))).
    { rewrite !inject_Z_plus. reflexivity. }
    assert (Hk0 : 0 <= inject_Z k) by (rewrite <- (Zle_Qle 0%Z); lia).
    assert (Hn0 : 0 <= inject_Z (Z.of_nat (length cs)))
      by (rewrite <- (Zle_Qle 0%Z); lia).
    rewrite Hk1 in Hsmall.
    assert (Hv : acc + quotient t c == 0 ∨ unit_roundoff <= acc + quotient t c).
    { destruct Hz as [Ez|Hz]; [destruct Qz as [Eq|Hq]|]; [left; lra|right; lra|right; lra]. }
    destruct (round64_step _ Hv) as (V0 & Vz & Vlo & Vhi).
    fold (fadd acc (quotient t c)) in V0, Vz, Vlo, Vhi.
    set (acc' := fadd acc (quotient t c)) in *.
    assert (Hv3 : acc + quotient t c <= 3) by nra.
    assert (Hinj : inject_Z (k + 1) == inject_Z k + 1)
      by (rewrite inject_Z_plus; reflexivity).
    specialize (IH (k + 1)%Z acc' (T + ratio t c) ltac:(lia) ltac:(lra) ltac:(lra)
                   ltac:(lia) ltac:(rewrite Hk2; lra) V0 Vz
                   ltac:(rewrite Hinj; nra) ltac:(rewrite Hinj; nra)).
    cbv zeta in IH. rewrite Hk2 in IH. rewrite Hk1.
    destruct IH as [I1 I2]. split; lra.
Qed.

(** The weights of a cell add up to 1 within 2^-51 per level. *)
Lemma weights_sum_bound (cs : list Z) :
  Forall (fun c => (0 <= c)%Z) cs →
  (0 < Zsum cs <= 2 ^ 53)%Z → (Z.of_nat (length cs) <= 2 ^ 51)%Z →
  Qabs (fsum (map (quotient (Zsum cs)) cs) - 1)
  <= inject_Z (Z.of_nat (length cs)) * pow2 (-51).
Proof.
  intros Hcs Ht HL. set (t := Zsum cs) in *.
  destruct cs as [|c cs]; [subst t; simpl in Ht; lia|].
  inversion Hcs as [|? ? Hc Hcs']; subst.
  pose proof (Zsum_nonneg cs Hcs') as Hs0.
  assert (Hct : (0 <= c <= t)%Z) by (subst t; simpl; fold (Zsum cs); lia).
  destruct (quotient_step t c Hct Ht) as (Q0 & Qz & Qlo & Qhi).
  destruct (ratio_bounds t c Hct ltac:(lia)) as [R0 R1].
  assert (Hu : 0 < unit_roundoff) by apply pow2_pos.
  assert (H4 : 4 * unit_roundoff == pow2 (-51)) by (vm_compute; reflexivity).
  assert (Hone : ratio t c + ratio t (Zsum cs) == 1).
  { unfold ratio. unfold Qdiv. rewrite <- Qmult_plus_distr_l, <- inject_Z_plus.
    change (c + Zsum cs)%Z with t. apply Qmult_inv_r.
    intros E. assert (0 < inject_Z t) by (rewrite <- (Zlt_Qlt 0%Z); lia). lra. }
  assert (Hn : inject_Z (1 + Z.of_nat (length cs))
               == inject_Z (Z.of_nat (length (c :: cs)))).
  { apply inject_Z_injective. simpl length. lia. }
  assert (HL' : inject_Z (Z.of_nat (length (c :: cs))) * (4 * unit_roundoff) <= 1).
  { assert (inject_Z (Z.of_nat (length (c :: cs))) <= inject_Z (2 ^ 51))
      by (rewrite <- Zle_Qle; exact HL).
    rewrite unit_roundoff_val.
    change (inject_Z (2 ^ 51)) with (2251799813685248 # 1) in H. lra. }
  pose proof (running_sum t cs 1 (quotient t c) (ratio t c) Ht ltac:(lia) Hcs' R0
                ltac:(lra) ltac:(subst t; simpl; fold (Zsum cs); lia)
                ltac:(rewrite Hn; exact HL') Q0 Qz
                ltac:(change (inject_Z 1) with 1; nra)
                ltac:(change (inject_Z 1) with 1; nra)) as Hr.
  cbv zeta in Hr. rewrite Hn, Hone, H4 in Hr.
  apply Qabs_Qle_condition. simpl map. simpl fsum. exact Hr.
Qed.

End sum_facts.

(** ** The weights built by the constructor *)

Section weight_facts.

Variables (L n : nat) (cnt : list Z).
Hypothesis Hlen : length cnt = (L * n)%nat.

Let counts (i : nat) : list Z :=
  map (fun l => at_level 0%Z n cnt l i) (seq 0 L).

Let total (i : nat) : Z := wrap64 (Zsum (counts i)).

Lemma length_weight_of : length (weight_of L n cnt) = (L * n)%nat.
Proof using Hlen.
  unfold weight_of. destruct (forallb _ _).
  - unfold true_divide. rewrite length_zip_with, length_broadcast_levels,
      length_sum_axis0_Z. lia.
  - set (den := broadcast_levels L (sum_axis0_Z L n cnt)).
    set (m := map _ den).
    assert (Hm : length m = (L * n)%nat).
    { unfold m, den. rewrite length_map, length_broadcast_levels,
        length_sum_axis0_Z. reflexivity. }
    clearbody m. clear -Hm.
    set (vals := true_divide _ _). clearbody vals.
    revert m vals Hm. generalize (L * n)%nat as k.
    induction k as [|k IH]; intros [|b m] vals Hm; simpl in *; try lia; try reflexivity.
    destruct b; [destruct vals|]; simpl; rewrite IH; auto; lia.
Qed.

(** Each weight is its count divided by the cell's total, or zero where the
    total is zero. *)
Lemma weight_of_at (l i : nat) :
  l < L → i < n →
  at_level 0%Q n (weight_of L n cnt) l i
  = if (total i =? 0)%Z then 0%Q
    else fdiv (of_int (at_level 0%Z n cnt l i)) (of_int (total i)).
Proof using Hlen.
  intros Hl Hi. unfold at_level, weight_of.
  assert (Hk : (l * n + i < L * n)%nat) by nia.
  assert (Hden : nth (l * n + i) (broadcast_levels L (sum_axis0_Z L n cnt)) 0%Z
                 = total i).
  { pose proof (nth_broadcast_levels L (sum_axis0_Z L n cnt) l i 0%Z) as H.
    rewrite length_sum_axis0_Z in H. rewrite H by lia.
    apply nth_sum_axis0_Z. exact Hi. }
  cbv zeta. unfold true_divide.
  destruct (forallb _ _) eqn:Hall.
  - rewrite (nth_zip_with _ _ _ _ 0%Z 0%Z)
      by (rewrite ?length_broadcast_levels, ?length_sum_axis0_Z; lia).
    rewrite Hden.
    destruct (total i =? 0)%Z eqn:Ht; [|reflexivity].
    exfalso. rewrite forallb_forall in Hall.
    assert (Hin : In (total i) (sum_axis0_Z L n cnt)).
    { unfold total, counts. rewrite <- (nth_sum_axis0_Z L n cnt i Hi).
      apply nth_In. rewrite length_sum_axis0_Z. exact Hi. }
    specialize (Hall _ Hin). rewrite Ht in Hall. discriminate Hall.
  - rewrite (nth_put_mask_select _ _ _ _ _ _ 0%Z 0%Z).
    + rewrite (nth_indep _ false (negb (0 =? 0)%Z))
        by (rewrite length_map, length_broadcast_levels, length_sum_axis0_Z; lia).
      rewrite (map_nth (fun d => negb (d =? 0)%Z)), Hden.
      destruct (total i =? 0)%Z; simpl; [|reflexivity].
      rewrite (nth_lookup_Some _ _ _ 0%Q) by (apply lookup_replicate_2; lia).
      reflexivity.
    + rewrite length_replicate, length_map, length_broadcast_levels,
        length_sum_axis0_Z. reflexivity.
    + rewrite length_map, length_broadcast_levels, length_sum_axis0_Z. lia.
    + rewrite length_map. reflexivity.
    + rewrite length_map, length_broadcast_levels, length_sum_axis0_Z. lia.
Qed.

(** The weights of the levels of one cell. *)
Lemma weight_of_cell (i : nat) :
  i < n →
  map (fun l => at_level 0%Q n (weight_of L n cnt) l i) (seq 0 L)
  = if (total i =? 0)%Z then map (fun _ => 0%Q) (counts i)
    else map (fun c => fdiv (of_int c) (of_int (total i))) (counts i).
Proof using Hlen.
  intros Hi. unfold counts.
  destruct (total i =? 0)%Z eqn:Ht; rewrite map_map; apply map_ext_in;
    intros l Hl; apply in_seq in Hl; rewrite weight_of_at by lia;
    rewrite Ht; reflexivity.
Qed.

End weight_facts.

Lemma fsum_zeros {T} (xs : list T) : fsum (map (fun _ => 0%Q) xs) = 0%Q.
Proof.
  destruct xs as [|x xs]; [reflexivity|]. simpl.
  induction xs as [|y xs IH]; simpl; [reflexivity|].
  change (fadd 0 0) with 0%Q. exact IH.
Qed.

Lemma wrap64_small (z : Z) : (- 2 ^ 63 <= z < 2 ^ 63)%Z → wrap64 z = z.
Proof. intros H. unfold wrap64. rewrite Z.mod_small; lia. Qed.

Lemma size_of_2 (r c : nat) : size_of [r; c] = (r * c)%nat.
Proof. simpl. lia. Qed.

Lemma size_of_3 (l r c : nat) : size_of [l; r; c] = (l * (r * c))%nat.
Proof. simpl. lia. Qed.

(** What [__init__] builds from a 3D index array. *)
Lemma __init___3d (cls : string) (p : pyval) (idx cnt : ndarray Z)
    (x : GridPolyConv) :
  ndim idx = 3%nat →
  __init__ cls p (PIntArray idx) (PIntArray cnt) = Ok x →
  ∃ L nrow ncol,
    shape idx = [S L; nrow; ncol] ∧ shape cnt = shape idx ∧
    idx_ar x = idx ∧ ar_count x = Some cnt ∧
    weight x = Some (NdArray (shape idx)
                       (weight_of (S L) (nrow * ncol) (data cnt))) ∧
    mask x = NdArray [nrow; ncol]
               (map (fun v => (v =? 0)%Z) (take (nrow * ncol) (data idx))).
Proof.
  unfold __init__, ndim. intros Hnd H.
  destruct p; simpl in H; try discriminate;
    (destruct (bool_decide (NoDup l)); simpl in H; [|discriminate]);
    (destruct (shape idx) as [|L [|nrow [|ncol [|? ?]]]] eqn:Hs;
       simpl in Hnd; try discriminate);
    (destruct (bool_decide (shape cnt = [L; nrow; ncol])) eqn:Hc;
       simpl in H; [|discriminate]);
    (destruct L as [|L]; [discriminate|]);
    apply bool_decide_eq_true in Hc;
    injection H as <-; exists L, nrow, ncol; simpl; auto 10.
Qed.

(** The weights of a refined mapping, cell by cell. *)
Lemma __init___weights (cls : string) (p : pyval)
    (idx cnt : ndarray Z) (x : GridPolyConv) :
  well_formed cnt →
  ndim idx = 3%nat →
  __init__ cls p (PIntArray idx) (PIntArray cnt) = Ok x →
  ∃ w, weight x = Some w ∧ shape w = shape idx ∧
       ∀ i, i < cells_of w → normalised_at cnt w i.
Proof.
  intros Hwf Hnd H.
  destruct (__init___3d _ _ _ _ _ Hnd H) as (L & nrow & ncol & Hs & Hc & _ & _ & Hw & _).
  eexists. split; [exact Hw|]. split; [reflexivity|].
  unfold normalised_at, coverage, total_count, cell_weights, cell_counts,
    weight_at, levels_of, cells_of.
  simpl. rewrite Hs. simpl hd. simpl tl.
  rewrite size_of_2.
  assert (Hlen : length (data cnt) = (S L * (nrow * ncol))%nat).
  { unfold well_formed in Hwf. rewrite Hwf, Hc, Hs. apply size_of_3. }
  intros i Hi. cbv zeta.
  pose proof (weight_of_cell _ _ _ Hlen i Hi) as Hcell. cbv beta zeta in Hcell.
  set (counts := map (fun l => at_level 0%Z (nrow * ncol) (data cnt) l i)
                     (seq 0 (S L))) in *.
  split; [|split].
  - intros Ht. apply Z.eqb_neq in Ht. rewrite Ht in Hcell. exact Hcell.
  - intros Ht. rewrite Ht in Hcell. change (0 =? 0)%Z with true in Hcell.
    split; [exact Hcell|]. rewrite Hcell. apply fsum_zeros.
  - intros Hnn Hsum HL.
    assert (Hw64 : wrap64 (Zsum counts) = Zsum counts)
      by (apply wrap64_small; lia).
    rewrite Hw64 in Hcell.
    assert (Hne : (Zsum counts =? 0)%Z = false) by (apply Z.eqb_neq; lia).
    rewrite Hne in Hcell. rewrite Hcell.
    assert (Hlc : length counts = S L)
      by (unfold counts; rewrite length_map, length_seq; reflexivity).
    pose proof (weights_sum_bound counts Hnn Hsum) as Hb. cbv beta zeta in Hb.
    rewrite Hlc in Hb. apply Hb. exact HL.
Qed.

(** C3 (amended). For every refined mapping built by [__init__] from a 3D
    index array and a count array, at every cell: where the total count over
    the levels, summed in int64, is non-zero each weight is its count
    divided by the total in float64; where the total is zero every weight
    is 0 and the sum of the weights is 0; where no count is negative and
    the total is positive and at most 2^53 the sum of the weights, added
    level by level in float64, is within 2^-51 per level of 1.  It need not
    be 1 and can exceed 1; the mask plays no part. *)
Theorem C3_weight_sum_invariant (cls : string) (p : pyval)
    (idx cnt : ndarray Z) (x : GridPolyConv) :
  well_formed cnt →
  ndim idx = 3%nat →
  __init__ cls p (PIntArray idx) (PIntArray cnt) = Ok x →
  ∃ w, weight x = Some w ∧ shape w = shape idx ∧
       ∀ i, i < cells_of w → normalised_at cnt w i.
Proof. apply __init___weights. Qed.

(** ** The state of an object, equality and pickling *)

Section state_facts.

Variable x : GridPolyConv.

Lemma getstate_poly_idx : __getstate__ x !! "poly_idx" = Some (PTuple (poly_idx x)).
Proof. unfold __getstate__, __iter__. simpl. apply lookup_insert_eq. Qed.

Lemma getstate_idx_ar : __getstate__ x !! "idx_ar" = Some (PIntArray (idx_ar x)).
Proof.
  unfold __getstate__, __iter__. simpl.
  rewrite lookup_insert_ne by discriminate. apply lookup_insert_eq.
Qed.

Lemma getstate_ar_count :
  __getstate__ x !! "ar_count" = Some (opt_array (ar_count x)).
Proof.
  unfold __getstate__, __iter__. simpl.
  rewrite !lookup_insert_ne by discriminate. apply lookup_insert_eq.
Qed.

Lemma getstate_dom :
  dom (__getstate__ x)
  ⊆ ({["poly_idx"; "idx_ar"; "ar_count"; "logger"]} : gset string).
Proof.
  unfold __getstate__, __iter__. simpl.
  rewrite !dom_insert_L, dom_empty_L.
  intros k Hk. rewrite !elem_of_union, !elem_of_singleton in *.
  rewrite elem_of_empty in Hk. tauto.
Qed.

(** Unpickling the state calls the constructor on the three datasets. *)
Lemma setstate_getstate (c : string) :
  __setstate__ c (__getstate__ x)
  = __init__ c (PTuple (poly_idx x)) (PIntArray (idx_ar x))
      (opt_array (ar_count x)).
Proof.
  unfold __setstate__.
  rewrite (bool_decide_eq_true_2 _ getstate_dom). simpl.
  rewrite getstate_poly_idx, getstate_idx_ar, getstate_ar_count. reflexivity.
Qed.

End state_facts.

(** The constructor rebuilds an object from its own datasets. *)
Lemma __init___datasets (c : string) (p i a : pyval) (x : GridPolyConv) :
  __init__ c p i a = Ok x →
  __init__ c (PTuple (poly_idx x)) (PIntArray (idx_ar x))
    (opt_array (ar_count x)) = Ok x.
Proof.
  unfold __init__. intros H.
  assert (Hp : ∃ l, (match p with
                     | PTuple l | PList l => Ok l
                     | _ => Raise (ValueError "poly_idx must be a tuple or list-like")
                     end) = Ok l) by (destruct p; try discriminate H; eauto).
  destruct Hp as [l Hl]. rewrite Hl in H. simpl in H. simpl.
  destruct (bool_decide (NoDup l)) eqn:Hnd; simpl in H; [|discriminate].
  destruct i as [| | |idx| |]; try discriminate H.
  destruct (shape idx) as [|L [|nrow [|ncol [|? ?]]]] eqn:Hs; try discriminate H.
  - injection H as <-. simpl. rewrite Hnd, Hs. reflexivity.
  - destruct a as [| | |cnt| |]; try discriminate H.
    destruct (bool_decide (shape cnt = [L; nrow; ncol])) eqn:Hc;
      simpl in H; [|discriminate].
    destruct L as [|L]; [discriminate|].
    injection H as <-. simpl. rewrite Hnd, Hs, Hc. reflexivity.
Qed.

(** C10. Two objects of the same class with equal [poly_idx] and
    array-equal [idx_ar] compare equal whatever their [ar_count] are: the
    first [try] returns on both of its paths, so the comparison of
    [ar_count] that follows it is never reached. *)
Theorem C10_eq_ignores_ar_count (a b : GridPolyConv) :
  class_name a = class_name b →
  poly_idx a = poly_idx b →
  assert_array_equal (idx_ar a) (PIntArray (idx_ar b)) = Ok tt →
  __eq__ a (as_object b) = Return true.
Proof.
  intros Hc Hp Hi. unfold __eq__, as_object, getattr.
  cbn [obj_class obj_attrs].
  rewrite getstate_poly_idx, getstate_idx_ar. cbn [default from_option id].
  rewrite Hi, Hc, String.eqb_refl. unfold tuple_ne.
  rewrite Hp, (bool_decide_eq_true_2 _ eq_refl). reflexivity.
Qed.

Lemma C10_eq_ignores_ar_count_witness :
  ar_count Samples.refined ≠ ar_count Samples.uncounted
  ∧ __eq__ Samples.refined (as_object Samples.uncounted) = Return true.
Proof.
  split; [discriminate|].
  apply (C10_eq_ignores_ar_count Samples.refined Samples.uncounted);
    reflexivity.
Defined.

(** The result of [__eq__] is that of its first two statements: the
    statements after the first [try] contribute nothing. *)
Lemma __eq___first_try (self : GridPolyConv) (other : pyobject) :
  __eq__ self other
  = Return (String.eqb (class_name self) (obj_class other)
            && negb (tuple_ne (poly_idx self) (getattr other "poly_idx"))
            && match assert_array_equal (idx_ar self) (getattr other "idx_ar") with
               | Ok _ => true
               | Raise _ => false
               end).
Proof.
  unfold __eq__.
  destruct (String.eqb _ _); simpl; [|reflexivity].
  destruct (tuple_ne _ _); simpl; [reflexivity|].
  destruct (assert_array_equal _ _); reflexivity.
Qed.

(** ** Pickling round trip *)

Lemma __init___class_name (c : string) (p i a : pyval) (x : GridPolyConv) :
  __init__ c p i a = Ok x → class_name x = c.
Proof.
  unfold __init__. intros H.
  destruct p; simpl in H; try discriminate H;
    (destruct (bool_decide (NoDup l)); simpl in H; [|discriminate]);
    (destruct i as [| | |idx| |]; try discriminate H);
    (destruct (shape idx) as [|L [|nrow [|ncol [|? ?]]]]; try discriminate H);
    try (injection H as <-; reflexivity);
    (destruct a as [| | |cnt| |]; try discriminate H);
    (destruct (bool_decide (shape cnt = _)); simpl in H; [|discriminate]);
    (destruct L; [discriminate|]); injection H as <-; reflexivity.
Qed.

Lemma entry_lookup_put (nm : string) (nd : node) (es : list (string * node)) :
  entry_lookup nm (entry_put nm nd es) = Some nd.
Proof.
  induction es as [|[n x] es IH]; simpl.
  - rewrite String.eqb_refl. reflexivity.
  - destruct (String.eqb n nm) eqn:E; simpl; rewrite E; [reflexivity|exact IH].
Qed.

Lemma read_write_content (w : world) (p : path) (c : file_content) :
  is_Some (fs w !! parent p) →
  read_content (write_content w p c) p = Ok c.
Proof.
  intros [d Hd]. unfold read_content, write_content. rewrite Hd. simpl.
  rewrite lookup_insert_eq. simpl. rewrite entry_lookup_put. reflexivity.
Qed.

Lemma open_wb_fs (w w1 : world) (p : path) :
  open_wb w p = Ok w1 →
  is_Some (fs w1 !! parent p) ∧ importable w1 = importable w.
Proof.
  unfold open_wb. destruct (fs w !! parent p) as [d|]; [|discriminate].
  destruct (writable d); simpl; [|discriminate].
  destruct (entry_lookup _ _) as [[|]|]; try discriminate;
    intros [= <-]; simpl; rewrite lookup_insert_eq; eauto.
Qed.

(** Creating or truncating a file changes neither what pickle finds nor
    the room on the devices. *)
Lemma open_wb_dump (w w1 : world) (p : path) :
  open_wb w p = Ok w1 →
  (∀ obj, pickle_dump w1 obj = pickle_dump w obj)
  ∧ (∀ q, file_write w1 q = file_write w q).
Proof.
  unfold open_wb. destruct (fs w !! parent p) as [d|]; [|discriminate].
  destruct (writable d); simpl; [|discriminate].
  destruct (entry_lookup _ _) as [[|]|]; try discriminate;
    intros [= <-]; split; reflexivity.
Qed.

(** What a successful [pickle.dump] pickles. *)
Lemma pickle_dump_Ok (w : world) (obj : GridPolyConv) (c : file_content) :
  pickle_dump w obj = Ok c →
  c = Pickled (class_name obj) (__getstate__ obj)
  ∧ class_name obj ∈ importable w.
Proof.
  unfold pickle_dump. destruct (bool_decide (_ ∈ local_classes w)); [discriminate|].
  destruct (bool_decide (_ ∈ importable w)) eqn:Hi; [|discriminate].
  apply bool_decide_eq_true in Hi. intros [= <-]. auto.
Qed.

(** Dumping and loading an object that the constructor built gives the
    object back. *)
Lemma pickle_load_dump (w : world) (c : string) (p i a : pyval)
    (x : GridPolyConv) (content : file_content) :
  __init__ c p i a = Ok x →
  pickle_dump w x = Ok content →
  pickle_load w content = Ok x.
Proof.
  intros Hx Hd. destruct (pickle_dump_Ok _ _ _ Hd) as [-> Himp].
  simpl. rewrite (bool_decide_eq_true_2 _ Himp), setstate_getstate.
  pose proof (__init___class_name _ _ _ _ _ Hx) as Hc. rewrite Hc.
  exact (__init___datasets _ _ _ _ _ Hx).
Qed.

(** C9. An object built by the constructor, written by [to_pickle] and read
    back by [from_pickle], comes back with the same [poly_idx], the same
    [idx_ar] and the same [ar_count]. *)
Theorem C9_pickle_roundtrip (w w' : world) (p : path) (c : string)
    (pi ia ac : pyval) (x : GridPolyConv) :
  __init__ c pi ia ac = Ok x →
  to_pickle x w p = (w', Ok tt) →
  ∃ x', from_pickle w' p = Ok x'
        ∧ poly_idx x' = poly_idx x
        ∧ idx_ar x' = idx_ar x
        ∧ ar_count x' = ar_count x.
Proof.
  intros Hx. unfold to_pickle.
  destruct (open_wb w p) as [w1|e] eqn:Ho; [|discriminate].
  destruct (pickle_dump w1 x) as [content|e] eqn:Hd; [|discriminate].
  destruct (file_write w1 p) as [[]|e]; [|discriminate].
  intros [= <-]. exists x.
  destruct (open_wb_fs _ _ _ Ho) as [Hfs Himp].
  unfold from_pickle. rewrite read_write_content by exact Hfs. simpl.
  assert (Hl : pickle_load (write_content w1 p content) content = Ok x).
  { apply (pickle_load_dump _ c pi ia ac); [exact Hx|].
    unfold pickle_dump in *. unfold write_content.
    destruct (fs w1 !! parent p); simpl; exact Hd. }
  rewrite Hl. auto.
Qed.

Lemma C9_pickle_roundtrip_witness :
  ∃ x', from_pickle (to_pickle Samples.refined Samples.world0
                       (MkPath "." "c0123abcd.gpc")).1
          (MkPath "." "c0123abcd.gpc") = Ok x'
        ∧ poly_idx x' = poly_idx Samples.refined
        ∧ idx_ar x' = idx_ar Samples.refined
        ∧ ar_count x' = ar_count Samples.refined.
Proof.
  apply (C9_pickle_roundtrip Samples.world0 _ _ "GridPolyConv"
           (PTuple [KInt 10; KInt 20; KInt 30])
           (PIntArray (NdArray [2; 1; 2] [1; 2; 3; 0]%Z))
           (PIntArray (NdArray [2; 1; 2] [3; 2; 1; 0]%Z))).
  - reflexivity.
  - vm_compute. reflexivity.
Defined.

(** ** array_from_values *)

Section gather_facts.

Lemma py_index_in_range {T} (xs : list T) (i : Z) :
  is_Some (py_index xs i) ↔ in_range (length xs) i = true.
Proof.
  unfold py_index, in_range.
  destruct ((0 <=? i) && (i <? Z.of_nat (length xs)))%Z eqn:E1.
  - apply andb_true_iff in E1 as [H1 H2].
    apply Z.leb_le in H1. apply Z.ltb_lt in H2.
    split.
    + intros _. apply andb_true_iff. split; [apply Z.leb_le|apply Z.ltb_lt]; lia.
    + intros _. apply lookup_lt_is_Some. lia.
  - destruct ((- Z.of_nat (length xs) <=? i) && (i <? 0))%Z eqn:E2.
    + apply andb_true_iff in E2 as [H1 H2].
      apply Z.leb_le in H1. apply Z.ltb_lt in H2.
      split.
      * intros _. apply andb_true_iff. split; [apply Z.leb_le|apply Z.ltb_lt]; lia.
      * intros _. apply lookup_lt_is_Some. lia.
    + split; [intros [? ?]; discriminate|].
      intros H. apply andb_true_iff in H as [H1 H2].
      apply Z.leb_le in H1. apply Z.ltb_lt in H2.
      apply andb_false_iff in E1, E2.
      rewrite !Z.leb_gt, !Z.ltb_ge in *. lia.
Qed.

Lemma gather_ok (values : list Q) (idx : list Z) :
  forallb (in_range (length values)) idx = true →
  ∃ r, gather values idx = Ok r.
Proof.
  induction idx as [|i idx IH]; simpl; [eauto|].
  intros H. apply andb_true_iff in H as [Hi Hr].
  apply py_index_in_range in Hi as [v Hv]. rewrite Hv.
  destruct (IH Hr) as [r ->]. simpl. eauto.
Qed.

Lemma gather_raise (values : list Q) (idx : list Z) :
  forallb (in_range (length values)) idx = false →
  ∃ e, gather values idx = Raise e.
Proof.
  induction idx as [|i idx IH]; simpl; [discriminate|].
  intros H. destruct (py_index values i) as [v|] eqn:Hv; [|eauto].
  assert (Hi : in_range (length values) i = true)
    by (apply py_index_in_range; eauto).
  rewrite Hi in H. simpl in H. destruct (IH H) as [e ->]. simpl. eauto.
Qed.

Lemma gather_length (values : list Q) (idx : list Z) (r : list Q) :
  gather values idx = Ok r → length r = length idx.
Proof.
  revert r. induction idx as [|i idx IH]; simpl; intros r H.
  - injection H as <-. reflexivity.
  - destruct (py_index values i); [|discriminate].
    destruct (gather values idx) as [r'|]; [|discriminate].
    injection H as <-. simpl. rewrite (IH r' eq_refl). reflexivity.
Qed.

Lemma gather_nth (values : list Q) (idx : list Z) (r : list Q) (k : nat) :
  gather values idx = Ok r → k < length idx →
  py_index values (nth k idx 0%Z) = Some (nth k r 0%Q).
Proof.
  revert r k. induction idx as [|i idx IH]; simpl; intros r k H Hk; [lia|].
  destruct (py_index values i) as [v|] eqn:Hv; [|discriminate].
  destruct (gather values idx) as [r'|]; [|discriminate].
  injection H as <-. destruct k as [|k]; simpl; [exact Hv|].
  apply IH; [reflexivity|lia].
Qed.

End gather_facts.

Section spread_facts.

Variable self : GridPolyConv.

Lemma filter_superset (index pidx : list key) :
  issuperset index pidx = true →
  filter (fun k => k ∈ index) pidx = pidx.
Proof.
  induction pidx as [|k pidx IH]; simpl; [reflexivity|].
  intros H. apply andb_true_iff in H as [Hk Hr].
  apply bool_decide_eq_true in Hk.
  rewrite filter_cons, decide_True by exact Hk. rewrite IH by exact Hr.
  reflexivity.
Qed.

Lemma length_reorder (index : list key) :
  issuperset index (poly_idx self) = true →
  length (reorder self index) = length (poly_idx self).
Proof.
  intros H. unfold reorder. rewrite filter_superset by exact H.
  apply length_map.
Qed.

Lemma spread_returns (vals : list Q) (fill : Q) :
  length vals = length (poly_idx self) →
  index_in_range self = true →
  ∃ r, spread self vals fill = Ok r.
Proof.
  unfold index_in_range, spread. intros <- H.
  destruct (gather_ok (fill :: vals) _ H) as [r ->]. simpl.
  destruct (weight self); eauto.
Qed.

Lemma spread_raises (vals : list Q) (fill : Q) :
  length vals = length (poly_idx self) →
  index_in_range self = false →
  ∃ e, spread self vals fill = Raise e.
Proof.
  unfold index_in_range, spread. intros <- H.
  destruct (gather_raise (fill :: vals) _ H) as [e ->]. simpl. eauto.
Qed.

Lemma spread_rows_returns (rows : list (list Q)) (fill : Q) :
  Forall (fun vals => length vals = length (poly_idx self)) rows →
  index_in_range self = true →
  ∃ rs, spread_rows self rows fill = Ok rs ∧ length rs = length rows.
Proof.
  intros Hrows Hin. induction Hrows as [|vals rows Hv _ IH]; simpl; [eauto|].
  destruct (spread_returns vals fill Hv Hin) as [r ->].
  destruct IH as (rs & -> & Hl). simpl. eexists. split; [reflexivity|].
  simpl. rewrite Hl. reflexivity.
Qed.

Lemma spread_rows_raises (rows : list (list Q)) (fill : Q) :
  rows ≠ [] →
  Forall (fun vals => length vals = length (poly_idx self)) rows →
  index_in_range self = false →
  ∃ e, spread_rows self rows fill = Raise e.
Proof.
  intros Hne Hrows Hin. destruct Hrows as [|vals rows Hv _]; [congruence|].
  simpl. destruct (spread_raises vals fill Hv Hin) as [e ->]. simpl. eauto.
Qed.

Lemma spread_rows_length (rows : list (list Q)) (fill : Q) (rs : list (list Q)) :
  spread_rows self rows fill = Ok rs → length rs = length rows.
Proof.
  revert rs. induction rows as [|vals rows IH]; simpl; intros rs H.
  - injection H as <-. reflexivity.
  - destruct (spread self vals fill); [|discriminate]. simpl in H.
    destruct (spread_rows self rows fill) as [rs'|]; [|discriminate].
    injection H as <-. simpl. rewrite (IH rs' eq_refl). reflexivity.
Qed.

End spread_facts.

Lemma rows_of_lengths {T} (nrows ncols : nat) (xs : list T) :
  length xs = (nrows * ncols)%nat →
  Forall (fun r => length r = ncols) (rows_of nrows ncols xs).
Proof.
  intros Hlen. unfold rows_of. apply Forall_forall. intros r Hr.
  apply list_elem_of_In, in_map_iff in Hr as (k & <- & Hk). apply in_seq in Hk.
  rewrite length_take, length_drop. nia.
Qed.

Lemma length_rows_of {T} (nrows ncols : nat) (xs : list T) :
  length (rows_of nrows ncols xs) = nrows.
Proof. unfold rows_of. rewrite length_map, length_seq. reflexivity. Qed.

(** Once the five checks have passed, only the gather and the stacking can
    still raise. *)
Lemma length_reindex (self : GridPolyConv) (index : list key) (vals : list Q) :
  issuperset index (poly_idx self) = true →
  length vals = length index →
  length (reindex self index vals) = length (poly_idx self).
Proof.
  intros Hsup Hv. unfold reindex.
  destruct (bool_decide (index = poly_idx self)) eqn:Hi.
  - apply bool_decide_eq_true in Hi. congruence.
  - rewrite length_map. apply length_reorder. exact Hsup.
Qed.

(** Once the five checks have passed, only the gather and the stacking can
    still raise. *)
Lemma array_from_values_checked (self : GridPolyConv) (index : list key)
    (values : ndarray Q) (fill : Q) (enforce1d : bool) :
  well_formed values →
  passes_shape_checks index values enforce1d →
  isdisjoint index (poly_idx self) = false →
  issuperset index (poly_idx self) = true →
  (raises (array_from_values self index values fill enforce1d)
   ↔ (ndim values = 2%nat ∧ hd 0%nat (shape values) = 0%nat)
     ∨ index_in_range self = false).
Proof.
  intros Hwf (Hnd & Hlen & He) Hdis Hsup. unfold array_from_values.
  rewrite (bool_decide_eq_true_2 _ Hnd), (bool_decide_eq_true_2 _ Hlen).
  cbn [negb].
  assert (He' : enforce1d && negb (bool_decide (ndim values = 1%nat)) = false).
  { destruct enforce1d; [|reflexivity].
    rewrite (bool_decide_eq_true_2 _ (He eq_refl)). reflexivity. }
  rewrite He', Hdis, Hsup. cbn [negb]. cbv zeta.
  unfold ndim, well_formed in *.
  destruct (shape values) as [|m [|npoly [|? ?]]] eqn:Hs; simpl in Hnd;
    try (exfalso; lia).
  - (* one dimension *)
    simpl in Hlen, Hwf.
    assert (Hv : length (reindex self index (data values))
                 = length (poly_idx self))
      by (apply length_reindex; [exact Hsup|lia]).
    destruct (index_in_range self) eqn:Hin.
    + destruct (spread_returns self _ fill Hv Hin) as [r ->]. simpl.
      destruct (weight self); [destruct (negb _)|]; simpl;
        (split; [tauto|intros [[? _]|?]; [lia|discriminate]]).
    + destruct (spread_raises self _ fill Hv Hin) as [e ->]. simpl.
      split; auto.
  - (* two dimensions *)
    simpl in Hlen, Hwf.
    assert (Hrows : Forall (fun vals => length vals = length (poly_idx self))
                      (map (reindex self index)
                         (rows_of m npoly (data values)))).
    { apply Forall_forall. intros r Hr.
      apply list_elem_of_In, in_map_iff in Hr as (r0 & <- & Hr0).
      apply length_reindex; [exact Hsup|].
      pose proof (rows_of_lengths m npoly (data values)) as Hl.
      rewrite Forall_forall in Hl. rewrite (Hl ltac:(lia) r0); [lia|].
      apply list_elem_of_In. exact Hr0. }
    destruct m as [|m].
    + simpl. split; auto.
    + destruct (index_in_range self) eqn:Hin.
      * destruct (spread_rows_returns self _ fill Hrows Hin) as (rs & -> & Hl).
        rewrite length_map, length_rows_of in Hl.
        destruct rs as [|r rs]; [discriminate|]. simpl.
        destruct (weight self); [destruct (negb _)|]; simpl;
          (split; [tauto|intros [[_ ?]|?]; discriminate]).
      * assert (Hne : rows_of (S m) npoly (data values) ≠ [])
          by (simpl; discriminate).
        destruct (spread_rows_raises self _ fill
                    ltac:(intros E; apply map_eq_nil in E; exact (Hne E))
                    Hrows Hin) as [e ->].
        simpl. split; auto.
Qed.

(** The calls that raise, whatever the fill. *)
Lemma array_from_values_raises_iff (self : GridPolyConv) (index : list key)
    (values : ndarray Q) (fill : Q) (enforce1d : bool) :
  well_formed values →
  raises (array_from_values self index values fill enforce1d)
  ↔ raise_conditions self index values enforce1d.
Proof.
  intros Hwf. unfold raise_conditions.
  destruct (decide (ndim values = 1%nat ∨ ndim values = 2%nat)) as [Hnd|Hnd].
  2:{ unfold array_from_values.
      rewrite (bool_decide_eq_false_2 _ Hnd). simpl. split; [|auto].
      intros _. left. lia. }
  destruct (decide (length index = List.last (shape values) 0%nat)) as [Hlen|Hlen].
  2:{ unfold array_from_values.
      rewrite (bool_decide_eq_true_2 _ Hnd), (bool_decide_eq_false_2 _ Hlen).
      simpl. split; auto. }
  destruct (decide (enforce1d = true ∧ ndim values ≠ 1%nat)) as [He|He].
  { unfold array_from_values.
    rewrite (bool_decide_eq_true_2 _ Hnd), (bool_decide_eq_true_2 _ Hlen).
    destruct He as [-> He]. rewrite (bool_decide_eq_false_2 _ He).
    simpl. split; auto 6. }
  assert (He' : enforce1d = true → ndim values = 1%nat).
  { intros E. destruct (decide (ndim values = 1%nat)); [assumption|tauto]. }
  assert (Hpre : enforce1d && negb (bool_decide (ndim values = 1%nat)) = false).
  { destruct enforce1d; [|reflexivity].
    rewrite (bool_decide_eq_true_2 _ (He' eq_refl)). reflexivity. }
  destruct (isdisjoint index (poly_idx self)) eqn:Hdis.
  { unfold array_from_values.
    rewrite (bool_decide_eq_true_2 _ Hnd), (bool_decide_eq_true_2 _ Hlen).
    cbn [negb]. rewrite Hpre, Hdis. simpl. split; auto 6. }
  destruct (issuperset index (poly_idx self)) eqn:Hsup.
  2:{ unfold array_from_values.
      rewrite (bool_decide_eq_true_2 _ Hnd), (bool_decide_eq_true_2 _ Hlen).
      cbn [negb]. rewrite Hpre, Hdis, Hsup. simpl. split; auto 7. }
  rewrite (array_from_values_checked self index values fill enforce1d
             Hwf (conj Hnd (conj Hlen He')) Hdis Hsup).
  split; [intros [H|H]; auto 10|].
  intros [H|[H|[H|[H|[H|[H|H]]]]]];
    try tauto; try discriminate; lia.
Qed.




Lemma C3_weight_sum_invariant_witness :
  well_formed (NdArray [2; 1; 2] [3; 2; 1; 0]%Z)
  ∧ ndim (NdArray [2; 1; 2] [1; 2; 3; 0]%Z) = 3%nat
  ∧ ∃ w, weight Samples.refined = Some w
         ∧ shape w = shape (NdArray [2; 1; 2] [1; 2; 3; 0]%Z)
         ∧ ∀ i, i < cells_of w →
                normalised_at (NdArray [2; 1; 2] [3; 2; 1; 0]%Z) w i.
Proof.
  split; [reflexivity|]. split; [reflexivity|].
  apply (C3_weight_sum_invariant "GridPolyConv"
           (PTuple [KInt 10; KInt 20; KInt 30])
           (NdArray [2; 1; 2] [1; 2; 3; 0]%Z)
           (NdArray [2; 1; 2] [3; 2; 1; 0]%Z) Samples.refined);
    reflexivity.
Defined.

(** C3, as first stated, fails.  The constructor accepts a cell whose index
    is not 0, so that the mask is false there, with a total count of zero,
    and the weights of that cell sum to 0, not to 1.  With counts 3, 2 and
    1 the weights sum to [1 - 2^-53] in float64; with counts 8, 7, 4, 4 and
    2 they sum to [1 + 2^-52], above 1; with two counts of 2^62 the int64
    total wraps around to -2^63 and both weights are -1/2. *)
Lemma C3_counterexample :
  (∃ x w,
     __init__ "GridPolyConv" (PTuple [KInt 10])
       (PIntArray Samples.zero_count_idx) (PIntArray Samples.zero_count_cnt)
     = Ok x
     ∧ weight x = Some w
     ∧ data (mask x) = [false]
     ∧ coverage w 0 = 0%Q
     ∧ ¬ (coverage w 0 == 1)%Q)
  ∧ (∃ x w,
       __init__ "GridPolyConv" (PTuple [KInt 10; KInt 20; KInt 30])
         (PIntArray Samples.sixths_idx) (PIntArray Samples.sixths_cnt)
       = Ok x
       ∧ weight x = Some w
       ∧ data (mask x) = [false]
       ∧ total_count Samples.sixths_cnt w 0 = 6%Z
       ∧ coverage w 0 = (9007199254740991 # 9007199254740992)%Q
       ∧ (coverage w 0 < 1)%Q)
  ∧ (∃ x w,
       __init__ "GridPolyConv"
         (PTuple [KInt 10; KInt 20; KInt 30; KInt 40; KInt 50])
         (PIntArray Samples.fifths_idx) (PIntArray Samples.fifths_cnt)
       = Ok x
       ∧ weight x = Some w
       ∧ data (mask x) = [false]
       ∧ total_count Samples.fifths_cnt w 0 = 25%Z
       ∧ coverage w 0 = (4503599627370497 # 4503599627370496)%Q
       ∧ (1 < coverage w 0)%Q)
  ∧ (∃ x w,
       __init__ "GridPolyConv" (PTuple [KInt 10; KInt 20])
         (PIntArray Samples.huge_idx) (PIntArray Samples.huge_cnt)
       = Ok x
       ∧ weight x = Some w
       ∧ Zsum (cell_counts Samples.huge_cnt w 0) = (2 ^ 63)%Z
       ∧ total_count Samples.huge_cnt w 0 = (- 2 ^ 63)%Z
       ∧ data w = [- (1 # 2); - (1 # 2)]%Q
       ∧ (weight_at w 0 0 < 0)%Q).
Proof.
  split; [|split; [|split]].
  - eexists. eexists. split; [reflexivity|]. split; [reflexivity|].
    split; [reflexivity|]. split; [reflexivity|].
    intros H. vm_compute in H. discriminate H.
  - eexists. eexists. split; [reflexivity|]. split; [reflexivity|].
    split; [reflexivity|]. split; [vm_compute; reflexivity|].
    split; vm_compute; reflexivity.
  - eexists. eexists. split; [reflexivity|]. split; [reflexivity|].
    split; [reflexivity|]. split; [vm_compute; reflexivity|].
    split; vm_compute; reflexivity.
  - eexists. eexists. split; [reflexivity|]. split; [reflexivity|].
    split; [vm_compute; reflexivity|]. split; [vm_compute; reflexivity|].
    split; vm_compute; reflexivity.
Qed.

(** ** The weighted projection *)

Section projection_facts.

Lemma nth_map_in {A B} (f : A → B) (xs : list A) (i : nat) (da : A) (db : B) :
  i < length xs → nth i (map f xs) db = f (nth i xs da).
Proof.
  intros Hi. rewrite (nth_indep _ db (f da)) by (rewrite length_map; exact Hi).
  apply map_nth.
Qed.

Lemma nth_mjoin_uniform {T} (n : nat) (rs : list (list T)) (e i : nat) (d : T) :
  Forall (fun r => length r = n) rs → e < length rs → i < n →
  nth (e * n + i) (mjoin rs) d = nth i (nth e rs []) d.
Proof.
  intros Hrs. revert e. induction Hrs as [|r rs Hr _ IH]; intros e He Hi;
    simpl in *; [lia|].
  destruct e as [|e].
  - simpl. apply app_nth1. lia.
  - rewrite app_nth2 by (simpl; lia).
    replace (S e * n + i - length r)%nat with (e * n + i)%nat by (simpl; lia).
    apply IH; lia.
Qed.

Variable self : GridPolyConv.
Variable w : ndarray Q.
Hypothesis Hw : weight self = Some w.
Hypothesis Hlw : length (data w) = (levels_of w * cells_of w)%nat.
Hypothesis Hli : length (data (idx_ar self)) = (levels_of w * cells_of w)%nat.

(** One vector of values: every output cell is the weighted sum of the
    values gathered for its levels. *)
Lemma spread_cell (vals : list Q) (fill : Q) (r : list Q) :
  spread self vals fill = Ok r →
  length r = cells_of w
  ∧ ∀ i, i < cells_of w → nth i r 0%Q = weighted_sum self w vals fill i.
Proof using Hw Hlw Hli.
  unfold spread. destruct (gather (fill :: vals) _) as [g|] eqn:Hg; [|discriminate].
  simpl. rewrite Hw. intros [= <-]. split; [apply length_sum_axis0_Q|].
  intros i Hi. rewrite nth_sum_axis0_Q by exact Hi.
  unfold weighted_sum. f_equal. apply map_ext_in. intros l Hl.
  apply in_seq in Hl.
  assert (Hk : (l * cells_of w + i < levels_of w * cells_of w)%nat) by nia.
  pose proof (gather_length _ _ _ Hg) as Hgl.
  unfold at_level at 1.
  rewrite (nth_zip_with _ _ _ _ 0%Q 0%Q) by lia.
  unfold weight_at, at_level, gathered, at_level.
  rewrite (gather_nth _ _ _ _ Hg) by lia. reflexivity.
Qed.

Lemma spread_rows_cell (rows : list (list Q)) (fill : Q) (rs : list (list Q)) :
  spread_rows self rows fill = Ok rs →
  length rs = length rows
  ∧ Forall (fun r => length r = cells_of w) rs
  ∧ ∀ e i, e < length rows → i < cells_of w →
           nth i (nth e rs []) 0%Q
           = weighted_sum self w (nth e rows []) fill i.
Proof using Hw Hlw Hli.
  revert rs. induction rows as [|vals rows IH]; simpl; intros rs H.
  - injection H as <-. repeat split; [constructor|]. intros; simpl in *; lia.
  - destruct (spread self vals fill) as [r|] eqn:Hr; [|discriminate].
    simpl in H.
    destruct (spread_rows self rows fill) as [rs'|]; [|discriminate].
    injection H as <-.
    destruct (spread_cell _ _ _ Hr) as [Hl Hc].
    destruct (IH rs' eq_refl) as (Hl' & Hf & Hc').
    split; [simpl; lia|]. split; [constructor; assumption|].
    intros [|e] i He Hi; simpl; [apply Hc; exact Hi|apply Hc'; lia].
Qed.

End projection_facts.

Section fill_facts.

Variable self : GridPolyConv.
Variable w : ndarray Q.

Lemma length_outside (fill : Q) : length (outside w fill) = cells_of w.
Proof. unfold outside. rewrite !length_map. apply length_sum_axis0_Q. Qed.

Lemma nth_outside (fill : Q) (i : nat) :
  i < cells_of w →
  nth i (outside w fill) 0%Q = fmul (fsub 1 (clip 0 1 (coverage w i))) fill.
Proof.
  intros Hi. unfold outside.
  rewrite (nth_map_in _ _ _ 0%Q) by (rewrite length_map, length_sum_axis0_Q; lia).
  rewrite (nth_map_in _ _ _ 0%Q) by (rewrite length_sum_axis0_Q; lia).
  rewrite nth_sum_axis0_Q by exact Hi. reflexivity.
Qed.

Lemma fmul_0_r (x : Q) : fmul x 0 = 0%Q.
Proof. apply round64_zero. ring. Qed.

(** A cell whose weights are all zero holds a weighted sum of zero. *)
Lemma weighted_sum_zero (vals : list Q) (fill : Q) (i : nat) :
  cell_weights w i = map (fun _ => 0%Q) (seq 0 (levels_of w)) →
  weighted_sum self w vals fill i = 0%Q.
Proof.
  intros Hz. unfold weighted_sum.
  rewrite <- (fsum_zeros (seq 0 (levels_of w))). f_equal.
  apply map_ext_in. intros l Hl. apply in_seq in Hl.
  assert (E : weight_at w l i = 0%Q).
  { apply (f_equal (fun xs => nth l xs 0%Q)) in Hz. unfold cell_weights in Hz.
    rewrite !nth_map_seq in Hz by lia. exact Hz. }
  rewrite E. apply fmul_0_r.
Qed.

(** What is added outside every polygon to a cell of coverage 0 is the
    fill, when the fill is a float. *)
Lemma outside_zero_coverage (fill : Q) :
  (round64 fill == fill)%Q →
  (fadd 0 (fmul (fsub 1 (clip 0 1 0)) fill) == fill)%Q.
Proof.
  intros Hf.
  change (fsub 1 (clip 0 1 0)) with (round64 1). rewrite round64_1.
  unfold fadd, fmul.
  rewrite (round64_comp (0 + round64 (1 * fill)) fill); [exact Hf|].
  rewrite (round64_comp (1 * fill) fill) by ring. rewrite Hf. ring.
Qed.

End fill_facts.

Lemma length_mjoin_uniform {T} (n : nat) (rs : list (list T)) :
  Forall (fun r => length r = n) rs →
  length (mjoin rs) = (length rs * n)%nat.
Proof.
  induction 1 as [|r rs Hr _ IH]; simpl; [reflexivity|].
  rewrite length_app, IH, Hr. reflexivity.
Qed.

(** A call that returns has passed the five checks, and its output is the
    rows spread one by one, plus the outside part. *)
Lemma array_from_values_Ok (self : GridPolyConv) (index : list key)
    (values : ndarray Q) (fill : Q) (enforce1d : bool) (out : masked_array) :
  array_from_values self index values fill enforce1d = Ok out →
  passes_shape_checks index values enforce1d
  ∧ issuperset index (poly_idx self) = true
  ∧ ∃ rs,
      spread_rows self (map (reindex self index) (value_rows values)) fill
      = Ok rs
      ∧ data (ma_data out)
        = match weight self with
          | Some w =>
              if negb (Qeq_bool fill 0) then
                zip_with fadd (mjoin rs)
                  (broadcast_levels (length rs) (outside w fill))
              else mjoin rs
          | None => mjoin rs
          end.
Proof.
  unfold array_from_values, passes_shape_checks, value_rows.
  destruct (bool_decide (ndim values = 1%nat ∨ ndim values = 2%nat)) eqn:Hnd;
    [|discriminate].
  apply bool_decide_eq_true in Hnd. cbn [negb].
  destruct (bool_decide (length index = _)) eqn:Hlen; [|discriminate].
  apply bool_decide_eq_true in Hlen. cbn [negb].
  destruct (enforce1d && _) eqn:He; [discriminate|].
  destruct (isdisjoint _ _); [discriminate|].
  destruct (issuperset _ _); [|discriminate]. cbn [negb].
  assert (He' : enforce1d = true → ndim values = 1%nat).
  { intros ->. simpl in He. apply negb_false_iff, bool_decide_eq_true in He.
    exact He. }
  intros H. split; [auto|]. split; [reflexivity|].
  unfold ndim in Hnd.
  destruct (shape values) as [|m [|npoly [|? ?]]] eqn:Hs; simpl in Hnd;
    try (exfalso; lia).
  - destruct (spread self _ fill) as [r|] eqn:Hr; [|discriminate].
    exists [r]. simpl. rewrite Hr. simpl. split; [reflexivity|].
    simpl in H. injection H as <-. simpl.
    unfold broadcast_levels.
    destruct (weight self); [destruct (Qeq_bool fill 0)|]; simpl;
      rewrite ?app_nil_r; reflexivity.
  - destruct (spread_rows self _ fill) as [rs|] eqn:Hr; [|discriminate].
    exists rs. split; [reflexivity|].
    simpl in H. destruct rs as [|r rs]; [discriminate|].
    simpl in H. injection H as <-. simpl.
    destruct (weight self); [destruct (Qeq_bool fill 0)|]; reflexivity.
Qed.

(** The lengths of the arrays of a refined object. *)
Lemma refined_lengths (cls : string) (p : pyval) (idx cnt : ndarray Z)
    (x : GridPolyConv) :
  well_formed idx → well_formed cnt → ndim idx = 3%nat →
  __init__ cls p (PIntArray idx) (PIntArray cnt) = Ok x →
  ∃ w, weight x = Some w
       ∧ length (data w) = (levels_of w * cells_of w)%nat
       ∧ length (data (idx_ar x)) = (levels_of w * cells_of w)%nat.
Proof.
  intros Hwi Hwc Hnd H.
  destruct (__init___3d _ _ _ _ _ Hnd H)
    as (L & nrow & ncol & Hs & Hc & Hi & _ & Hw & _).
  eexists. split; [exact Hw|].
  unfold levels_of, cells_of, well_formed in *. simpl.
  rewrite Hs. simpl hd. simpl tl. rewrite size_of_2.
  rewrite Hc, Hs, size_of_3 in Hwc. rewrite Hs, size_of_3 in Hwi.
  split; [apply length_weight_of; exact Hwc|].
  rewrite Hi. exact Hwi.
Qed.

(** C4 (amended). For a refined mapping and a call of [array_from_values]
    that returns: the same call with a fill of 0 returns, and its output is
    the per-level gather times the weight, summed over the levels, each
    product and each addition rounded to float64; with a non-zero fill,
    [(1 - clip(sum of weights, 0, 1)) * fill], computed in float64, is
    added to every cell in one more rounded addition.  At a cell whose
    total count is zero the sum of the weights is 0, the output with a fill
    of 0 is 0 and the output with a fill that is a float is that fill: the
    two differ by [(1 - coverage) * fill]. *)
Theorem C4_weighted_projection (cls : string) (p : pyval)
    (idx cnt : ndarray Z) (self : GridPolyConv) (index : list key)
    (values : ndarray Q) (fill : Q) (enforce1d : bool) (out : masked_array) :
  well_formed idx → well_formed cnt → well_formed values →
  ndim idx = 3%nat →
  __init__ cls p (PIntArray idx) (PIntArray cnt) = Ok self →
  array_from_values self index values fill enforce1d = Ok out →
  ∃ w out0,
    weight self = Some w
    ∧ array_from_values self index values 0 enforce1d = Ok out0
    ∧ ∀ e i, e < length (value_rows values) → i < cells_of w →
        projection_at self cnt w
          (reindex self index (nth e (value_rows values) []))
          fill out out0 e i.
Proof.
  intros Hwi Hwc Hwv Hnd Hinit Hout.
  destruct (refined_lengths _ _ _ _ _ Hwi Hwc Hnd Hinit) as (w & Hw & Hlw & Hli).
  assert (H0 : ∃ out0, array_from_values self index values 0 enforce1d = Ok out0).
  { pose proof (array_from_values_raises_iff self index values fill enforce1d Hwv) as Hf.
    pose proof (array_from_values_raises_iff self index values 0 enforce1d Hwv) as Hz.
    destruct (array_from_values self index values 0 enforce1d) as [o|e]; [eauto|].
    exfalso. rewrite Hout in Hf. simpl in Hf, Hz. tauto. }
  destruct H0 as [out0 Hout0]. exists w, out0.
  split; [exact Hw|]. split; [exact Hout0|].
  intros e i He Hi.
  destruct (array_from_values_Ok _ _ _ _ _ _ Hout)
    as ((Hndv & Hlen & _) & Hsup & rs & Hrs & Hdata).
  destruct (array_from_values_Ok _ _ _ _ _ _ Hout0)
    as (_ & _ & rs0 & Hrs0 & Hdata0).
  rewrite Hw in Hdata, Hdata0.
  destruct (spread_rows_cell self w Hw Hlw Hli _ _ _ Hrs) as (Hl & Hf & Hc).
  destruct (spread_rows_cell self w Hw Hlw Hli _ _ _ Hrs0) as (Hl0 & Hf0 & Hc0).
  rewrite length_map in Hl, Hl0, Hc, Hc0.
  specialize (Hc e i He Hi). specialize (Hc0 e i He Hi).
  rewrite (nth_map_in _ _ _ [] []) in Hc, Hc0 by exact He.
  set (vals := reindex self index (nth e (value_rows values) [])) in *.
  assert (Hk : (e * cells_of w + i < length rs * cells_of w)%nat) by nia.
  assert (Hk0 : (e * cells_of w + i < length rs0 * cells_of w)%nat) by nia.
  (* the output with a fill of 0 *)
  assert (E0 : out_at w out0 e i = weighted_sum self w vals 0 i).
  { unfold out_at. rewrite Hdata0. simpl.
    rewrite (nth_mjoin_uniform (cells_of w)) by (assumption || lia).
    exact Hc0. }
  (* the output with the fill *)
  assert (E1 : out_at w out e i
               = if Qeq_bool fill 0 then weighted_sum self w vals fill i
                 else fadd (weighted_sum self w vals fill i)
                           (fmul (fsub 1 (clip 0 1 (coverage w i))) fill)).
  { unfold out_at. rewrite Hdata.
    destruct (Qeq_bool fill 0) eqn:Ef; simpl.
    - rewrite (nth_mjoin_uniform (cells_of w)) by (assumption || lia).
      exact Hc.
    - rewrite (nth_zip_with _ _ _ _ 0%Q 0%Q)
        by (rewrite ?length_broadcast_levels, ?length_outside,
              ?(length_mjoin_uniform (cells_of w)) by assumption; lia).
      rewrite (nth_mjoin_uniform (cells_of w)) by (assumption || lia).
      pose proof (nth_broadcast_levels (length rs) (outside w fill) e i 0%Q) as Hb.
      rewrite length_outside in Hb. rewrite Hb by lia.
      rewrite nth_outside by exact Hi. rewrite Hc. reflexivity. }
  unfold projection_at.
  split; [exact E0|]. split; [|split].
  - intros Ef. apply Qeq_bool_iff in Ef. rewrite E1, Ef. reflexivity.
  - intros Ef. rewrite E1. destruct (Qeq_bool fill 0) eqn:Ef'; [|reflexivity].
    apply Qeq_bool_iff in Ef'. contradiction.
  - (* a cell outside every polygon *)
    intros Ht Hfl.
    destruct (__init___weights _ _ _ _ _ Hwc Hnd Hinit) as (w' & Hw' & _ & Hn).
    rewrite Hw in Hw'. injection Hw' as <-.
    destruct (Hn i Hi) as (_ & Hz & _). destruct (Hz Ht) as [Hcw Hcov].
    unfold cell_counts in Hcw. rewrite map_map in Hcw.
    pose proof (weighted_sum_zero self w vals 0 i Hcw) as W0.
    pose proof (weighted_sum_zero self w vals fill i Hcw) as W1.
    assert (Eo : (out_at w out e i == fill)%Q).
    { rewrite E1, W1, Hcov. destruct (Qeq_bool fill 0) eqn:Ef.
      - apply Qeq_bool_iff in Ef. rewrite Ef. reflexivity.
      - apply outside_zero_coverage. exact Hfl. }
    split; [exact Hcov|]. split; [rewrite E0, W0; reflexivity|].
    split; [exact Eo|].
    rewrite Eo, E0, W0, Hcov. change (clip 0 1 0) with 0%Q. ring.
Qed.

Lemma C4_weighted_projection_witness :
  well_formed Samples.patchy_idx
  ∧ well_formed Samples.patchy_cnt
  ∧ well_formed (NdArray [2] [20; 10]%Q)
  ∧ ∃ out,
      array_from_values Samples.patchy [KInt 20; KInt 10]
        (NdArray [2] [20; 10]%Q) 7 false = Ok out
      ∧ ∃ w out0,
          weight Samples.patchy = Some w
          ∧ array_from_values Samples.patchy [KInt 20; KInt 10]
              (NdArray [2] [20; 10]%Q) 0 false = Ok out0
          ∧ ∀ e i,
              e < length (value_rows (NdArray [2] [20; 10]%Q)) →
              i < cells_of w →
              projection_at Samples.patchy Samples.patchy_cnt w
                (reindex Samples.patchy [KInt 20; KInt 10]
                   (nth e (value_rows (NdArray [2] [20; 10]%Q)) []))
                7 out out0 e i.
Proof.
  split; [reflexivity|]. split; [reflexivity|]. split; [reflexivity|].
  eexists. split; [vm_compute; reflexivity|].
  apply (C4_weighted_projection "GridPolyConv"
           (PTuple [KInt 10; KInt 20])
           Samples.patchy_idx Samples.patchy_cnt
           Samples.patchy [KInt 20; KInt 10]
           (NdArray [2] [20; 10]%Q) 7 false);
    reflexivity.
Defined.

(** C4, as first stated, fails: in a cell of three levels with counts 3, 2
    and 1 the weights sum to [1 - 2^-53] in float64, so that
    [(1 - coverage) * fill] is [2^-53] for a fill of 1; added to the
    weighted sum of the values 5, 5 and 5 it is rounded away, and the
    output is the same with a fill of 1 as with a fill of 0. *)
Lemma C4_counterexample :
  __init__ "GridPolyConv" (PTuple [KInt 10; KInt 20; KInt 30])
    (PIntArray Samples.sixths_idx) (PIntArray Samples.sixths_cnt)
  = Ok Samples.sixths
  ∧ ∃ w out out0,
      weight Samples.sixths = Some w
      ∧ array_from_values Samples.sixths [KInt 10; KInt 20; KInt 30]
          (NdArray [3] [5; 5; 5]%Q) 1 false = Ok out
      ∧ array_from_values Samples.sixths [KInt 10; KInt 20; KInt 30]
          (NdArray [3] [5; 5; 5]%Q) 0 false = Ok out0
      ∧ coverage w 0 = (9007199254740991 # 9007199254740992)%Q
      ∧ (0 < coverage w 0 < 1)%Q
      ∧ ((1 - clip 0 1 (coverage w 0)) * 1 == pow2 (-53))%Q
      ∧ out_at w out0 0 0 = (5629499534213119 # 1125899906842624)%Q
      ∧ out_at w out 0 0 = out_at w out0 0 0
      ∧ ¬ (out_at w out 0 0 - out_at w out0 0 0
           == (1 - clip 0 1 (coverage w 0)) * 1)%Q.
Proof.
  split; [reflexivity|].
  eexists. eexists. eexists.
  split; [reflexivity|].
  split; [vm_compute; reflexivity|].
  split; [vm_compute; reflexivity|].
  split; [vm_compute; reflexivity|].
  split; [split; vm_compute; reflexivity|].
  split; [vm_compute; reflexivity|].
  split; [vm_compute; reflexivity|].
  split; [vm_compute; reflexivity|].
  intros H. vm_compute in H. discriminate H.
Qed.

(** ** The cache *)

Section find_cache_facts.

Lemma last_dot_suffix_app (h t x : string) :
  last_dot_suffix t = Some x → last_dot_suffix (h ++ t) = Some x.
Proof.
  intros Ht. induction h as [|c h IH]; [exact Ht|].
  change (String c h ++ t) with (String c (h ++ t)).
  cbn [last_dot_suffix]. rewrite IH. reflexivity.
Qed.

(** A regular file named as [generate_cached_fname] names it passes the
    filter of [find_cache]. *)
Lemma generated_is_cache_file (md5 : string → string)
    (grid vals_d refine : string) (shapes : option string) (c : file_content) :
  is_cache_file (generate_cached_fname md5 grid vals_d refine shapes, File c)
  = true.
Proof.
  unfold is_cache_file, generate_cached_fname. cbn [fst snd].
  destruct shapes as [sh|].
  - change ("c" ++ ?x) with (String "c" x). cbn [String.get suffix].
    rewrite (last_dot_suffix_app _ _ ".gpc"); [reflexivity|].
    apply last_dot_suffix_app. reflexivity.
  - change ("c" ++ ?x) with (String "c" x). cbn [String.get suffix].
    rewrite (last_dot_suffix_app _ _ ".gpc"); reflexivity.
Qed.

Lemma elem_of_filter_head {T} (f : T → bool) (xs : list T) (x : T) :
  x ∈ xs → f x = true →
  ∃ y ys, List.filter f xs = y :: ys ∧ y ∈ xs ∧ f y = true.
Proof.
  intros Hx Hf.
  assert (Hin : In x (List.filter f xs))
    by (apply filter_In; split; [apply list_elem_of_In; exact Hx|exact Hf]).
  destruct (List.filter f xs) as [|y ys] eqn:E; [destruct Hin|].
  exists y, ys. split; [reflexivity|].
  assert (Hy : In y (List.filter f xs)) by (rewrite E; left; reflexivity).
  apply filter_In in Hy as [Hy1 Hy2]. split; [apply list_elem_of_In|]; assumption.
Qed.

End find_cache_facts.




(** The cheap fingerprint finds the file stored under the strict one, the
    strict fingerprint of other geometries does not. *)
Lemma find_cache_strict_file :
  find_cache 1 Samples.world_strict "data"
    (generate_cached_fname Samples.fixed_md5 "grid" "[10, 20]" "1" None)
  = Some (MkPath "data" "c0123abcd0123abcd.gpc")
  ∧ find_cache 2 Samples.world_strict "data" "c0123abcd89abcdef.gpc" = None
  ∧ find_cache 2 Samples.world_strict "data" "c0123abcd0123abcd.gpc"
    = Some (MkPath "data" "c0123abcd0123abcd.gpc").
Proof. repeat split; vm_compute; reflexivity. Qed.

Section file_facts.

Lemma entry_lookup_put_ne (n nm : string) (nd : node) (es : list (string * node)) :
  n ≠ nm → entry_lookup n (entry_put nm nd es) = entry_lookup n es.
Proof.
  intros Hne. induction es as [|[m x] es IH]; simpl.
  - destruct (String.eqb_spec nm n); [congruence|reflexivity].
  - destruct (String.eqb_spec m nm) as [->|Hm]; simpl.
    + destruct (String.eqb_spec nm n); [congruence|reflexivity].
    + destruct (String.eqb_spec m n); [reflexivity|exact IH].
Qed.

Lemma entry_lookup_remove_ne (n nm : string) (es : list (string * node)) :
  n ≠ nm → entry_lookup n (entry_remove nm es) = entry_lookup n es.
Proof.
  intros Hne. unfold entry_remove. induction es as [|[m x] es IH]; simpl;
    [reflexivity|].
  destruct (String.eqb_spec m nm) as [->|Hm]; simpl.
  - destruct (String.eqb_spec nm n); [congruence|exact IH].
  - destruct (String.eqb_spec m n); [reflexivity|exact IH].
Qed.

(** Reading a path after the entries of a directory were replaced. *)
Lemma read_content_set_entries (w : world) (dirname : string) (d : directory)
    (es : list (string * node)) (q : path) :
  fs w !! dirname = Some d →
  (parent q = dirname → entry_lookup (name q) es = entry_lookup (name q) (entries d)) →
  read_content (set_entries w dirname d es) q = read_content w q.
Proof.
  intros Hd Hq. unfold read_content, set_entries. simpl.
  destruct (decide (dirname = parent q)) as [E|Hne].
  - rewrite <- E, lookup_insert_eq, Hd. simpl.
    rewrite (Hq (eq_sym E)). reflexivity.
  - rewrite lookup_insert_ne by exact Hne. reflexivity.
Qed.

Lemma path_name_ne (p q : path) : q ≠ p → parent q = parent p → name q ≠ name p.
Proof. destruct p, q. simpl. intros H -> ->. apply H. reflexivity. Qed.

Lemma open_wb_frame (w w1 : world) (p q : path) :
  open_wb w p = Ok w1 → q ≠ p → read_content w1 q = read_content w q.
Proof.
  unfold open_wb. destruct (fs w !! parent p) as [d|] eqn:Hd; [|discriminate].
  destruct (negb (writable d)); [discriminate|].
  intros H Hq.
  assert (Hw : w1 = set_entries w (parent p) d
                      (entry_put (name p) (File Empty) (entries d)))
    by (destruct (entry_lookup _ _) as [[|]|]; congruence).
  subst w1. apply read_content_set_entries; [exact Hd|].
  intros Hpar. apply entry_lookup_put_ne. apply path_name_ne; assumption.
Qed.

Lemma open_wb_truncates (w w1 : world) (p : path) :
  open_wb w p = Ok w1 → read_content w1 p = Ok Empty.
Proof.
  unfold open_wb. destruct (fs w !! parent p) as [d|] eqn:Hd; [|discriminate].
  destruct (negb (writable d)); [discriminate|].
  intros H.
  assert (Hw : w1 = set_entries w (parent p) d
                      (entry_put (name p) (File Empty) (entries d)))
    by (destruct (entry_lookup _ _) as [[|]|]; congruence).
  subst w1. unfold read_content, set_entries. simpl.
  rewrite lookup_insert_eq. simpl. rewrite entry_lookup_put. reflexivity.
Qed.

Lemma open_wb_error (w : world) (p : path) (e : exn) :
  open_wb w p = Raise e → ∃ msg, e = OSError msg.
Proof.
  unfold open_wb. destruct (fs w !! parent p) as [d|]; [|intros [= <-]; eauto].
  destruct (negb (writable d)); [intros [= <-]; eauto|].
  destruct (entry_lookup _ _) as [[|]|]; try discriminate.
  intros [= <-]. eauto.
Qed.

Lemma write_content_frame (w : world) (p q : path) (c : file_content) :
  q ≠ p → read_content (write_content w p c) q = read_content w q.
Proof.
  intros Hq. unfold write_content.
  destruct (fs w !! parent p) as [d|] eqn:Hd; [|reflexivity].
  apply read_content_set_entries; [exact Hd|].
  intros Hpar. apply entry_lookup_put_ne. apply path_name_ne; assumption.
Qed.

End file_facts.

Section world_facts.

(** The worlds that differ from [w] in the entries of one directory. *)
Lemma set_entries_same_but (w : world) (dirname : string) (d : directory)
    (es : list (string * node)) :
  same_but dirname w (set_entries w dirname d es).
Proof.
  unfold same_but, set_entries. simpl. repeat split.
  intros d2 Hne. apply lookup_insert_ne. congruence.
Qed.

Lemma same_but_refl (dirname : string) (w : world) : same_but dirname w w.
Proof. unfold same_but. auto. Qed.

Lemma same_but_trans (dirname : string) (w1 w2 w3 : world) :
  same_but dirname w1 w2 → same_but dirname w2 w3 → same_but dirname w1 w3.
Proof.
  unfold same_but. intros (A1 & B1 & C1 & D1) (A2 & B2 & C2 & D2).
  repeat split; try congruence. intros d Hd. rewrite D2, D1 by exact Hd.
  reflexivity.
Qed.

Lemma open_wb_same_but (w w1 : world) (p : path) :
  open_wb w p = Ok w1 → same_but (parent p) w w1.
Proof.
  unfold open_wb. destruct (fs w !! parent p) as [d|]; [|discriminate].
  destruct (negb (writable d)); [discriminate|].
  destruct (entry_lookup _ _) as [[|]|]; try discriminate;
    intros [= <-]; apply set_entries_same_but.
Qed.

Lemma write_content_same_but (w : world) (p : path) (c : file_content) :
  same_but (parent p) w (write_content w p c).
Proof.
  unfold write_content. destruct (fs w !! parent p) as [d|];
    [apply set_entries_same_but|apply same_but_refl].
Qed.

Lemma os_remove_same_but (w w1 : world) (p : path) (r : result unit) :
  os_remove w p = (w1, r) → same_but (parent p) w w1.
Proof.
  unfold os_remove. destruct (fs w !! parent p) as [d|];
    [|intros [= <- _]; apply same_but_refl].
  destruct (entry_lookup _ _) as [[c|]|];
    try (intros [= <- _]; apply same_but_refl).
  destruct (writable d); intros [= <- _];
    [apply set_entries_same_but|apply same_but_refl].
Qed.

Variables (dirname : string) (w w' : world).
Hypothesis Hsame : same_but dirname w w'.

Lemma same_but_pickle_dump (obj : GridPolyConv) :
  pickle_dump w' obj = pickle_dump w obj.
Proof using Hsame.
  destruct Hsame as (Hi & Hl & _). unfold pickle_dump. rewrite Hi, Hl.
  reflexivity.
Qed.

Lemma same_but_file_write (q : path) : file_write w' q = file_write w q.
Proof using Hsame.
  destruct Hsame as (_ & _ & Hn & _). unfold file_write. rewrite Hn.
  reflexivity.
Qed.

Lemma same_but_open_wb (d2 fname : string) :
  d2 ≠ dirname → can_open w' d2 fname ↔ can_open w d2 fname.
Proof using Hsame.
  destruct Hsame as (_ & _ & _ & Hfs). intros Hne.
  unfold can_open, open_wb. cbn [parent name]. rewrite (Hfs d2 Hne).
  destruct (fs w !! d2) as [d|]; [|reflexivity].
  destruct (negb (writable d)); [reflexivity|].
  destruct (entry_lookup _ _) as [[|]|]; reflexivity.
Qed.

Lemma same_but_read_content (q : path) :
  parent q ≠ dirname → read_content w' q = read_content w q.
Proof using Hsame.
  destruct Hsame as (_ & _ & _ & Hfs). intros Hne.
  unfold read_content. rewrite (Hfs _ Hne). reflexivity.
Qed.

Lemma same_but_can_store (d2 fname : string) (obj : GridPolyConv) :
  d2 ≠ dirname → can_store w' d2 fname obj ↔ can_store w d2 fname obj.
Proof using Hsame.
  intros Hne. unfold can_store.
  rewrite (same_but_open_wb _ _ Hne), same_but_pickle_dump.
  destruct Hsame as (_ & _ & -> & _). reflexivity.
Qed.

End world_facts.

Section store_facts.

Variables (cache_fname : string) (obj : GridPolyConv).

(** The ways [to_pickle] ends. *)
Lemma to_pickle_cases (w w' : world) (p : path) (r : result unit) :
  to_pickle obj w p = (w', r) →
  (¬ can_open w (parent p) (name p) ∧ w' = w ∧ ∃ msg, r = Raise (OSError msg))
  ∨ (∃ w1, open_wb w p = Ok w1
           ∧ match pickle_dump w obj, file_write w p with
             | Ok c, Ok _ => r = Ok tt ∧ w' = write_content w1 p c
             | Ok _, Raise e | Raise e, _ => r = Raise e ∧ w' = w1
             end).
Proof.
  unfold to_pickle, can_open. destruct p as [dn fn]. cbn [parent name].
  destruct (open_wb w (MkPath dn fn)) as [w1|e] eqn:Ho.
  - pose proof (open_wb_same_but _ _ _ Ho) as Hs.
    rewrite (same_but_pickle_dump _ _ _ Hs), (same_but_file_write _ _ _ Hs).
    intros H. right. exists w1. split; [reflexivity|].
    destruct (pickle_dump w obj) as [c|e];
      [destruct (file_write w (MkPath dn fn)) as [[]|e]|];
      injection H as <- <-; auto.
  - destruct (open_wb_error _ _ _ Ho) as [msg ->].
    intros [= <- <-]. left. simpl. eauto.
Qed.

(** The four ways [write_cache] ends: written; PicklingError re-raised; the
    file could not be created; or it was created and another failure was
    turned into "try again". *)
Lemma write_cache_cases (w w' : world) (dirname : string) (r : result bool) :
  write_cache cache_fname obj w dirname = (w', r) →
  same_but dirname w w'
  ∧ ((can_store w dirname cache_fname obj
      ∧ r = Ok false ∧ stored_at w' dirname cache_fname obj)
     ∨ (can_open w dirname cache_fname
        ∧ pickle_dump w obj = Raise PicklingError
        ∧ r = Raise PicklingError)
     ∨ (¬ can_open w dirname cache_fname ∧ r = Ok true ∧ w' = w)
     ∨ (can_open w dirname cache_fname
        ∧ ¬ can_store w dirname cache_fname obj
        ∧ pickle_dump w obj ≠ Raise PicklingError
        ∧ r = Ok true
        ∧ read_content w' (MkPath dirname cache_fname) = Ok Empty)).
Proof.
  unfold write_cache.
  destruct (to_pickle obj w (MkPath dirname cache_fname)) as [w1 r1] eqn:Hp.
  destruct (to_pickle_cases _ _ _ _ Hp)
    as [(Hno & -> & msg & ->)|(w0 & Ho & Hcase)]; cbn [parent name] in *.
  - intros [= <- <-]. split; [apply same_but_refl|].
    right. right. left. auto.
  - pose proof (open_wb_same_but _ _ _ Ho) as Hs. cbn [parent] in Hs.
    assert (Hopen : can_open w dirname cache_fname)
      by (unfold can_open; rewrite Ho; exact I).
    unfold can_store, file_write in *. cbn [parent] in *.
    destruct (pickle_dump w obj) as [c|e] eqn:Hd.
    + destruct (bool_decide (dirname ∈ no_space w)) eqn:Hn.
      * apply bool_decide_eq_true in Hn. destruct Hcase as [-> ->].
        intros [= <- <-]. split; [exact Hs|].
        right. right. right. repeat split; try assumption.
        -- intros (_ & _ & Hn'). contradiction.
        -- discriminate.
        -- apply (open_wb_truncates _ _ _ Ho).
      * apply bool_decide_eq_false in Hn. destruct Hcase as [-> ->].
        intros [= <- <-].
        split.
        { apply (same_but_trans _ _ _ _ Hs).
          apply (write_content_same_but w0 (MkPath dirname cache_fname)). }
        left. split; [split; [exact Hopen|split; [exact I|exact Hn]]|].
        split; [reflexivity|].
        destruct (pickle_dump_Ok _ _ _ Hd) as [-> _].
        unfold stored_at. apply read_write_content.
        apply (open_wb_fs _ _ _ Ho).
    + destruct Hcase as [-> ->]. intros H.
      assert (Hcases : (e = PicklingError ∧ r = Raise PicklingError ∧ w' = w0)
                       ∨ (e ≠ PicklingError ∧ r = Ok true ∧ w' = w0)).
      { destruct e; simpl in H; injection H as <- <-;
          ((left; auto; fail) || (right; split; [discriminate|auto])). }
      destruct Hcases as [(-> & -> & ->)|(Hne & -> & ->)].
      * split; [exact Hs|]. right. left. auto.
      * split; [exact Hs|]. right. right. right.
        split; [exact Hopen|]. split; [intros (_ & Hret & _); exact Hret|].
        split; [congruence|]. split; [reflexivity|].
        apply (open_wb_truncates _ _ _ Ho).
Qed.

Lemma store_outcome_of_store (rq : request) (w w' : world)
    (r : result GridPolyConv) :
  store rq cache_fname obj w = (w', r) →
  store_outcome rq cache_fname obj w w' r.
Proof.
  unfold store, store_outcome, attempted.
  destruct (override rq) as [d|].
  - destruct (write_cache cache_fname obj w d) as [w1 r1] eqn:H1.
    destruct (write_cache_cases _ _ _ _ H1)
      as (Hs & [(Hc & -> & Hst)|[(Ho & Hd & ->)|[(Ho & -> & ->)
                |(Ho & Hc & Hd & -> & He)]]]);
      intros [= <- <-].
    + split; [auto|]. split.
      { split; [discriminate|]. intros [Hd _].
        destruct Hc as (_ & Hr & _). rewrite Hd in Hr. destruct Hr. }
      split; [|auto].
      intros q Hq. apply (same_but_read_content _ _ _ Hs). exact Hq.
    + split; [auto|]. split; [split; eauto|].
      split; [|intros (_ & Hr & _); rewrite Hd in Hr; destruct Hr].
      intros q Hq. apply (same_but_read_content _ _ _ Hs). exact Hq.
    + split; [auto|]. split.
      { split; [discriminate|]. intros [_ (d' & -> & Hc)]. contradiction. }
      split; [reflexivity|]. intros (Hc & _). contradiction.
    + split; [auto|]. split.
      { split; [discriminate|]. intros [Hd' _]. contradiction. }
      split; [|intros; contradiction].
      intros q Hq. apply (same_but_read_content _ _ _ Hs). exact Hq.
  - destruct (write_cache cache_fname obj w (vector_dir rq)) as [w1 r1] eqn:H1.
    destruct (write_cache_cases _ _ _ _ H1)
      as (Hs & [(Hc & -> & Hst)|[(Ho & Hd & ->)|[(Ho & -> & ->)
                |(Ho & Hc & Hd & -> & He)]]]).
    + intros [= <- <-]. split; [auto|]. split.
      { split; [discriminate|]. intros [Hd _].
        destruct Hc as (_ & Hr & _). rewrite Hd in Hr. destruct Hr. }
      split; [|split; [auto|intros; contradiction]].
      intros q Hq. apply (same_but_read_content _ _ _ Hs). tauto.
    + intros [= <- <-]. split; [auto|]. split; [split; eauto|].
      split.
      { intros q Hq. apply (same_but_read_content _ _ _ Hs). tauto. }
      split; intros H; try intros H'.
      * destruct H as (_ & Hr & _). rewrite Hd in Hr. destruct Hr.
      * destruct H' as (_ & Hr & _). rewrite Hd in Hr. destruct Hr.
    + destruct (write_cache cache_fname obj w cwd) as [w2 r2] eqn:H2.
      destruct (write_cache_cases _ _ _ _ H2)
        as (Hs2 & [(Hc2 & -> & Hst2)|[(Ho2 & Hd2 & ->)|[(Ho2 & -> & ->)
                   |(Ho2 & Hc2 & Hd2 & -> & He2)]]]);
        intros [= <- <-].
      * split; [auto|]. split.
        { split; [discriminate|]. intros [Hd _].
          destruct Hc2 as (_ & Hr & _). rewrite Hd in Hr. destruct Hr. }
        split; [|split; [intros (Hc & _); contradiction|auto]].
        intros q Hq. apply (same_but_read_content _ _ _ Hs2). tauto.
      * split; [auto|]. split; [split; eauto|].
        split.
        { intros q Hq. apply (same_but_read_content _ _ _ Hs2). tauto. }
        split; intros H; try intros H'.
        -- destruct H as (Hc & _). contradiction.
        -- destruct H' as (_ & Hr & _). rewrite Hd2 in Hr. destruct Hr.
      * split; [auto|]. split.
        { split; [discriminate|].
          intros [_ (d' & [->| ->] & Hc)]; contradiction. }
        split; [reflexivity|].
        split; intros H; try intros H'.
        -- destruct H as (Hc & _). contradiction.
        -- destruct H' as (Hc & _). contradiction.
      * split; [auto|]. split.
        { split; [discriminate|]. intros [Hd' _]. contradiction. }
        split.
        { intros q Hq. apply (same_but_read_content _ _ _ Hs2). tauto. }
        split; intros H; try intros H'.
        -- destruct H as (Hc & _). contradiction.
        -- contradiction.
    + pose proof (same_but_pickle_dump _ _ _ Hs obj) as Hpd.
      destruct (write_cache cache_fname obj w1 cwd) as [w2 r2] eqn:H2.
      destruct (write_cache_cases _ _ _ _ H2)
        as (Hs2 & [(Hc2 & -> & Hst2)|[(Ho2 & Hd2 & ->)|[(Ho2 & -> & ->)
                   |(Ho2 & Hc2 & Hd2 & -> & He2)]]]);
        intros [= <- <-].
      * split; [auto|]. split.
        { split; [discriminate|]. intros [Hd' _]. contradiction. }
        split.
        { intros q Hq.
          rewrite (same_but_read_content _ _ _ Hs2) by tauto.
          apply (same_but_read_content _ _ _ Hs). tauto. }
        split; [intros; contradiction|]. intros _ _. exact Hst2.
      * rewrite Hpd in Hd2. contradiction.
      * split; [auto|]. split.
        { split; [discriminate|]. intros [Hd' _]. contradiction. }
        split.
        { intros q Hq. apply (same_but_read_content _ _ _ Hs). tauto. }
        split; [intros; contradiction|]. intros _ Hcw.
        destruct (decide (cwd = vector_dir rq)) as [E|Hne].
        -- rewrite E in Hcw. contradiction.
        -- apply (same_but_can_store _ _ _ Hs) in Hcw; [|exact Hne].
           destruct Hcw as (Hcw & _). contradiction.
      * split; [auto|]. split.
        { split; [discriminate|]. intros [Hd' _]. contradiction. }
        split.
        { intros q Hq.
          rewrite (same_but_read_content _ _ _ Hs2) by tauto.
          apply (same_but_read_content _ _ _ Hs). tauto. }
        split; [intros; contradiction|]. intros _ Hcw.
        destruct (decide (cwd = vector_dir rq)) as [E|Hne].
        -- rewrite E in Hcw. contradiction.
        -- apply (same_but_can_store _ _ _ Hs) in Hcw; [|exact Hne].
           contradiction.
Qed.

End store_facts.

(** C1 (amended). For a call with caching level 1 or 2 that finds no cache
    and builds a new object: with the override directory set, the store is
    attempted there only; otherwise it is attempted in the directory of the
    vector file and, when that attempt fails, in the current directory.
    The call returns the new object whatever fails, with one exception: a
    PicklingError raised while the file is written is passed on to the
    caller.  That happens exactly when pickle does not find the class of
    the object and the file could be opened in an attempted directory; a
    file that cannot be created, a class that pickle refuses for being
    local, or a device without room never reach the caller. *)
Theorem C1_store_failure_not_fatal (md5 : string → string) (rq : request)
    (fname : string) (obj : GridPolyConv) (w w' : world)
    (r : result GridPolyConv) :
  caching rq = 1%Z ∨ caching rq = 2%Z →
  cache_fname_of md5 rq = Ok fname →
  search rq w fname = Ok None →
  build rq = Ok obj →
  from_grid_vector md5 rq w = (w', r) →
  store_outcome rq fname obj w w' r.
Proof.
  intros Hc Hf Hs Hb. unfold from_grid_vector.
  assert (H0 : (caching rq =? 0)%Z = false) by (apply Z.eqb_neq; lia).
  rewrite H0, Hf, Hs. unfold build_and_store. rewrite Hb.
  apply store_outcome_of_store.
Qed.

Lemma C1_store_failure_not_fatal_witness :
  (caching (Samples.request_of "LocalConv" None 1) = 1%Z
   ∨ caching (Samples.request_of "LocalConv" None 1) = 2%Z)
  ∧ store_outcome (Samples.request_of "LocalConv" None 1) "c0123abcd.gpc"
      Samples.local_plain Samples.world_local
      (from_grid_vector Samples.fixed_md5
         (Samples.request_of "LocalConv" None 1) Samples.world_local).1
      (from_grid_vector Samples.fixed_md5
         (Samples.request_of "LocalConv" None 1) Samples.world_local).2.
Proof.
  split; [left; reflexivity|].
  apply (C1_store_failure_not_fatal Samples.fixed_md5
           (Samples.request_of "LocalConv" None 1) "c0123abcd.gpc"
           Samples.local_plain Samples.world_local).
  - left. reflexivity.
  - reflexivity.
  - reflexivity.
  - reflexivity.
  - vm_compute. reflexivity.
Defined.

(** C1, as first stated, fails twice.  When pickle does not find the class
    of the object under its name, the PicklingError raised while the cache
    file is written is passed on to the caller.  And with the override
    directory set the store is attempted there only: when nothing can be
    created in it, nothing is written to the directory of the vector file
    nor to the current directory, although both are writable. *)
Lemma C1_counterexample :
  (from_grid_vector Samples.fixed_md5
     (Samples.request_of "RemovedConv" None 1) (Samples.world_rw ∅)).2
  = Raise PicklingError
  ∧ (from_grid_vector Samples.fixed_md5
       (Samples.request_of "GridPolyConv" (Some "cache") 1)
       Samples.world_override)
    = (Samples.world_override, Ok Samples.plain)
  ∧ can_open Samples.world_override "data" "c0123abcd.gpc"
  ∧ can_open Samples.world_override "." "c0123abcd.gpc"
  ∧ raises (read_content Samples.world_override (MkPath "data" "c0123abcd.gpc"))
  ∧ raises (read_content Samples.world_override (MkPath "." "c0123abcd.gpc")).
Proof.
  split; [vm_compute; reflexivity|].
  split; [vm_compute; reflexivity|].
  repeat split; vm_compute; exact I.
Qed.

(** The failures that are passed over leave their traces.  A class defined
    inside a function is refused by pickle after the file was created: the
    call returns the new object and leaves an empty file in both
    directories; the next call finds the empty file, cannot load it,
    removes it and builds the object again.  On a device without room the
    file of the first attempt stays empty and the object is stored in the
    current directory. *)
Lemma passed_over_failures :
  (∃ w',
     from_grid_vector Samples.fixed_md5
       (Samples.request_of "LocalConv" None 1) Samples.world_local
     = (w', Ok Samples.local_plain)
     ∧ read_content w' (MkPath "data" "c0123abcd.gpc") = Ok Empty
     ∧ read_content w' (MkPath "." "c0123abcd.gpc") = Ok Empty
     ∧ search (Samples.request_of "LocalConv" None 1) w' "c0123abcd.gpc"
       = Ok (Some (MkPath "data" "c0123abcd.gpc"))
     ∧ from_pickle w' (MkPath "data" "c0123abcd.gpc") = Raise EOFError
     ∧ (from_grid_vector Samples.fixed_md5
          (Samples.request_of "LocalConv" None 1) w').2
       = Ok Samples.local_plain)
  ∧ (∃ w',
       from_grid_vector Samples.fixed_md5
         (Samples.request_of "GridPolyConv" None 1) Samples.world_full
       = (w', Ok Samples.plain)
       ∧ read_content w' (MkPath "data" "c0123abcd.gpc") = Ok Empty
       ∧ stored_at w' "." "c0123abcd.gpc" Samples.plain).
Proof.
  split; eexists; (split; [vm_compute; reflexivity|]);
    repeat split; vm_compute; reflexivity.
Qed.

(** C8: the corrupt cache file sits in a directory where nothing can be
    removed.  The file is found and does not unpickle; [os.remove] then
    raises, the error reaches the caller, the file is still there and
    nothing is rebuilt. *)
Theorem C8_remove_failure_escalates :
  search (Samples.request_of "GridPolyConv" None 1) Samples.world_corrupt_ro
    "c0123abcd.gpc"
  = Ok (Some (MkPath "data" "c0123abcd.gpc"))
  ∧ from_pickle Samples.world_corrupt_ro (MkPath "data" "c0123abcd.gpc")
    = Raise UnpicklingError
  ∧ from_grid_vector Samples.fixed_md5
      (Samples.request_of "GridPolyConv" None 1) Samples.world_corrupt_ro
    = (Samples.world_corrupt_ro, Raise (OSError "Permission denied"))
  ∧ build (Samples.request_of "GridPolyConv" None 1) = Ok Samples.plain.
Proof. repeat split; vm_compute; reflexivity. Qed.

(** Where the corrupt file can be removed, it is removed and the object is
    rebuilt and stored in its place. *)
Lemma corrupt_cache_rebuilt :
  ∃ w',
    from_grid_vector Samples.fixed_md5
      (Samples.request_of "GridPolyConv" None 1) Samples.world_corrupt_rw
    = (w', Ok Samples.plain)
    ∧ stored_at w' "data" "c0123abcd.gpc" Samples.plain.
Proof. eexists. split; vm_compute; reflexivity. Qed.

(** In general: a cache file that is found, does not load and can be
    removed is removed, and the call goes on to build and store. *)
Lemma unreadable_cache_removed (md5 : string → string) (rq : request)
    (fname : string) (p : path) (w w1 : world) (e : exn) :
  caching rq = 1%Z ∨ caching rq = 2%Z →
  cache_fname_of md5 rq = Ok fname →
  search rq w fname = Ok (Some p) →
  from_pickle w p = Raise e →
  os_remove w p = (w1, Ok tt) →
  from_grid_vector md5 rq w = build_and_store rq fname w1
  ∧ raises (read_content w1 p).
Proof.
  intros Hc Hf Hs Hl Hr. unfold from_grid_vector.
  assert (H0 : (caching rq =? 0)%Z = false) by (apply Z.eqb_neq; lia).
  rewrite H0, Hf, Hs, Hl, Hr. split; [reflexivity|].
  unfold os_remove in Hr. unfold read_content.
  destruct (fs w !! parent p) as [d|] eqn:Hd; [|discriminate].
  destruct (entry_lookup (name p) (entries d)) as [[c|]|]; try discriminate.
  destruct (writable d); [|discriminate]. injection Hr as <-. simpl.
  rewrite lookup_insert_eq. simpl.
  assert (Hn : entry_lookup (name p) (entry_remove (name p) (entries d)) = None).
  { unfold entry_remove. induction (entries d) as [|[n x] es IH]; [reflexivity|].
    simpl. destruct (String.eqb n (name p)) eqn:E; simpl; [exact IH|].
    rewrite E. exact IH. }
  rewrite Hn. exact I.
Qed.

(** When [os.remove] fails, its error is the result of the call. *)
Lemma remove_failure_propagates (md5 : string → string) (rq : request)
    (fname : string) (p : path) (w w1 : world) (e e' : exn) :
  caching rq = 1%Z ∨ caching rq = 2%Z →
  cache_fname_of md5 rq = Ok fname →
  search rq w fname = Ok (Some p) →
  from_pickle w p = Raise e →
  os_remove w p = (w1, Raise e') →
  from_grid_vector md5 rq w = (w, Raise e').
Proof.
  intros Hc Hf Hs Hl Hr. unfold from_grid_vector.
  assert (H0 : (caching rq =? 0)%Z = false) by (apply Z.eqb_neq; lia).
  rewrite H0, Hf, Hs, Hl, Hr.
  unfold os_remove in Hr.
  destruct (fs w !! parent p) as [d|]; [|injection Hr as <- _; reflexivity].
  destruct (entry_lookup (name p) (entries d)) as [[c|]|];
    try (injection Hr as <- _; reflexivity).
  destruct (writable d); [discriminate|]. injection Hr as <- _. reflexivity.
Qed.

(** ** The time window *)

(** C6. A window whose length in months is a multiple of 12 (a full year,
    or a wrapping window such as July to June) selects every timestamp; a
    window whose start month is after its end month, of another length,
    selects the months from the start on or up to the end; any other
    window selects the months from the start up to the end. *)
Theorem C6_month_selection (start_month end_month : Z) (month : list Z) :
  window_mask start_month end_month month.
Proof.
  unfold window_mask, month_sel, month_mask_of.
  split; [|split].
  - intros H. apply Z.eqb_eq in H. rewrite H. reflexivity.
  - intros H Hw. apply Z.eqb_neq in H. rewrite H.
    rewrite (proj2 (Z.ltb_lt _ 1)) by lia. reflexivity.
  - intros H Hc. apply Z.eqb_neq in H. rewrite H.
    rewrite (proj2 (Z.ltb_ge _ 1)) by lia. reflexivity.
Qed.

(** July to June uses every month; November to February wraps; January to
    March is contiguous. *)
Lemma month_selection_examples :
  month_sel 7 6 [1; 6; 7; 12]%Z = [true; true; true; true]
  ∧ month_sel 11 2 [1; 2; 3; 10; 11; 12]%Z
    = [true; true; false; false; true; true]
  ∧ month_sel 1 3 [1; 3; 4; 12]%Z = [true; true; false; false].
Proof. repeat split; reflexivity. Qed.

(** The months of a parsed window are calendar months. *)
Lemma month_number_range (txt : string) (m : Z) :
  month_number txt = Ok m → (1 <= m <= 12)%Z.
Proof.
  unfold month_number.
  destruct (String.eqb txt "") eqn:E; [discriminate|].
  assert (Hne : title txt ≠ "").
  { destruct txt as [|c r]; [discriminate|]. unfold title. simpl.
    destruct (is_upper c || is_lower c); discriminate. }
  destruct (bool_decide (title txt ∈ month_abbr)) eqn:Ha.
  - apply bool_decide_eq_true in Ha. intros [= <-].
    unfold month_abbr in *.
    repeat (apply elem_of_cons in Ha as [Ha|Ha];
            [first [congruence | rewrite Ha; vm_compute; split; discriminate]|]).
    inversion Ha.
  - destruct (bool_decide (title txt ∈ month_name)) eqn:Hn; [|discriminate].
    apply bool_decide_eq_true in Hn. intros [= <-].
    unfold month_name in *.
    repeat (apply elem_of_cons in Hn as [Hn|Hn];
            [first [congruence | rewrite Hn; vm_compute; split; discriminate]|]).
    inversion Hn.
Qed.

Lemma parse_time_stats_range (time_stats : string) (spec : time_spec) :
  parse_time_stats time_stats = Ok spec →
  (1 <= start_month spec <= 12)%Z ∧ (1 <= end_month spec <= 12)%Z.
Proof.
  unfold parse_time_stats.
  destruct (0 <? count_char ":" time_stats)%nat.
  2:{ intros [= <-]. simpl. lia. }
  destruct (negb _); [discriminate|].
  destruct (split_on ":" time_stats) as [|tw [|st [|? ?]]]; try discriminate.
  destruct (String.eqb tw "annual").
  { intros [= <-]. simpl. lia. }
  destruct (0 <? count_char "-" tw)%nat; [|discriminate].
  destruct (negb _); [discriminate|].
  destruct (split_on "-" tw) as [|a [|b [|? ?]]]; try discriminate.
  destruct (month_number a) as [ma|] eqn:Ea; [|discriminate].
  destruct (month_number b) as [mb|] eqn:Eb; [|discriminate].
  intros [= <-]. simpl.
  split; eapply month_number_range; eassumption.
Qed.

(** For calendar months, every timestamp is used exactly for January to
    December and for the windows that start the month after they end. *)
Lemma all_months_iff (start_month end_month : Z) :
  (1 <= start_month <= 12)%Z → (1 <= end_month <= 12)%Z →
  month_mask_of start_month end_month = AllMonths
  ↔ (start_month = 1 ∧ end_month = 12)%Z ∨ (start_month = end_month + 1)%Z.
Proof.
  intros Hs He. unfold month_mask_of.
  destruct ((end_month - start_month + 1) mod 12 =? 0)%Z eqn:E.
  - apply Z.eqb_eq in E. split; [intros _|reflexivity].
    apply Z.mod_divide in E; [|lia]. destruct E as [k Hk]. lia.
  - apply Z.eqb_neq in E.
    split; [destruct (_ <? 1)%Z; discriminate|].
    intros [[-> ->]| ->]; exfalso; apply E.
    + reflexivity.
    + replace (end_month - (end_month + 1) + 1)%Z with 0%Z by lia. reflexivity.
Qed.

(** ** The yearly statistics *)

Lemma argmin_from_spec (xs : list Q) (i best : nat) (bv : Q) (d : Q) :
  ∀ pre, length pre = i → best < i → nth best pre d = bv →
         (∀ j, j < i → (bv <= nth j pre d)%Q) →
         let k := argmin_from i best bv xs in
         k < i + length xs
         ∧ ∀ j, j < i + length xs →
                (nth k (pre ++ xs) d <= nth j (pre ++ xs) d)%Q.
Proof.
  revert i best bv. induction xs as [|x xs IH]; intros i best bv pre Hl Hb Hn Hmin.
  - simpl. rewrite app_nil_r, Nat.add_0_r. split; [lia|].
    intros j Hj. rewrite Hn. apply Hmin. exact Hj.
  - cbn [argmin_from]. cbv zeta.
    replace (pre ++ x :: xs)%list with ((pre ++ [x]) ++ xs)%list
      by (rewrite <- app_assoc; reflexivity).
    replace (i + length (x :: xs))%nat with (S i + length xs)%nat by (simpl; lia).
    assert (Hx : nth i (pre ++ [x])%list d = x)
      by (rewrite app_nth2 by lia; rewrite Hl, Nat.sub_diag; reflexivity).
    destruct (Qlt_le_dec x bv) as [Hlt|Hle].
    + apply (IH (S i) i x (pre ++ [x])%list).
      * rewrite length_app. simpl. lia.
      * lia.
      * exact Hx.
      * intros j Hj. destruct (Nat.eq_dec j i) as [->|Hne].
        -- rewrite Hx. apply Qle_refl.
        -- rewrite app_nth1 by lia. apply Qle_trans with bv.
           ++ apply Qlt_le_weak. exact Hlt.
           ++ apply Hmin. lia.
    + apply (IH (S i) best bv (pre ++ [x])%list).
      * rewrite length_app. simpl. lia.
      * lia.
      * rewrite app_nth1 by lia. exact Hn.
      * intros j Hj. destruct (Nat.eq_dec j i) as [->|Hne].
        -- rewrite Hx. exact Hle.
        -- rewrite app_nth1 by lia. apply Hmin. lia.
Qed.

(** [argmin] gives the position of a smallest total. *)
Lemma argmin_spec (xs : list Q) (k : nat) :
  argmin xs = Some k →
  k < length xs ∧ ∀ j, j < length xs → (nth k xs 0 <= nth j xs 0)%Q.
Proof.
  destruct xs as [|x xs]; [discriminate|]. intros [= <-].
  apply (argmin_from_spec xs 1 0 x 0%Q [x]); try reflexivity; try lia.
  intros j Hj. destruct j; [apply Qle_refl|lia].
Qed.

(** A refined object whose number of levels is neither the number of
    polygons nor one: the weights of the levels do not broadcast against
    the polygons, and the yearly totals raise. *)
Lemma yearly_raises (self : GridPolyConv) (w : ndarray Q) (spec : time_spec)
    (sel : list bool) (ts : timeseries) :
  weight self = Some w →
  levels_of w ≠ length (poly_idx self) →
  levels_of w ≠ 1%nat →
  yearly self spec (length (poly_idx self)) sel ts
  = Raise (ValueError "operands could not be broadcast together").
Proof.
  intros Hw Hn H1. unfold yearly.
  destruct (year_labels _ _ _ _) as [year bogus].
  unfold weighted. rewrite Hw.
  assert (Hl : length (level_mass w) = levels_of w)
    by (unfold level_mass; rewrite length_map, length_seq; reflexivity).
  rewrite (bool_decide_eq_false_2 (length (level_mass w) = length (poly_idx self)))
    by (rewrite Hl; exact Hn).
  destruct (level_mass w) as [|w0 [|w1 ws]]; simpl in Hl; try reflexivity.
  congruence.
Qed.

(** C2: a refined object of two levels and three polygons.  [weight.sum((1,
    2))] has one entry per level, which does not broadcast against the
    three polygons of the variable: a window with min, median or max
    raises instead of returning the values of a year; without a window, and
    for the mean, the call returns. *)
Theorem C2_level_weights_do_not_broadcast
    (quantile : string → list (list Q) → result (list Q)) :
  length (poly_idx Samples.refined) = 3%nat
  ∧ (∀ w, weight Samples.refined = Some w → length (level_mass w) = 2%nat)
  ∧ array_from_netcdf quantile Samples.refined
      (Series Samples.two_januaries3) (Some "Jan-Mar:min") 0 true
    = Raise (ValueError "operands could not be broadcast together")
  ∧ array_from_netcdf quantile Samples.refined
      (Series Samples.two_januaries3) (Some "Jul-Jun:median") 0 true
    = Raise (ValueError "operands could not be broadcast together")
  ∧ array_from_netcdf quantile Samples.refined
      (Series Samples.two_januaries3) (Some "annual:max") 0 true
    = Raise (ValueError "operands could not be broadcast together")
  ∧ returns (array_from_netcdf quantile Samples.refined
               (Series Samples.two_januaries3) (Some "Jan-Mar:mean") 0 true)
  ∧ returns (array_from_netcdf quantile Samples.refined
               (Series Samples.two_januaries3) (Some "min") 0 true).
Proof.
  split; [reflexivity|]. split; [intros w [= <-]; reflexivity|].
  repeat split; vm_compute; try reflexivity; exact I.
Qed.

(** With as many levels as polygons the call returns, but each polygon is
    weighted by the mass of the level at its position, not by its own
    area: here both polygons have the same area, the totals of the years by
    area are 11 and 6, and yet the first year is returned as the minimum. *)
Lemma level_mass_misranks
    (quantile : string → list (list Q) → result (list Q)) :
  (∀ w, weight Samples.crossed = Some w →
        Forall2 Qeq (level_mass w) [3 # 2; 1 # 2]
        ∧ Forall2 Qeq (catchment_mass Samples.crossed w) [1; 1])%Q
  ∧ ∃ out,
      array_from_netcdf quantile Samples.crossed
        (Series Samples.two_januaries) (Some "Jan-Mar:min") 0 true
      = Ok [(Some "min", out)]
      ∧ Forall2 Qeq (data (ma_data out))
          [(3 # 4) * 1 + (1 # 4) * 10; (3 # 4) * 10 + (1 # 4) * 1]%Q.
Proof.
  split.
  - intros w [= <-]. split; repeat constructor.
  - eexists. split; [vm_compute; reflexivity|]. repeat constructor.
Qed.

(** On an object without weights the water years of a July-to-June window
    are ranked by their totals: of the years with totals 4, 2 and 18 the
    second is the minimum, the third the maximum and the first the
    median. *)
Lemma water_year_statistics
    (quantile : string → list (list Q) → result (list Q)) :
  ∃ lo hi mid,
    array_from_netcdf quantile Samples.plain
      (Series Samples.three_water_years) (Some "Jul-Jun:min,max,median") 0 true
    = Ok [(Some "min", lo); (Some "max", hi); (Some "median", mid)]
    ∧ Forall2 Qeq (data (ma_data lo)) [1; 1]%Q
    ∧ Forall2 Qeq (data (ma_data hi)) [9; 9]%Q
    ∧ Forall2 Qeq (data (ma_data mid)) [2; 2]%Q.
Proof.
  eexists. eexists. eexists. split; [vm_compute; reflexivity|].
  repeat split; repeat constructor.
Qed.

(** * Further properties *)

(** ** Month names *)

Section month_facts.

Lemma to_lower_idem (c : ascii) : to_lower (to_lower c) = to_lower c.
Proof. destruct c as [[] [] [] [] [] [] [] []]; reflexivity. Qed.

Lemma to_upper_lower (c : ascii) : to_upper (to_lower c) = to_upper c.
Proof. destruct c as [[] [] [] [] [] [] [] []]; reflexivity. Qed.

Lemma cased_lower (c : ascii) :
  is_upper (to_lower c) || is_lower (to_lower c) = is_upper c || is_lower c.
Proof. destruct c as [[] [] [] [] [] [] [] []]; reflexivity. Qed.

Lemma uncased_lower (c : ascii) :
  is_upper c || is_lower c = false → to_lower c = c.
Proof. destruct c as [[] [] [] [] [] [] [] []]; (reflexivity || discriminate). Qed.

Lemma title_from_lower (b : bool) (s : string) :
  title_from b (lower s) = title_from b s.
Proof.
  revert b. induction s as [|c r IH]; intros b; [reflexivity|].
  cbn [lower title_from]. rewrite cased_lower.
  destruct (is_upper c || is_lower c) eqn:E.
  - rewrite to_lower_idem, to_upper_lower, IH. reflexivity.
  - rewrite IH, (uncased_lower c E). reflexivity.
Qed.

Lemma lower_empty (s : string) : lower s = "" ↔ s = "".
Proof. destruct s; simpl; split; congruence. Qed.

End month_facts.

(** X1. [month_number] does not look at the case of its argument: two texts
    with the same lower-case form give the same month or the same error. *)
Theorem month_number_ignores_case (a b : string) :
  lower a = lower b → month_number a = month_number b.
Proof.
  intros H. unfold month_number, title.
  rewrite <- (title_from_lower false a), <- (title_from_lower false b), H.
  assert (He : String.eqb a "" = String.eqb b "").
  { destruct (String.eqb_spec a "") as [Ea|Ea];
      destruct (String.eqb_spec b "") as [Eb|Eb];
      try reflexivity; exfalso.
    - apply Eb. apply lower_empty. rewrite <- H. apply lower_empty. exact Ea.
    - apply Ea. apply lower_empty. rewrite H. apply lower_empty. exact Eb. }
  rewrite He. reflexivity.
Qed.

Lemma month_number_ignores_case_witness :
  lower "JULY" = lower "jUly" ∧ month_number "JULY" = month_number "jUly".
Proof.
  split; [reflexivity|].
  apply (month_number_ignores_case "JULY" "jUly"). reflexivity.
Defined.

(** X2. [month_number] returns [m] exactly for a non-empty text whose
    title-cased form is the abbreviation or the full name of month [m], with
    [m] from 1 to 12; every other text raises. *)
Theorem month_number_names (txt : string) (m : Z) :
  month_number txt = Ok m
  ↔ txt ≠ "" ∧ (1 <= m <= 12)%Z
    ∧ (title txt = month_at month_abbr m ∨ title txt = month_at month_name m).
Proof.
  unfold month_number, month_at. split.
  - destruct (String.eqb_spec txt "") as [E|E]; [discriminate|].
    assert (Hne : title txt ≠ "").
    { destruct txt as [|c r]; [congruence|]. unfold title. simpl.
      destruct (is_upper c || is_lower c); discriminate. }
    destruct (bool_decide (title txt ∈ month_abbr)) eqn:Ha.
    + apply bool_decide_eq_true in Ha. intros [= <-]. split; [exact E|].
      unfold month_abbr in Ha |- *.
      repeat (apply elem_of_cons in Ha as [Ha|Ha];
              [first [congruence
                     | rewrite Ha; vm_compute; repeat split; try discriminate;
                       left; reflexivity]|]).
      inversion Ha.
    + destruct (bool_decide (title txt ∈ month_name)) eqn:Hn; [|discriminate].
      apply bool_decide_eq_true in Hn. intros [= <-]. split; [exact E|].
      unfold month_name in Hn |- *.
      repeat (apply elem_of_cons in Hn as [Hn|Hn];
              [first [congruence
                     | rewrite Hn; vm_compute; repeat split; try discriminate;
                       right; reflexivity]|]).
      inversion Hn.
  - intros (E & Hm & H).
    destruct (String.eqb_spec txt "") as [E'|_]; [contradiction|].
    assert (Hcases : (m = 1 ∨ m = 2 ∨ m = 3 ∨ m = 4 ∨ m = 5 ∨ m = 6 ∨ m = 7
                      ∨ m = 8 ∨ m = 9 ∨ m = 10 ∨ m = 11 ∨ m = 12)%Z) by lia.
    destruct H as [H|H]; rewrite H;
      repeat (destruct Hcases as [->|Hcases]; [vm_compute; reflexivity|]);
      subst m; vm_compute; reflexivity.
Qed.

Lemma split_on_nonempty (sep : ascii) (s : string) : split_on sep s ≠ [].
Proof.
  induction s as [|c r IH]; simpl; [discriminate|].
  destruct (Ascii.eqb c sep); [discriminate|].
  destruct (split_on sep r); discriminate.
Qed.

(** X3. A time_stats argument that parses has start and end months from 1
    to 12 and at least one statistic; without a window the months are 1 and
    12 and the statistics are the comma-separated parts of the whole
    argument; a window is never the empty text; and every timestamp is
    selected exactly for January to December and for the windows that start
    in the month after their end. *)
Theorem parse_time_stats_shape (time_stats : string) (spec : time_spec) :
  parse_time_stats time_stats = Ok spec → parsed_shape time_stats spec.
Proof.
  intros H. destruct (parse_time_stats_range _ _ H) as [Hs He].
  unfold parsed_shape. split; [exact Hs|]. split; [exact He|].
  split; [|split; [|split; [|apply all_months_iff; assumption]]].
  - revert H. unfold parse_time_stats.
    destruct (0 <? count_char ":" time_stats)%nat.
    2:{ intros [= <-]. apply split_on_nonempty. }
    destruct (negb _); [discriminate|].
    destruct (split_on ":" time_stats) as [|tw [|st [|? ?]]]; try discriminate.
    destruct (String.eqb tw "annual").
    { intros [= <-]. apply split_on_nonempty. }
    destruct (0 <? count_char "-" tw)%nat; [|discriminate].
    destruct (negb _); [discriminate|].
    destruct (split_on "-" tw) as [|a [|b [|? ?]]]; try discriminate.
    destruct (month_number a); [|discriminate].
    destruct (month_number b); [|discriminate].
    intros [= <-]. apply split_on_nonempty.
  - revert H. unfold parse_time_stats.
    destruct (0 <? count_char ":" time_stats)%nat.
    2:{ intros [= <-] _. auto. }
    destruct (negb _); [discriminate|].
    destruct (split_on ":" time_stats) as [|tw [|st [|? ?]]]; try discriminate.
    destruct (String.eqb tw "annual").
    { intros [= <-]. discriminate. }
    destruct (0 <? count_char "-" tw)%nat; [|discriminate].
    destruct (negb _); [discriminate|].
    destruct (split_on "-" tw) as [|a [|b [|? ?]]]; try discriminate.
    destruct (month_number a); [|discriminate].
    destruct (month_number b); [|discriminate].
    intros [= <-]. discriminate.
  - revert H. unfold parse_time_stats.
    destruct (0 <? count_char ":" time_stats)%nat.
    2:{ intros [= <-]. discriminate. }
    destruct (negb _); [discriminate|].
    destruct (split_on ":" time_stats) as [|tw [|st [|? ?]]]; try discriminate.
    destruct (String.eqb_spec tw "annual") as [->|Hna].
    { intros [= <-] w [= <-]. discriminate. }
    destruct (0 <? count_char "-" tw)%nat eqn:Hd; [|discriminate].
    destruct (negb _); [discriminate|].
    destruct (split_on "-" tw) as [|a [|b [|? ?]]]; try discriminate.
    destruct (month_number a); [|discriminate].
    destruct (month_number b); [|discriminate].
    intros [= <-] w [= <-]. intros ->. discriminate Hd.
Qed.

Lemma parse_time_stats_shape_witness :
  parse_time_stats "Jul-Jun:min,max"
  = Ok (MkTimeSpec (Some "Jul-Jun") ["min"; "max"] 7 6)
  ∧ parsed_shape "Jul-Jun:min,max"
      (MkTimeSpec (Some "Jul-Jun") ["min"; "max"] 7 6).
Proof.
  split; [reflexivity|].
  apply (parse_time_stats_shape "Jul-Jun:min,max"). reflexivity.
Defined.

(** ** The constructor *)

Lemma constructed_object_invariant (cls : string) (p i a : pyval)
    (x : GridPolyConv) :
  __init__ cls p i a = Ok x → object_invariant x.
Proof.
  unfold __init__, object_invariant, ndim. intros H.
  assert (Hp : ∃ l, (match p with
                     | PTuple l | PList l => Ok l
                     | _ => Raise (ValueError "poly_idx must be a tuple or list-like")
                     end) = Ok l) by (destruct p; try discriminate H; eauto).
  destruct Hp as [l Hl]. rewrite Hl in H. simpl in H.
  destruct (bool_decide (NoDup l)) eqn:Hnd; simpl in H; [|discriminate].
  apply bool_decide_eq_true in Hnd.
  destruct i as [| | |idx| |]; try discriminate H.
  destruct (shape idx) as [|L [|nrow [|ncol [|? ?]]]] eqn:Hs; try discriminate H.
  - injection H as <-. simpl. rewrite Hs. split; [exact Hnd|]. left. auto.
  - destruct a as [| | |cnt| |]; try discriminate H.
    destruct (bool_decide (shape cnt = [L; nrow; ncol])) eqn:Hc;
      simpl in H; [|discriminate].
    apply bool_decide_eq_true in Hc.
    destruct L as [|L]; [discriminate|].
    injection H as <-. simpl. rewrite Hs. split; [exact Hnd|]. right.
    split; [reflexivity|]. split; [simpl; discriminate|].
    eexists. eexists. repeat split; try reflexivity; try assumption.
    simpl. rewrite Nat.mul_1_r. reflexivity.
Qed.

(** X4. An object returned by the constructor has distinct polygon keys;
    from a 2D index array it has neither counts nor weights and is masked
    where the index is 0; from a 3D index array it has at least one level,
    counts and weights of the shape of the index array, and is masked where
    the first level is 0. *)
Theorem __init___invariant (cls : string) (p i a : pyval) (x : GridPolyConv) :
  __init__ cls p i a = Ok x → object_invariant x.
Proof. apply constructed_object_invariant. Qed.

Lemma __init___invariant_witness :
  __init__ "GridPolyConv" (PTuple [KInt 10; KInt 20; KInt 30])
    (PIntArray (NdArray [2; 1; 2] [1; 2; 3; 0]%Z))
    (PIntArray (NdArray [2; 1; 2] [3; 2; 1; 0]%Z))
  = Ok Samples.refined
  ∧ object_invariant Samples.refined.
Proof.
  split; [reflexivity|].
  apply (__init___invariant "GridPolyConv" (PTuple [KInt 10; KInt 20; KInt 30])
           (PIntArray (NdArray [2; 1; 2] [1; 2; 3; 0]%Z))
           (PIntArray (NdArray [2; 1; 2] [3; 2; 1; 0]%Z))).
  reflexivity.
Defined.

Lemma Zsum_ge_elem (f : nat → Z) (ls : list nat) (l0 : nat) :
  (∀ l, In l ls → (0 <= f l)%Z) → In l0 ls →
  (0 <= f l0 <= Zsum (map f ls))%Z.
Proof.
  induction ls as [|l ls IH]; intros Hpos Hin; [destruct Hin|].
  simpl.
  assert (Hrest : (0 <= Zsum (map f ls))%Z).
  { clear IH Hin. induction ls as [|l' ls IH]; simpl; [lia|].
    assert (0 <= f l')%Z by (apply Hpos; right; left; reflexivity).
    assert (0 <= Zsum (map f ls))%Z.
    { apply IH. intros l'' [->|H']; apply Hpos; [left|right; right]; auto. }
    lia. }
  assert (Hl : (0 <= f l)%Z) by (apply Hpos; left; reflexivity).
  destruct Hin as [->|Hin]; [lia|].
  assert (0 <= f l0 <= Zsum (map f ls))%Z
    by (apply IH; [intros; apply Hpos; right; assumption|exact Hin]).
  lia.
Qed.

(** X5. When no count is negative and the counts of a cell add up to less
    than 2^63, so that their int64 sum does not wrap around, every weight
    of that cell lies between 0 and 1. *)
Theorem weights_between_0_and_1 (cls : string) (p : pyval)
    (idx cnt : ndarray Z) (x : GridPolyConv) (w : ndarray Q) (l i : nat) :
  well_formed cnt →
  Forall (fun c => (0 <= c)%Z) (data cnt) →
  ndim idx = 3%nat →
  __init__ cls p (PIntArray idx) (PIntArray cnt) = Ok x →
  weight x = Some w →
  l < levels_of w → i < cells_of w →
  (Zsum (cell_counts cnt w i) < 2 ^ 63)%Z →
  (0 <= weight_at w l i <= 1)%Q.
Proof.
  intros Hwf Hpos Hnd H Hw Hl Hi Hsmall.
  destruct (__init___3d _ _ _ _ _ Hnd H)
    as (L & nrow & ncol & Hs & Hc & _ & _ & Hw' & _).
  rewrite Hw in Hw'. injection Hw' as ->.
  unfold weight_at, cell_counts, levels_of, cells_of in *. simpl in *.
  rewrite Hs in Hi, Hl, Hsmall |- *. simpl hd in *. simpl tl in *.
  rewrite size_of_2 in Hi, Hsmall |- *.
  assert (Hlen : length (data cnt) = (S L * (nrow * ncol))%nat).
  { unfold well_formed in Hwf. rewrite Hwf, Hc, Hs. apply size_of_3. }
  rewrite (weight_of_at _ _ _ Hlen l i Hl Hi).
  set (f := fun l' => at_level 0%Z (nrow * ncol) (data cnt) l' i) in *.
  assert (Hf : ∀ l', In l' (seq 0 (S L)) → (0 <= f l')%Z).
  { intros l' Hl'. apply in_seq in Hl'. unfold f, at_level.
    rewrite Forall_forall in Hpos. apply Hpos.
    apply list_elem_of_In, nth_In. rewrite Hlen.
    apply Nat.lt_le_trans with (S l' * (nrow * ncol))%nat; [simpl; lia|].
    apply Nat.mul_le_mono_r. lia. }
  assert (Hb : (0 <= f l <= Zsum (map f (seq 0 (S L))))%Z).
  { apply Zsum_ge_elem; [exact Hf|]. apply in_seq. lia. }
  fold (f l). set (t := Zsum (map f (seq 0 (S L)))) in *.
  rewrite (wrap64_small t) by lia.
  destruct (t =? 0)%Z eqn:Ht; [split; lra|].
  apply Z.eqb_neq in Ht.
  assert (H0 : (0 <= of_int (f l))%Q)
    by (apply round64_nonneg; rewrite <- (Zle_Qle 0); lia).
  assert (H1 : (1 <= of_int t)%Q).
  { change 1%Q with (of_int 1). apply of_int_mono. lia. }
  assert (H2 : (of_int (f l) <= of_int t)%Q) by (apply of_int_mono; lia).
  split.
  - apply round64_nonneg. apply Qle_shift_div_l; lra.
  - apply round64_le_1. apply Qle_shift_div_r; lra.
Qed.

Lemma weights_between_0_and_1_witness :
  well_formed (NdArray [2; 1; 2] [3; 2; 1; 0]%Z)
  ∧ Forall (fun c => (0 <= c)%Z) (data (NdArray [2; 1; 2] [3; 2; 1; 0]%Z))
  ∧ ∃ w, weight Samples.refined = Some w
         ∧ (Zsum (cell_counts (NdArray [2; 1; 2]%nat [3; 2; 1; 0]) w 0)
            < 2 ^ 63)%Z
         ∧ (0 <= weight_at w 1 0 <= 1)%Q.
Proof.
  split; [reflexivity|].
  split; [repeat constructor; discriminate|].
  eexists. split; [reflexivity|].
  split; [reflexivity|].
  apply (weights_between_0_and_1 "GridPolyConv"
           (PTuple [KInt 10; KInt 20; KInt 30])
           (NdArray [2; 1; 2] [1; 2; 3; 0]%Z)
           (NdArray [2; 1; 2] [3; 2; 1; 0]%Z) Samples.refined).
  - reflexivity.
  - repeat constructor; discriminate.
  - reflexivity.
  - reflexivity.
  - reflexivity.
  - unfold levels_of. simpl. lia.
  - unfold cells_of. simpl. lia.
  - reflexivity.
Defined.

(** ** Equality *)

Lemma assert_array_equal_iff (x b : ndarray Z) :
  shape x ≠ [] → shape b ≠ [] →
  assert_array_equal x (PIntArray b) = Ok tt ↔ x = b.
Proof.
  intros Hx Hb. unfold assert_array_equal.
  destruct (bool_decide (shape x = shape b)) eqn:Hs.
  - apply bool_decide_eq_true in Hs.
    destruct (bool_decide (data x = data b)) eqn:Hd.
    + apply bool_decide_eq_true in Hd. split; [intros _|reflexivity].
      destruct x, b. simpl in *. congruence.
    + apply bool_decide_eq_false in Hd. split; [discriminate|].
      intros ->. contradiction.
  - apply bool_decide_eq_false in Hs.
    destruct (shape x) as [|? ?] eqn:Ex; [contradiction|].
    destruct (shape b) as [|? ?] eqn:Eb; [contradiction|].
    split; [discriminate|]. intros ->. congruence.
Qed.

Lemma constructed_shape (x : GridPolyConv) :
  constructed x → shape (idx_ar x) ≠ [].
Proof.
  intros (cls & p & i & a & H).
  destruct (constructed_object_invariant _ _ _ _ _ H) as [_ [[Hn _]|[Hn _]]];
    unfold ndim in Hn; destruct (shape (idx_ar x)); discriminate.
Qed.

(** X6. For two objects returned by the constructor, [__eq__] is True
    exactly when the class names, the polygon keys and the index arrays are
    equal, and False otherwise; in particular every such object equals
    itself, and the counts never take part. *)
Theorem __eq___characterised (a b : GridPolyConv) :
  constructed a → constructed b →
  (__eq__ a (as_object b) = Return true
   ↔ class_name a = class_name b ∧ poly_idx a = poly_idx b
     ∧ idx_ar a = idx_ar b)
  ∧ (__eq__ a (as_object b) = Return true
     ∨ __eq__ a (as_object b) = Return false)
  ∧ __eq__ a (as_object a) = Return true.
Proof.
  intros Ha Hb.
  pose proof (constructed_shape a Ha) as Hsa.
  pose proof (constructed_shape b Hb) as Hsb.
  assert (Hform : ∀ c, __eq__ a (as_object c)
                       = Return (String.eqb (class_name a) (class_name c)
                                 && bool_decide (poly_idx a = poly_idx c)
                                 && match assert_array_equal (idx_ar a)
                                            (PIntArray (idx_ar c)) with
                                    | Ok _ => true
                                    | Raise _ => false
                                    end)).
  { intros c. rewrite __eq___first_try. unfold as_object, getattr.
    cbn [obj_class obj_attrs].
    rewrite getstate_poly_idx, getstate_idx_ar. cbn [default from_option id].
    unfold tuple_ne. rewrite negb_involutive. reflexivity. }
  split; [|split].
  - rewrite Hform.
    pose proof (assert_array_equal_iff _ _ Hsa Hsb) as Hiff.
    destruct (assert_array_equal (idx_ar a) (PIntArray (idx_ar b)))
      as [[]|e] eqn:E.
    + rewrite andb_true_r. split.
      * intros H. assert (H' : String.eqb (class_name a) (class_name b)
                               && bool_decide (poly_idx a = poly_idx b) = true)
          by congruence.
        apply andb_true_iff in H' as [H1 H2].
        apply String.eqb_eq in H1. apply bool_decide_eq_true in H2.
        split; [exact H1|]. split; [exact H2|]. apply Hiff. reflexivity.
      * intros (H1 & H2 & _).
        rewrite H1, String.eqb_refl, H2, (bool_decide_eq_true_2 _ eq_refl).
        reflexivity.
    + rewrite andb_false_r. split; [discriminate|].
      intros (_ & _ & H3). apply Hiff in H3. discriminate H3.
  - rewrite Hform. destruct (_ && _ && _); auto.
  - rewrite Hform, String.eqb_refl, (bool_decide_eq_true_2 _ eq_refl).
    rewrite (proj2 (assert_array_equal_iff _ _ Hsa Hsa) eq_refl). reflexivity.
Qed.

Lemma __eq___characterised_witness :
  constructed Samples.refined ∧ constructed Samples.plain
  ∧ (__eq__ Samples.refined (as_object Samples.plain) = Return true
     ↔ class_name Samples.refined = class_name Samples.plain
       ∧ poly_idx Samples.refined = poly_idx Samples.plain
       ∧ idx_ar Samples.refined = idx_ar Samples.plain)
  ∧ (__eq__ Samples.refined (as_object Samples.plain) = Return true
     ∨ __eq__ Samples.refined (as_object Samples.plain) = Return false)
  ∧ __eq__ Samples.refined (as_object Samples.refined) = Return true.
Proof.
  assert (H1 : constructed Samples.refined).
  { exists "GridPolyConv", (PTuple [KInt 10; KInt 20; KInt 30]),
      (PIntArray (NdArray [2; 1; 2] [1; 2; 3; 0]%Z)),
      (PIntArray (NdArray [2; 1; 2] [3; 2; 1; 0]%Z)). reflexivity. }
  assert (H2 : constructed Samples.plain).
  { exists "GridPolyConv", (PTuple [KInt 10; KInt 20]),
      (PIntArray (NdArray [1; 2] [1; 2]%Z)), PNone. reflexivity. }
  split; [exact H1|]. split; [exact H2|].
  exact (__eq___characterised Samples.refined Samples.plain H1 H2).
Defined.

(** ** Files *)

(** X7. [to_pickle] changes no other file.  When the file cannot be created
    or truncated it raises that OSError and changes nothing.  Otherwise the
    file is created or truncated first: when pickling or writing then
    fails (a class defined inside a function, a class pickle does not find,
    a device without room) the error is raised and the file is left empty,
    whatever it held is gone, and loading it runs out of input; when
    nothing fails the file holds the pickled object. *)
Theorem to_pickle_files (self : GridPolyConv) (w w' : world) (p : path)
    (r : result unit) :
  to_pickle self w p = (w', r) → to_pickle_effects self w p w' r.
Proof.
  intros H. unfold to_pickle_effects.
  destruct (to_pickle_cases _ _ _ _ _ H)
    as [(Hno & -> & msg & ->)|(w1 & Ho & Hcase)].
  - split; [reflexivity|]. split; [eauto|].
    split; [intros Hc; contradiction|discriminate].
  - assert (Hopen : can_open w (parent p) (name p))
      by (unfold can_open; destruct p; simpl; rewrite Ho; exact I).
    pose proof (open_wb_truncates _ _ _ Ho) as Ht.
    assert (Hfail : ∀ e, r = Raise e → w' = w1 →
              (∀ q, q ≠ p → read_content w' q = read_content w q)
              ∧ (¬ can_open w (parent p) (name p) →
                 w' = w ∧ ∃ msg, r = Raise (OSError msg))
              ∧ (r = Raise e ∧ read_content w' p = Ok Empty
                 ∧ from_pickle w' p = Raise EOFError)
              ∧ (r = Ok tt → stored_at w' (parent p) (name p) self)).
    { intros e -> ->. split; [intros q Hq; apply (open_wb_frame _ _ _ _ Ho Hq)|].
      split; [intros Hc; contradiction|].
      split; [|discriminate].
      split; [reflexivity|]. split; [exact Ht|].
      unfold from_pickle. rewrite Ht. reflexivity. }
    destruct (pickle_dump w self) as [c|e] eqn:Hd;
      [destruct (file_write w p) as [[]|e] eqn:Hw|]; destruct Hcase as [Hr Hw'].
    + subst r w'. split.
      { intros q Hq. rewrite write_content_frame by exact Hq.
        apply (open_wb_frame _ _ _ _ Ho Hq). }
      split; [intros Hc; contradiction|].
      assert (Hrd : read_content (write_content w1 p c) p = Ok c)
        by (apply read_write_content; apply (open_wb_fs _ _ _ Ho)).
      split; [intros _; split; [reflexivity|exact Hrd]|].
      intros _. destruct (pickle_dump_Ok _ _ _ Hd) as [-> _].
      unfold stored_at. destruct p. exact Hrd.
    + destruct (Hfail e Hr Hw') as (H1 & H2 & H3 & H4). auto.
    + destruct (Hfail e Hr Hw') as (H1 & H2 & H3 & H4). auto.
Qed.

Lemma to_pickle_files_witness :
  to_pickle_effects Samples.local_plain Samples.world_local
    (MkPath "data" "c0123abcd.gpc")
    (to_pickle Samples.local_plain Samples.world_local
       (MkPath "data" "c0123abcd.gpc")).1
    (to_pickle Samples.local_plain Samples.world_local
       (MkPath "data" "c0123abcd.gpc")).2.
Proof.
  apply (to_pickle_files Samples.local_plain Samples.world_local).
  vm_compute. reflexivity.
Defined.

(** X8. A path returned by [find_cache] lies in the searched directory and
    names a regular file listed there that starts with [c] and has the
    suffix [.gpc]; its name is the wanted name or, at caching level 1 and
    in the absence of the wanted name, shares its first nine characters. *)
Theorem find_cache_sound (caching : Z) (w : world) (dirname fname : string)
    (p : path) :
  find_cache caching w dirname fname = Some p →
  found_cache_file caching w dirname fname p.
Proof.
  unfold find_cache, found_cache_file.
  destruct (fs w !! dirname) as [d|] eqn:Hd; [|discriminate]. cbv zeta.
  assert (Hlist : ∀ n, n ∈ list_dir d →
                       ∃ c, (n, File c) ∈ entries d
                            ∧ is_cache_file (n, File c) = true).
  { intros n Hn. unfold list_dir in Hn.
    apply list_elem_of_In, in_map_iff in Hn as ([n' nd] & Hn' & Hin).
    simpl in Hn'. subst n'. apply filter_In in Hin as [Hin Hf].
    destruct nd as [c|]; [|discriminate Hf].
    exists c. split; [apply list_elem_of_In; exact Hin|exact Hf]. }
  destruct (bool_decide (length (list_dir d) = 0%nat)); [discriminate|].
  destruct (bool_decide (fname ∈ list_dir d)) eqn:Hex.
  - apply bool_decide_eq_true in Hex. intros [= <-]. simpl.
    split; [reflexivity|]. destruct (Hlist _ Hex) as (c & Hc1 & Hc2).
    exists d, c. auto.
  - apply bool_decide_eq_false in Hex.
    destruct (Z.eqb_spec caching 1) as [->|Hc]; [|discriminate].
    destruct (List.filter _ (list_dir d)) as [|f fs'] eqn:Ef; [discriminate|].
    intros [= <-]. simpl. split; [reflexivity|].
    assert (Hf : In f (List.filter
                         (fun f => String.eqb (substring 0 9 f)
                                     (substring 0 9 fname)) (list_dir d)))
      by (rewrite Ef; left; reflexivity).
    apply filter_In in Hf as [Hf1 Hf2]. apply String.eqb_eq in Hf2.
    apply list_elem_of_In in Hf1.
    destruct (Hlist _ Hf1) as (c & Hc1 & Hc2).
    exists d, c. auto 10.
Qed.

Lemma find_cache_sound_witness :
  find_cache 1 Samples.world_strict "data" "c0123abcd.gpc"
  = Some (MkPath "data" "c0123abcd0123abcd.gpc")
  ∧ found_cache_file 1 Samples.world_strict "data" "c0123abcd.gpc"
      (MkPath "data" "c0123abcd0123abcd.gpc").
Proof.
  split; [vm_compute; reflexivity|].
  apply (find_cache_sound 1 Samples.world_strict "data" "c0123abcd.gpc").
  vm_compute. reflexivity.
Defined.

(** ** Cache names *)

Section name_facts.

Lemma length_substring_0 (n : nat) (s : string) :
  (n <= String.length s)%nat → String.length (substring 0 n s) = n.
Proof.
  revert s. induction n as [|n IH]; intros s Hn.
  - destruct s; reflexivity.
  - destruct s as [|c r]; simpl in *; [lia|]. rewrite IH by lia. reflexivity.
Qed.

Lemma substring_0_app (s t : string) (n : nat) :
  String.length s = n → substring 0 n (s ++ t) = s.
Proof.
  revert n. induction s as [|c r IH]; intros n Hn; simpl in Hn.
  - subst n. destruct t; reflexivity.
  - destruct n as [|n]; [discriminate|].
    change (String c (substring 0 n (r ++ t)) = String c r).
    f_equal. apply IH. lia.
Qed.

Lemma length_append (s t : string) :
  String.length (s ++ t) = (String.length s + String.length t)%nat.
Proof.
  induction s as [|c r IH]; [reflexivity|].
  change (S (String.length (r ++ t))
          = S (String.length r + String.length t)).
  f_equal. exact IH.
Qed.

Lemma append_assoc (s t u : string) : ((s ++ t) ++ u = s ++ (t ++ u))%string.
Proof.
  induction s as [|c r IH]; [reflexivity|].
  change (String c ((r ++ t) ++ u) = String c (r ++ (t ++ u))).
  f_equal. exact IH.
Qed.

Lemma list_dir_elem (d : directory) (n : string) (c : file_content) :
  (n, File c) ∈ entries d → is_cache_file (n, File c) = true → n ∈ list_dir d.
Proof.
  intros Hin Hf. unfold list_dir. apply list_elem_of_In, in_map_iff.
  exists (n, File c). split; [reflexivity|].
  apply filter_In. split; [apply list_elem_of_In; exact Hin|exact Hf].
Qed.

End name_facts.

(** X9. With digests of at least eight characters (md5 gives 32), the cheap
    name has 13 characters and the strict name 21, and both start with the
    same nine; so in a directory that holds a regular file stored under the
    strict name, the search at caching level 1 for the cheap name returns a
    file with those nine characters. *)
Theorem cheap_name_finds_strict_file (md5 : string → string)
    (grid vals_d refine shapes : string) (w : world) (dirname : string)
    (d : directory) (c : file_content) :
  (∀ text, (8 <= String.length (md5 text))%nat) →
  fs w !! dirname = Some d →
  (generate_cached_fname md5 grid vals_d refine (Some shapes), File c)
    ∈ entries d →
  cheap_finds_strict md5 grid vals_d refine shapes w dirname.
Proof.
  intros Hmd5 Hd Hin. unfold cheap_finds_strict. cbv zeta.
  set (pt1 := substring 0 8 (md5 (grid ++ vals_d ++ refine))).
  set (pt2 := substring 0 8 (md5 shapes)).
  assert (H1 : String.length pt1 = 8%nat) by (apply length_substring_0, Hmd5).
  assert (H2 : String.length pt2 = 8%nat) by (apply length_substring_0, Hmd5).
  assert (Hcheap : generate_cached_fname md5 grid vals_d refine None
                   = ("c" ++ pt1) ++ ".gpc").
  { unfold generate_cached_fname. fold pt1. rewrite append_assoc. reflexivity. }
  assert (Hstrict : generate_cached_fname md5 grid vals_d refine (Some shapes)
                    = ("c" ++ pt1) ++ (pt2 ++ ".gpc")).
  { unfold generate_cached_fname. fold pt1 pt2. rewrite append_assoc.
    reflexivity. }
  assert (Hpc : substring 0 9 (generate_cached_fname md5 grid vals_d refine None)
                = "c" ++ pt1).
  { rewrite Hcheap. apply substring_0_app. rewrite length_append, H1. reflexivity. }
  assert (Hps : substring 0 9
                  (generate_cached_fname md5 grid vals_d refine (Some shapes))
                = "c" ++ pt1).
  { rewrite Hstrict. apply substring_0_app. rewrite length_append, H1. reflexivity. }
  split; [rewrite Hcheap, !length_append, H1; reflexivity|].
  split; [rewrite Hstrict, !length_append, H1, H2; reflexivity|].
  split; [congruence|].
  pose proof (list_dir_elem d _ c Hin
                (generated_is_cache_file md5 grid vals_d refine (Some shapes) c))
    as Hs.
  unfold find_cache. rewrite Hd. cbv zeta.
  rewrite (bool_decide_eq_false_2 (length (list_dir d) = 0%nat))
    by (destruct (list_dir d); [inversion Hs|discriminate]).
  destruct (bool_decide (generate_cached_fname md5 grid vals_d refine None
                           ∈ list_dir d)).
  - eexists. split; [reflexivity|]. split; [reflexivity|].
    cbn [name]. rewrite Hpc, Hps. reflexivity.
  - cbn [Z.eqb Pos.eqb].
    destruct (elem_of_filter_head
                (fun f => String.eqb (substring 0 9 f)
                            (substring 0 9 (generate_cached_fname md5 grid
                                              vals_d refine None)))
                (list_dir d) _ Hs) as (y & ys & -> & Hy & Hpy).
    { apply String.eqb_eq. rewrite Hpc, Hps. reflexivity. }
    apply String.eqb_eq in Hpy.
    eexists. split; [reflexivity|]. split; [reflexivity|].
    cbn [name]. rewrite Hpy, Hpc, Hps. reflexivity.
Qed.

Lemma cheap_name_finds_strict_file_witness :
  (∀ text, (8 <= String.length (Samples.fixed_md5 text))%nat)
  ∧ cheap_finds_strict Samples.fixed_md5 "grid" "[10, 20]" "1" "shapes"
      Samples.world_strict "data".
Proof.
  split; [intros text; vm_compute; lia|].
  apply (cheap_name_finds_strict_file Samples.fixed_md5 "grid" "[10, 20]" "1"
           "shapes" Samples.world_strict "data"
           (MkDir [("notes.txt", File Garbage);
                   ("c0123abcd0123abcd.gpc",
                    File (Pickled "GridPolyConv" (__getstate__ Samples.plain)))]
              true)
           (Pickled "GridPolyConv" (__getstate__ Samples.plain))).
  - intros text. vm_compute. lia.
  - reflexivity.
  - apply list_elem_of_In. right. left. reflexivity.
Defined.

(** ** Storing, then finding *)

Section hit_facts.

Lemma entry_put_elem (nm : string) (nd : node) (es : list (string * node)) :
  (nm, nd) ∈ entry_put nm nd es.
Proof.
  induction es as [|[n x] es IH]; simpl; [left|].
  destruct (String.eqb_spec n nm) as [->|Hne]; [left|right; exact IH].
Qed.

Lemma cache_name_file (nm : string) (c : file_content) :
  is_cache_file (nm, File c) = cache_name nm.
Proof. reflexivity. Qed.

Lemma list_dir_cache_name (d : directory) (n : string) :
  n ∈ list_dir d → cache_name n = true.
Proof.
  intros Hn. unfold list_dir in Hn.
  apply list_elem_of_In, in_map_iff in Hn as ([n' nd] & Hn' & Hin).
  simpl in Hn'. subst n'. apply filter_In in Hin as [_ Hf].
  destruct nd as [c|]; [exact Hf|discriminate Hf].
Qed.

Lemma find_cache_listed (caching : Z) (w : world) (dirname fname : string)
    (p : path) :
  find_cache caching w dirname fname = Some p →
  parent p = dirname ∧ cache_name (name p) = true
  ∧ ∃ d, fs w !! dirname = Some d ∧ name p ∈ list_dir d.
Proof.
  unfold find_cache.
  destruct (fs w !! dirname) as [d|] eqn:Hd; [|discriminate]. cbv zeta.
  destruct (bool_decide (length (list_dir d) = 0%nat)); [discriminate|].
  destruct (bool_decide (fname ∈ list_dir d)) eqn:Hex.
  - apply bool_decide_eq_true in Hex. intros [= <-]. simpl.
    split; [reflexivity|]. split; [exact (list_dir_cache_name d _ Hex)|eauto].
  - destruct (caching =? 1)%Z; [|discriminate].
    destruct (List.filter _ (list_dir d)) as [|f fs'] eqn:Ef; [discriminate|].
    intros [= <-]. simpl.
    assert (Hf : In f (List.filter
                         (fun f => String.eqb (substring 0 9 f)
                                     (substring 0 9 fname)) (list_dir d)))
      by (rewrite Ef; left; reflexivity).
    apply filter_In in Hf as [Hf _]. apply list_elem_of_In in Hf.
    split; [reflexivity|]. split; [exact (list_dir_cache_name d _ Hf)|eauto].
Qed.

Lemma find_cache_exact (caching : Z) (w : world) (dirname fname : string)
    (d : directory) (c : file_content) :
  fs w !! dirname = Some d → (fname, File c) ∈ entries d →
  cache_name fname = true →
  find_cache caching w dirname fname = Some (MkPath dirname fname).
Proof.
  intros Hd Hin Hn.
  assert (Hl : fname ∈ list_dir d) by (apply (list_dir_elem d fname c); assumption).
  unfold find_cache. rewrite Hd. cbv zeta.
  rewrite (bool_decide_eq_false_2 (length (list_dir d) = 0%nat))
    by (destruct (list_dir d); [inversion Hl|discriminate]).
  rewrite (bool_decide_eq_true_2 _ Hl). reflexivity.
Qed.

Lemma find_cache_same_dir (caching : Z) (w1 w2 : world)
    (dirname fname : string) :
  fs w1 !! dirname = fs w2 !! dirname →
  find_cache caching w1 dirname fname = find_cache caching w2 dirname fname.
Proof. intros H. unfold find_cache. rewrite H. reflexivity. Qed.

Lemma cache_fname_of_name (md5 : string → string) (rq : request)
    (fname : string) :
  cache_fname_of md5 rq = Ok fname → cache_name fname = true.
Proof.
  unfold cache_fname_of, cache_name.
  destruct (caching rq =? 1)%Z;
    [|destruct (caching rq =? 2)%Z; [|discriminate]];
    intros H;
    match type of H with
    | Ok ?g = Ok _ => assert (E : fname = g) by congruence
    end;
    rewrite E; apply generated_is_cache_file.
Qed.

Lemma entry_lookup_elem (nm : string) (es : list (string * node)) (nd : node) :
  entry_lookup nm es = Some nd → (nm, nd) ∈ es.
Proof.
  induction es as [|[n x] es IH]; simpl; [discriminate|].
  destruct (String.eqb_spec n nm) as [->|Hne].
  - intros [= ->]. left.
  - intros H. right. exact (IH H).
Qed.

Lemma stored_at_elem (w : world) (dirname fname : string) (obj : GridPolyConv) :
  stored_at w dirname fname obj →
  ∃ dd, fs w !! dirname = Some dd
        ∧ (fname, File (Pickled (class_name obj) (__getstate__ obj)))
            ∈ entries dd.
Proof.
  unfold stored_at, read_content. cbn [parent name].
  destruct (fs w !! dirname) as [dd|]; [|discriminate].
  destruct (entry_lookup fname (entries dd)) as [[c|]|] eqn:E; try discriminate.
  intros [= ->]. exists dd. split; [reflexivity|].
  apply entry_lookup_elem. exact E.
Qed.

(** What a successful [write_cache] leaves. *)
Lemma write_cache_written (fname : string) (obj : GridPolyConv)
    (w w' : world) (dirname : string) :
  write_cache fname obj w dirname = (w', Ok false) →
  same_but dirname w w'
  ∧ class_name obj ∈ importable w
  ∧ stored_at w' dirname fname obj.
Proof.
  intros H.
  destruct (write_cache_cases _ _ _ _ _ _ H)
    as (Hs & [(Hc & _ & Hst)|[(_ & _ & Hr)|[(_ & Hr & _)|(_ & _ & _ & Hr & _)]]]);
    try discriminate Hr.
  split; [exact Hs|]. split; [|exact Hst].
  destruct Hc as (_ & Hr & _).
  destruct (pickle_dump w obj) as [c|] eqn:Hd; [|destruct Hr].
  apply (pickle_dump_Ok _ _ _ Hd).
Qed.

(** When the object can be written, "try again" means that the file could
    not be created, and nothing has changed. *)
Lemma write_cache_tryagain (fname : string) (obj : GridPolyConv)
    (w w' : world) (dirname : string) :
  returns (pickle_dump w obj) → dirname ∉ no_space w →
  write_cache fname obj w dirname = (w', Ok true) → w' = w.
Proof.
  intros Hp Hn H.
  destruct (write_cache_cases _ _ _ _ _ _ H)
    as (Hs & [(_ & Hr & _)|[(_ & _ & Hr)|[(_ & _ & ->)|(Ho & Hc & _)]]]);
    try discriminate Hr; [reflexivity|].
  exfalso. apply Hc. unfold can_store. auto.
Qed.

(** An object that was built loads back from the file it is stored in. *)
Lemma stored_loads (rq : request) (obj : GridPolyConv) (w : world)
    (dirname fname : string) :
  build rq = Ok obj →
  class_name obj ∈ importable w →
  stored_at w dirname fname obj →
  from_pickle w (MkPath dirname fname) = Ok obj.
Proof.
  intros Hb Hc Hs. unfold from_pickle. unfold stored_at in Hs. rewrite Hs.
  unfold build in Hb. destruct (built rq) as [[p i] a].
  change (pickle_load w (Pickled (class_name obj) (__getstate__ obj)) = Ok obj).
  pose proof (__init___class_name _ _ _ _ _ Hb) as Hcn.
  simpl. rewrite (bool_decide_eq_true_2 _ Hc), setstate_getstate, Hcn.
  exact (__init___datasets _ _ _ _ _ Hb).
Qed.

End hit_facts.

(** X10. When the object can be pickled and the directories in which the
    store is attempted have room, a call at caching level 1 or 2 that finds
    no cache, builds the object and returns it is repeatable: the same call
    made again returns the same object and leaves the world as it is; if
    the first call stored a cache file, the second call finds it under the
    exact name and loads the object from it instead of building it. *)
Theorem stored_cache_is_hit (md5 : string → string) (rq : request)
    (fname : string) (obj : GridPolyConv) (w w' : world) :
  caching rq = 1%Z ∨ caching rq = 2%Z →
  cache_fname_of md5 rq = Ok fname →
  search rq w fname = Ok None →
  build rq = Ok obj →
  returns (pickle_dump w obj) →
  (∀ d, attempted rq d → d ∉ no_space w) →
  from_grid_vector md5 rq w = (w', Ok obj) →
  second_call_hits md5 rq fname obj w w'.
Proof.
  intros Hc Hf Hs Hb Hpd Hroom H1.
  assert (H0 : (caching rq =? 0)%Z = false) by (apply Z.eqb_neq; lia).
  pose proof (cache_fname_of_name _ _ _ Hf) as Hname.
  assert (Hstore : store rq fname obj w = (w', Ok obj)).
  { revert H1. unfold from_grid_vector. rewrite H0, Hf, Hs.
    unfold build_and_store. rewrite Hb. auto. }
  (* a hit in the world [w'] gives the result *)
  assert (Hhit : ∀ p, search rq w' fname = Ok (Some p) →
                      from_pickle w' p = Ok obj →
                      from_grid_vector md5 rq w' = (w', Ok obj)).
  { intros p Hp Hl. unfold from_grid_vector. rewrite H0, Hf, Hp, Hl.
    reflexivity. }
  (* a file stored in a directory is found there and loads *)
  assert (Hfound : ∀ w0 d, same_but d w w0 → stored_at w0 d fname obj →
                     class_name obj ∈ importable w →
                     find_cache (caching rq) w0 d fname = Some (MkPath d fname)
                     ∧ from_pickle w0 (MkPath d fname) = Ok obj).
  { intros w0 d Hsb Hst Hcl.
    destruct (stored_at_elem _ _ _ _ Hst) as (dd & Hdd & Hin).
    split; [exact (find_cache_exact _ _ _ _ _ _ Hdd Hin Hname)|].
    apply (stored_loads rq); [exact Hb| |exact Hst].
    destruct Hsb as (-> & _). exact Hcl. }
  unfold second_call_hits.
  assert (Hcases : w' = w
                   ∨ ∃ p, search rq w' fname = Ok (Some p)
                          ∧ name p = fname ∧ from_pickle w' p = Ok obj).
  { revert Hstore Hs Hroom. unfold store, search, attempted.
    destruct (override rq) as [d|].
    - destruct (write_cache fname obj w d) as [w1 r1] eqn:Hw.
      destruct r1 as [[|]|e]; [| |discriminate]; intros [= <-] Hs Hroom.
      + (* nothing could be written *)
        left. apply (write_cache_tryagain _ _ _ _ _ Hpd (Hroom d eq_refl) Hw).
      + (* written in the override directory *)
        right.
        destruct (write_cache_written _ _ _ _ _ Hw) as (Hsb & Hcl & Hst).
        destruct (Hfound _ _ Hsb Hst Hcl) as [Hfc Hld].
        destruct (stored_at_elem _ _ _ _ Hst) as (dd & Hdd & _).
        exists (MkPath d fname). rewrite Hdd, Hfc. auto.
    - destruct (write_cache fname obj w (vector_dir rq)) as [w1 r1] eqn:Hw.
      destruct r1 as [[|]|e]; [| |discriminate]; intros Hst' Hs Hroom.
      + (* the first attempt failed *)
        assert (Hw1 : w1 = w)
          by (apply (write_cache_tryagain _ _ _ _ _ Hpd
                       (Hroom _ (or_introl eq_refl)) Hw)).
        subst w1.
        destruct (write_cache fname obj w cwd) as [w2 r2] eqn:Hw2.
        destruct r2 as [[|]|e]; [| |discriminate]; injection Hst' as <-.
        * left. apply (write_cache_tryagain _ _ _ _ _ Hpd
                         (Hroom _ (or_intror eq_refl)) Hw2).
        * right.
          destruct (find_cache (caching rq) w (vector_dir rq) fname)
            as [p0|] eqn:Hfv; [discriminate|].
          assert (Hne : vector_dir rq ≠ cwd).
          { intros E. rewrite E in Hw. rewrite Hw in Hw2. discriminate. }
          destruct (write_cache_written _ _ _ _ _ Hw2) as (Hsb & Hcl & Hst).
          destruct (Hfound _ _ Hsb Hst Hcl) as [Hfc Hld].
          assert (Hoth : fs w2 !! vector_dir rq = fs w !! vector_dir rq)
            by (destruct Hsb as (_ & _ & _ & Hfs); apply Hfs; exact Hne).
          rewrite (find_cache_same_dir _ _ w _ _ Hoth), Hfv, Hfc.
          exists (MkPath cwd fname). auto.
      + (* written in the directory of the vector file *)
        injection Hst' as <-. right.
        destruct (write_cache_written _ _ _ _ _ Hw) as (Hsb & Hcl & Hst).
        destruct (Hfound _ _ Hsb Hst Hcl) as [Hfc Hld].
        exists (MkPath (vector_dir rq) fname). rewrite Hfc. auto. }
  destruct Hcases as [->|(p & Hp & Hn & Hl)].
  - split; [exact H1|]. intros Hne. contradiction.
  - split; [exact (Hhit p Hp Hl)|]. intros _. eauto.
Qed.

Lemma stored_cache_is_hit_witness :
  (caching (Samples.request_of "GridPolyConv" None 1) = 1%Z
   ∨ caching (Samples.request_of "GridPolyConv" None 1) = 2%Z)
  ∧ returns (pickle_dump (Samples.world_rw {[ "GridPolyConv" ]}) Samples.plain)
  ∧ (from_grid_vector Samples.fixed_md5
       (Samples.request_of "GridPolyConv" None 1)
       (Samples.world_rw {[ "GridPolyConv" ]})).2 = Ok Samples.plain
  ∧ second_call_hits Samples.fixed_md5
      (Samples.request_of "GridPolyConv" None 1) "c0123abcd.gpc"
      Samples.plain (Samples.world_rw {[ "GridPolyConv" ]})
      (from_grid_vector Samples.fixed_md5
         (Samples.request_of "GridPolyConv" None 1)
         (Samples.world_rw {[ "GridPolyConv" ]})).1.
Proof.
  split; [left; reflexivity|]. split; [vm_compute; exact I|].
  split; [vm_compute; reflexivity|].
  apply (stored_cache_is_hit Samples.fixed_md5
           (Samples.request_of "GridPolyConv" None 1)).
  - left. reflexivity.
  - reflexivity.
  - reflexivity.
  - reflexivity.
  - vm_compute. exact I.
  - intros d _. apply not_elem_of_empty.
  - vm_compute. reflexivity.
Defined.

(** ** Files that are never touched *)

Section frame_facts.

Variable q : path.
Hypothesis Hq : cache_name (name q) = false.

Lemma not_cache_path (p : path) : cache_name (name p) = true → q ≠ p.
Proof using Hq. intros Hp ->. rewrite Hp in Hq. discriminate. Qed.

Lemma os_remove_frame (w w' : world) (p : path) (r : result unit) :
  os_remove w p = (w', r) → cache_name (name p) = true →
  read_content w' q = read_content w q.
Proof using Hq.
  intros H Hp. pose proof (not_cache_path p Hp) as Hne.
  unfold os_remove in H.
  destruct (fs w !! parent p) as [d|] eqn:Hd; [|injection H as <- _; reflexivity].
  destruct (entry_lookup (name p) (entries d)) as [[c|]|];
    try (injection H as <- _; reflexivity).
  destruct (writable d); [|injection H as <- _; reflexivity].
  injection H as <- _. apply read_content_set_entries; [exact Hd|].
  intros Hpar. apply entry_lookup_remove_ne. apply path_name_ne; assumption.
Qed.

Lemma write_cache_frame (fname : string) (obj : GridPolyConv) (w w' : world)
    (dirname : string) (r : result bool) :
  write_cache fname obj w dirname = (w', r) → cache_name fname = true →
  read_content w' q = read_content w q.
Proof using Hq.
  intros H Hf.
  pose proof (not_cache_path (MkPath dirname fname) Hf) as Hne.
  unfold write_cache in H.
  destruct (to_pickle obj w (MkPath dirname fname)) as [w1 r1] eqn:Hp.
  assert (F : read_content w1 q = read_content w q).
  { destruct (to_pickle_cases _ _ _ _ _ Hp)
      as [(_ & -> & _)|(w0 & Ho & Hcase)]; [reflexivity|].
    pose proof (open_wb_frame _ _ _ _ Ho Hne) as H1.
    destruct (pickle_dump w obj);
      [destruct (file_write w _) as [[]|]|]; destruct Hcase as [_ ->];
      try exact H1.
    rewrite write_content_frame by exact Hne. exact H1. }
  destruct r1 as [[]|e]; [injection H as <- _; exact F|].
  destruct e; injection H as <- _; exact F.
Qed.

Lemma store_frame (rq : request) (fname : string) (obj : GridPolyConv)
    (w w' : world) (r : result GridPolyConv) :
  store rq fname obj w = (w', r) → cache_name fname = true →
  read_content w' q = read_content w q.
Proof using Hq.
  unfold store. intros H Hf.
  destruct (override rq) as [d|].
  - destruct (write_cache fname obj w d) as [w1 r1] eqn:H1.
    pose proof (write_cache_frame _ _ _ _ _ _ H1 Hf) as F1.
    destruct r1; injection H as <- _; exact F1.
  - destruct (write_cache fname obj w (vector_dir rq)) as [w1 r1] eqn:H1.
    pose proof (write_cache_frame _ _ _ _ _ _ H1 Hf) as F1.
    destruct r1 as [[|]|e]; try (injection H as <- _; exact F1).
    destruct (write_cache fname obj w1 cwd) as [w2 r2] eqn:H2.
    pose proof (write_cache_frame _ _ _ _ _ _ H2 Hf) as F2.
    destruct r2; injection H as <- _; rewrite F2; exact F1.
Qed.

Lemma build_and_store_frame (rq : request) (fname : string) (w w' : world)
    (r : result GridPolyConv) :
  build_and_store rq fname w = (w', r) → cache_name fname = true →
  read_content w' q = read_content w q.
Proof using Hq.
  unfold build_and_store. intros H Hf.
  destruct (build rq) as [obj|e]; [|injection H as <- _; reflexivity].
  exact (store_frame _ _ _ _ _ _ H Hf).
Qed.

End frame_facts.

(** X11. Whatever [from_grid_vector] does to the files, it does to cache
    files: a path whose name does not start with [c] or does not end with
    [.gpc] reads the same before and after the call, whether the call
    returns or raises. *)
Theorem from_grid_vector_touches_cache_files_only (md5 : string → string)
    (rq : request) (w w' : world) (r : result GridPolyConv) (q : path) :
  from_grid_vector md5 rq w = (w', r) →
  cache_name (name q) = false →
  read_content w' q = read_content w q.
Proof.
  unfold from_grid_vector. intros H Hq.
  destruct (caching rq =? 0)%Z.
  { destruct (build rq); injection H as <- _; reflexivity. }
  destruct (cache_fname_of md5 rq) as [fname|e] eqn:Hf;
    [|injection H as <- _; reflexivity].
  pose proof (cache_fname_of_name _ _ _ Hf) as Hname.
  destruct (search rq w fname) as [[p|]|e] eqn:Hs;
    [| |injection H as <- _; reflexivity].
  - assert (Hp : cache_name (name p) = true).
    { revert Hs. unfold search.
      destruct (override rq) as [d|].
      - destruct (fs w !! d); [|discriminate].
        intros [= Hfc]. apply (find_cache_listed _ _ _ _ _ Hfc).
      - destruct (find_cache (caching rq) w (vector_dir rq) fname) as [p0|] eqn:Hv.
        + intros [= <-]. apply (find_cache_listed _ _ _ _ _ Hv).
        + intros [= Hfc]. apply (find_cache_listed _ _ _ _ _ Hfc). }
    destruct (from_pickle w p); [injection H as <- _; reflexivity|].
    destruct (os_remove w p) as [w1 r1] eqn:Hr.
    pose proof (os_remove_frame q Hq _ _ _ _ Hr Hp) as F1.
    destruct r1; [|injection H as <- _; exact F1].
    rewrite (build_and_store_frame q Hq _ _ _ _ _ H Hname). exact F1.
  - exact (build_and_store_frame q Hq _ _ _ _ _ H Hname).
Qed.

Lemma from_grid_vector_touches_cache_files_only_witness :
  cache_name (name (MkPath "data" "notes.txt")) = false
  ∧ read_content
      (from_grid_vector Samples.fixed_md5
         (Samples.request_of "GridPolyConv" None 1)
         Samples.world_corrupt_rw).1 (MkPath "data" "notes.txt")
    = read_content Samples.world_corrupt_rw (MkPath "data" "notes.txt").
Proof.
  split; [reflexivity|].
  apply (from_grid_vector_touches_cache_files_only Samples.fixed_md5
           (Samples.request_of "GridPolyConv" None 1)
           Samples.world_corrupt_rw _
           (from_grid_vector Samples.fixed_md5
              (Samples.request_of "GridPolyConv" None 1)
              Samples.world_corrupt_rw).2).
  - vm_compute. reflexivity.
  - reflexivity.
Defined.

(** ** More on array_from_values *)

Lemma isdisjoint_nil (index : list key) : isdisjoint index [] = true.
Proof.
  unfold isdisjoint. apply forallb_forall. intros x _.
  rewrite bool_decide_eq_false_2; [reflexivity|]. apply not_elem_of_nil.
Qed.

(** X12. An object without polygon keys cannot be projected: every set is
    disjoint from the empty set, so [array_from_values] raises whatever the
    index and the values are. *)
Theorem empty_poly_idx_raises (self : GridPolyConv) (index : list key)
    (values : ndarray Q) (fill : Q) (enforce1d : bool) :
  poly_idx self = [] →
  raises (array_from_values self index values fill enforce1d).
Proof.
  intros Hp. unfold array_from_values. rewrite Hp, isdisjoint_nil.
  destruct (negb _); [exact I|]. destruct (negb _); [exact I|].
  destruct (_ && _); exact I.
Qed.

Lemma empty_poly_idx_raises_witness :
  __init__ "GridPolyConv" (PTuple []) (PIntArray (NdArray [1; 2] [0; 0]%Z)) PNone
  = Ok Samples.keyless
  ∧ poly_idx Samples.keyless = []
  ∧ raises (array_from_values Samples.keyless [] (NdArray [0] []) 0 false).
Proof.
  split; [reflexivity|]. split; [reflexivity|].
  apply (empty_poly_idx_raises Samples.keyless [] (NdArray [0] []) 0 false).
  reflexivity.
Defined.

Section reindex_facts.

Lemma list_index_nth (l : list key) (i : nat) (d : key) :
  NoDup l → i < length l → list_index (nth i l d) l = i.
Proof.
  intros Hnd. revert i. induction Hnd as [|x l Hx Hnd IH]; intros i Hi;
    simpl in *; [lia|].
  destruct i as [|i].
  - rewrite bool_decide_eq_true_2; reflexivity.
  - rewrite bool_decide_eq_false_2.
    + rewrite IH by lia. reflexivity.
    + intros ->. apply Hx. apply list_elem_of_In, nth_In. lia.
Qed.

Variable self : GridPolyConv.
Hypothesis Hnd : NoDup (poly_idx self).

(** The values in the order of [poly_idx] are the values of its keys. *)
Lemma reindex_lookup (index : list key) (vals : list Q) :
  issuperset index (poly_idx self) = true →
  length vals = length index →
  reindex self index vals = map (value_of index vals) (poly_idx self).
Proof using Hnd.
  intros Hsup Hlen. unfold reindex, value_of.
  destruct (bool_decide (index = poly_idx self)) eqn:Hi.
  - apply bool_decide_eq_true in Hi. subst index.
    apply (nth_ext _ _ 0%Q 0%Q); [rewrite length_map; exact Hlen|].
    intros n Hn.
    rewrite (nth_map_in _ _ _ (KInt 0)) by lia.
    rewrite list_index_nth by (assumption || lia). reflexivity.
  - unfold reorder. rewrite filter_superset by exact Hsup.
    rewrite map_map. reflexivity.
Qed.

End reindex_facts.

(** The output of a call on a vector of values. *)
Lemma array_from_values_1d (self : GridPolyConv) (index : list key)
    (values : ndarray Q) (fill : Q) (enforce1d : bool) (out : masked_array) :
  ndim values = 1%nat →
  array_from_values self index values fill enforce1d = Ok out →
  issuperset index (poly_idx self) = true
  ∧ length index = List.last (shape values) 0%nat
  ∧ ∃ r,
      spread self (reindex self index (data values)) fill = Ok r
      ∧ out = {| ma_data :=
                   NdArray (out_shape self)
                     match weight self with
                     | Some w =>
                         if negb (Qeq_bool fill 0)
                         then zip_with fadd r (outside w fill) else r
                     | None => r
                     end;
                 ma_mask := NdArray (out_shape self) (data (mask self)) |}.
Proof.
  unfold array_from_values, ndim. intros Hn.
  destruct (negb (bool_decide _)); [discriminate|].
  destruct (bool_decide (length index = _)) eqn:Hlen; [|discriminate].
  apply bool_decide_eq_true in Hlen. cbn [negb].
  destruct (enforce1d && _); [discriminate|].
  destruct (isdisjoint _ _); [discriminate|].
  destruct (issuperset _ _); [|discriminate]. cbn [negb].
  destruct (shape values) as [|m [|? ?]] eqn:Hs; try discriminate Hn.
  destruct (spread self _ fill) as [r|]; [|discriminate].
  simpl. intros [= <-]. split; [reflexivity|]. split; [exact Hlen|].
  exists r. split; [reflexivity|].
  destruct (weight self); [destruct (Qeq_bool fill 0)|]; reflexivity.
Qed.

(** X13. Projecting a vector of values depends on the index and the values
    only through the value they give to each polygon key: two calls whose
    indexes and values give the same value to every key of [poly_idx]
    return the same array, whatever the order or the extra keys of the
    indexes. *)
Theorem reordering_invariance (self : GridPolyConv)
    (index1 index2 : list key) (values1 values2 : ndarray Q) (fill : Q)
    (enforce1d : bool) (out1 out2 : masked_array) :
  constructed self →
  well_formed values1 → well_formed values2 →
  ndim values1 = 1%nat → ndim values2 = 1%nat →
  (∀ k, k ∈ poly_idx self →
        value_of index1 (data values1) k = value_of index2 (data values2) k) →
  array_from_values self index1 values1 fill enforce1d = Ok out1 →
  array_from_values self index2 values2 fill enforce1d = Ok out2 →
  out1 = out2.
Proof.
  intros (cls & p & i & a & Hc) Hw1 Hw2 Hn1 Hn2 Hsame H1 H2.
  destruct (constructed_object_invariant _ _ _ _ _ Hc) as [Hnd _].
  destruct (array_from_values_1d _ _ _ _ _ _ Hn1 H1)
    as (Hs1 & Hl1 & r1 & Hr1 & ->).
  destruct (array_from_values_1d _ _ _ _ _ _ Hn2 H2)
    as (Hs2 & Hl2 & r2 & Hr2 & ->).
  assert (Hlen : ∀ (values : ndarray Q) (index : list key),
             well_formed values → ndim values = 1%nat →
             length index = List.last (shape values) 0%nat →
             length (data values) = length index).
  { intros values index Hw Hn Hl. unfold well_formed, ndim in *.
    destruct (shape values) as [|m [|? ?]]; try discriminate Hn.
    simpl in *. lia. }
  assert (E : reindex self index1 (data values1)
              = reindex self index2 (data values2)).
  { rewrite !(reindex_lookup self Hnd) by auto.
    apply map_ext_in. intros k Hk. apply Hsame. apply list_elem_of_In. exact Hk. }
  rewrite E in Hr1. rewrite Hr1 in Hr2. injection Hr2 as ->. reflexivity.
Qed.

Lemma reordering_invariance_witness :
  constructed Samples.plain
  ∧ (∀ k, k ∈ poly_idx Samples.plain →
          value_of [KInt 10; KInt 20] [5; 6]%Q k
          = value_of [KInt 20; KInt 30; KInt 10] [6; 7; 5]%Q k)
  ∧ array_from_values Samples.plain [KInt 10; KInt 20]
      (NdArray [2] [5; 6]%Q) 0 false
    = array_from_values Samples.plain [KInt 20; KInt 30; KInt 10]
        (NdArray [3] [6; 7; 5]%Q) 0 false.
Proof.
  assert (Hc : constructed Samples.plain).
  { exists "GridPolyConv", (PTuple [KInt 10; KInt 20]),
      (PIntArray (NdArray [1; 2] [1; 2]%Z)), PNone. reflexivity. }
  assert (Hv : ∀ k, k ∈ poly_idx Samples.plain →
                    value_of [KInt 10; KInt 20] [5; 6]%Q k
                    = value_of [KInt 20; KInt 30; KInt 10] [6; 7; 5]%Q k).
  { intros k Hk. simpl in Hk.
    repeat (apply elem_of_cons in Hk as [->|Hk]; [reflexivity|]).
    inversion Hk. }
  split; [exact Hc|]. split; [exact Hv|].
  destruct (array_from_values Samples.plain [KInt 10; KInt 20]
              (NdArray [2] [5; 6]%Q) 0 false) as [o1|e1] eqn:E1;
    [|vm_compute in E1; discriminate E1].
  destruct (array_from_values Samples.plain [KInt 20; KInt 30; KInt 10]
              (NdArray [3] [6; 7; 5]%Q) 0 false) as [o2|e2] eqn:E2;
    [|vm_compute in E2; discriminate E2].
  f_equal.
  apply (reordering_invariance Samples.plain [KInt 10; KInt 20]
           [KInt 20; KInt 30; KInt 10] (NdArray [2] [5; 6]%Q)
           (NdArray [3] [6; 7; 5]%Q) 0 false o1 o2 Hc);
    try reflexivity; assumption.
Defined.

Lemma vector_length (values : ndarray Q) (index : list key) :
  well_formed values → ndim values = 1%nat →
  length index = List.last (shape values) 0%nat →
  length (data values) = length index.
Proof.
  unfold well_formed, ndim. intros Hw Hn Hl.
  destruct (shape values) as [|m [|? ?]]; try discriminate Hn.
  simpl in *. lia.
Qed.

(** X14. Without weights, a vector of values is painted on the grid: a cell
    whose index is 0 gets the fill and is masked; a cell whose index is
    [i + 1] gets the value that the index and the values give to the
    [i]-th polygon key, and is not masked. *)
Theorem unrefined_projection (self : GridPolyConv) (index : list key)
    (values : ndarray Q) (fill : Q) (enforce1d : bool) (out : masked_array)
    (c : nat) :
  constructed self → weight self = None →
  well_formed values → ndim values = 1%nat →
  array_from_values self index values fill enforce1d = Ok out →
  c < length (data (idx_ar self)) →
  unrefined_cell self index values fill out c.
Proof.
  intros (cls & p & i & a & Hc) Hw Hwf Hn H Hcell.
  destruct (constructed_object_invariant _ _ _ _ _ Hc)
    as [Hnd [(_ & _ & _ & Hm)|(_ & _ & cnt & w & _ & Hw' & _)]]; [|congruence].
  destruct (array_from_values_1d _ _ _ _ _ _ Hn H) as (Hs & Hl & r & Hr & ->).
  pose proof (vector_length _ _ Hwf Hn Hl) as Hlen.
  unfold spread in Hr. rewrite Hw in Hr.
  destruct (gather _ _) as [g|] eqn:Hg; [|discriminate].
  simpl in Hr. injection Hr as <-.
  pose proof (gather_nth _ _ _ c Hg Hcell) as Hj.
  unfold unrefined_cell. cbv zeta. rewrite Hw, Hm. cbn [ma_data ma_mask data].
  rewrite (nth_map_in _ _ _ 0%Z) by exact Hcell.
  split.
  - intros Hj0. rewrite Hj0 in Hj |- *. unfold py_index in Hj. simpl in Hj.
    injection Hj as <-. split; reflexivity.
  - intros i0 Hji Hi. rewrite Hji in Hj |- *.
    pose proof (length_reindex self index (data values) Hs Hlen) as Hlr.
    unfold py_index in Hj.
    assert (Hcond : ((0 <=? Z.of_nat (S i0))
                     && (Z.of_nat (S i0)
                         <? Z.of_nat (length (fill :: reindex self index (data values)))))%Z
                    = true).
    { apply andb_true_iff. split; [apply Z.leb_le; lia|].
      apply Z.ltb_lt. cbn [length]. lia. }
    rewrite Hcond, Nat2Z.id in Hj. cbn [lookup list_lookup] in Hj.
    split; [|reflexivity].
    assert (E : nth i0 (reindex self index (data values)) 0%Q = nth c g 0%Q).
    { assert (Hj' : reindex self index (data values) !! i0
                    = Some (nth c g 0%Q)) by exact Hj.
      rewrite nth_lookup, Hj'. reflexivity. }
    rewrite <- E, (reindex_lookup self Hnd) by assumption.
    apply (nth_map_in _ _ _ (KInt 0)). exact Hi.
Qed.

Lemma unrefined_projection_witness :
  constructed Samples.plain
  ∧ ∃ out,
      array_from_values Samples.plain [KInt 20; KInt 30; KInt 10]
        (NdArray [3] [6; 7; 5]%Q) 0 false = Ok out
      ∧ unrefined_cell Samples.plain [KInt 20; KInt 30; KInt 10]
          (NdArray [3] [6; 7; 5]%Q) 0 out 1.
Proof.
  assert (Hc : constructed Samples.plain).
  { exists "GridPolyConv", (PTuple [KInt 10; KInt 20]),
      (PIntArray (NdArray [1; 2] [1; 2]%Z)), PNone. reflexivity. }
  split; [exact Hc|].
  destruct (array_from_values Samples.plain [KInt 20; KInt 30; KInt 10]
              (NdArray [3] [6; 7; 5]%Q) 0 false) as [o|e] eqn:E;
    [|vm_compute in E; discriminate E].
  exists o. split; [reflexivity|].
  apply (unrefined_projection Samples.plain [KInt 20; KInt 30; KInt 10]
           (NdArray [3] [6; 7; 5]%Q) 0 false o 1 Hc);
    try reflexivity; [exact E|simpl; lia].
Defined.

(** The output of a call on a 2D array of values. *)
Lemma array_from_values_2d (self : GridPolyConv) (index : list key)
    (values : ndarray Q) (fill : Q) (enforce1d : bool) (out : masked_array)
    (extra npoly : nat) :
  shape values = [extra; npoly] →
  array_from_values self index values fill enforce1d = Ok out →
  ∃ rs,
    spread_rows self
      (map (reindex self index) (rows_of extra npoly (data values))) fill
    = Ok rs
    ∧ length rs = extra
    ∧ out = {| ma_data :=
                 NdArray (length rs :: out_shape self)
                   match weight self with
                   | Some w =>
                       if negb (Qeq_bool fill 0)
                       then zip_with fadd (mjoin rs)
                              (broadcast_levels (length rs) (outside w fill))
                       else mjoin rs
                   | None => mjoin rs
                   end;
               ma_mask :=
                 NdArray (length rs :: out_shape self)
                   (broadcast_levels (length rs) (data (mask self))) |}.
Proof.
  unfold array_from_values. intros Hs. rewrite Hs.
  destruct (negb (bool_decide _)); [discriminate|].
  destruct (negb (bool_decide _)); [discriminate|].
  destruct (enforce1d && _); [discriminate|].
  destruct (isdisjoint _ _); [discriminate|].
  destruct (negb (issuperset _ _)); [discriminate|].
  destruct (spread_rows self _ fill) as [rs|] eqn:Hr; [|discriminate].
  pose proof (spread_rows_length _ _ _ _ Hr) as Hl.
  rewrite length_map, length_rows_of in Hl.
  simpl. destruct rs as [|r rs]; [discriminate|].
  simpl. intros [= <-]. exists (r :: rs). split; [reflexivity|].
  split; [exact Hl|].
  destruct (weight self); [destruct (Qeq_bool fill 0)|]; reflexivity.
Qed.

Section shape_facts.

Variable self : GridPolyConv.
Hypothesis Hc : constructed self.
Hypothesis Hwf : well_formed (idx_ar self).

Lemma length_zip_with_same {A B C} (f : A → B → C) (xs : list A) (ys : list B) :
  length xs = length ys → length (zip_with f xs ys) = length xs.
Proof.
  revert ys. induction xs as [|x xs IH]; intros [|y ys] Hl; simpl in *;
    try reflexivity; try discriminate.
  rewrite IH by lia. reflexivity.
Qed.

(** The mask has the shape of one level of the grid. *)
Lemma mask_shape :
  shape (mask self) = out_shape self ∧ well_formed (mask self).
Proof using Hc Hwf.
  destruct Hc as (cls & p & i & a & Hi).
  unfold out_shape, well_formed in *.
  destruct (constructed_object_invariant _ _ _ _ _ Hi)
    as [_ [(_ & _ & -> & ->)|(Hn & HL & cnt & w & _ & -> & _ & Hsw & ->)]].
  - simpl. split; [reflexivity|]. rewrite length_map. exact Hwf.
  - simpl. rewrite Hsw. split; [reflexivity|].
    rewrite length_map, length_take, Hwf.
    unfold ndim in Hn.
    destruct (shape (idx_ar self)) as [|L sh]; [discriminate|].
    simpl in *. destruct L as [|L]; [contradiction|]. simpl. lia.
Qed.

Lemma spread_length (vals : list Q) (fill : Q) (r : list Q) :
  spread self vals fill = Ok r → length r = size_of (out_shape self).
Proof using Hc Hwf.
  unfold spread, out_shape.
  destruct (gather _ _) as [g|] eqn:Hg; [|discriminate]. simpl.
  destruct (weight self) as [w|]; intros [= <-].
  - apply length_sum_axis0_Q.
  - rewrite (gather_length _ _ _ Hg). exact Hwf.
Qed.

Lemma spread_rows_lengths (rows : list (list Q)) (fill : Q)
    (rs : list (list Q)) :
  spread_rows self rows fill = Ok rs →
  Forall (fun r => length r = size_of (out_shape self)) rs.
Proof using Hc Hwf.
  revert rs. induction rows as [|vals rows IH]; simpl; intros rs H.
  - injection H as <-. constructor.
  - destruct (spread self vals fill) as [r|] eqn:Hr; [|discriminate].
    simpl in H.
    destruct (spread_rows self rows fill) as [rs'|]; [|discriminate].
    injection H as <-. constructor; [exact (spread_length _ _ _ Hr)|].
    apply IH. reflexivity.
Qed.

Lemma length_outside_grid (w : ndarray Q) (fill : Q) :
  weight self = Some w → length (outside w fill) = size_of (out_shape self).
Proof.
  intros Hw. unfold out_shape. rewrite Hw. apply length_outside.
Qed.

End shape_facts.

Lemma array_from_values_output_shape (self : GridPolyConv) (index : list key)
    (values : ndarray Q) (fill : Q) (enforce1d : bool) (out : masked_array) :
  constructed self → well_formed (idx_ar self) →
  array_from_values self index values fill enforce1d = Ok out →
  output_shape self values out.
Proof.
  intros Hc Hwf H.
  destruct (mask_shape self Hc Hwf) as [Hms Hmw].
  unfold output_shape. rewrite Hms.
  destruct (shape values) as [|m [|npoly [|? ?]]] eqn:Hs.
  - unfold array_from_values, ndim in H. rewrite Hs in H. discriminate H.
  - assert (Hn : ndim values = 1%nat) by (unfold ndim; rewrite Hs; reflexivity).
    destruct (array_from_values_1d _ _ _ _ _ _ Hn H) as (_ & _ & r & Hr & ->).
    pose proof (spread_length self Hc Hwf _ _ _ Hr) as Hl.
    unfold well_formed in *. cbn [ma_data ma_mask shape data].
    rewrite Hms in Hmw.
    split.
    { destruct (weight self) as [w|] eqn:Hw; [|exact Hl].
      destruct (negb _); [|exact Hl].
      rewrite length_zip_with_same; [exact Hl|].
      rewrite (length_outside_grid self w fill Hw). exact Hl. }
    split; [exact Hmw|]. split; [reflexivity|].
    split; [|unfold ndim; rewrite Hs; discriminate].
    intros _. split; [reflexivity|].
    destruct (mask self) as [sh d]. simpl in *. rewrite Hms. reflexivity.
  - destruct (array_from_values_2d _ _ _ _ _ _ _ _ Hs H)
      as (rs & Hr & Hl & ->).
    pose proof (spread_rows_lengths self Hc Hwf _ _ _ Hr) as Hf.
    pose proof (length_mjoin_uniform _ _ Hf) as Hj.
    unfold well_formed in *. cbn [ma_data ma_mask shape data].
    rewrite Hms in Hmw.
    assert (Hsz : size_of (length rs :: out_shape self)
                  = (length rs * size_of (out_shape self))%nat) by reflexivity.
    split.
    { rewrite Hsz. destruct (weight self) as [w|] eqn:Hw; [|exact Hj].
      destruct (negb _); [|exact Hj].
      rewrite length_zip_with_same; [exact Hj|].
      rewrite Hj, length_broadcast_levels,
        (length_outside_grid self w fill Hw). reflexivity. }
    split; [rewrite Hsz, length_broadcast_levels, Hmw; reflexivity|].
    split; [reflexivity|].
    split; [unfold ndim; rewrite Hs; discriminate|].
    intros _. rewrite Hl. split; reflexivity.
  - unfold array_from_values, ndim in H. rewrite Hs in H.
    rewrite bool_decide_eq_false_2 in H by (simpl; lia). discriminate H.
Qed.

(** X15. The array returned by [array_from_values] is well formed and has
    the shape of the grid, with one more leading axis for a 2D array of
    values; its mask has the same shape and is the mask of the object,
    repeated for every row of values. *)
Theorem output_on_the_grid (self : GridPolyConv) (index : list key)
    (values : ndarray Q) (fill : Q) (enforce1d : bool) (out : masked_array) :
  constructed self → well_formed (idx_ar self) →
  array_from_values self index values fill enforce1d = Ok out →
  output_shape self values out.
Proof. apply array_from_values_output_shape. Qed.

Lemma output_on_the_grid_witness :
  constructed Samples.refined
  ∧ well_formed (idx_ar Samples.refined)
  ∧ ∃ out,
      array_from_values Samples.refined [KInt 10; KInt 20; KInt 30]
        (NdArray [2; 3] [1; 2; 3; 4; 5; 6]%Q) 9 false = Ok out
      ∧ output_shape Samples.refined
          (NdArray [2; 3] [1; 2; 3; 4; 5; 6]%Q) out.
Proof.
  assert (Hc : constructed Samples.refined).
  { exists "GridPolyConv", (PTuple [KInt 10; KInt 20; KInt 30]),
      (PIntArray (NdArray [2; 1; 2] [1; 2; 3; 0]%Z)),
      (PIntArray (NdArray [2; 1; 2] [3; 2; 1; 0]%Z)). reflexivity. }
  split; [exact Hc|]. split; [reflexivity|].
  destruct (array_from_values Samples.refined [KInt 10; KInt 20; KInt 30]
              (NdArray [2; 3] [1; 2; 3; 4; 5; 6]%Q) 9 false) as [o|e] eqn:E;
    [|vm_compute in E; discriminate E].
  exists o. split; [reflexivity|].
  apply (output_on_the_grid Samples.refined [KInt 10; KInt 20; KInt 30]
           (NdArray [2; 3] [1; 2; 3; 4; 5; 6]%Q) 9 false o Hc);
    [reflexivity|exact E].
Defined.

(** ** The year of the smallest and of the largest total *)

Section extreme_facts.

Lemma argmax_from_spec (xs : list Q) (i best : nat) (bv : Q) (d : Q) :
  ∀ pre, length pre = i → best < i → nth best pre d = bv →
         (∀ j, j < i → (nth j pre d <= bv)%Q) →
         let k := argmax_from i best bv xs in
         k < i + length xs
         ∧ ∀ j, j < i + length xs →
                (nth j (pre ++ xs) d <= nth k (pre ++ xs) d)%Q.
Proof.
  revert i best bv. induction xs as [|x xs IH]; intros i best bv pre Hl Hb Hn Hmax.
  - simpl. rewrite app_nil_r, Nat.add_0_r. split; [lia|].
    intros j Hj. rewrite Hn. apply Hmax. exact Hj.
  - cbn [argmax_from]. cbv zeta.
    replace (pre ++ x :: xs)%list with ((pre ++ [x]) ++ xs)%list
      by (rewrite <- app_assoc; reflexivity).
    replace (i + length (x :: xs))%nat with (S i + length xs)%nat by (simpl; lia).
    assert (Hx : nth i (pre ++ [x])%list d = x)
      by (rewrite app_nth2 by lia; rewrite Hl, Nat.sub_diag; reflexivity).
    destruct (Qlt_le_dec bv x) as [Hlt|Hle].
    + apply (IH (S i) i x (pre ++ [x])%list).
      * rewrite length_app. simpl. lia.
      * lia.
      * exact Hx.
      * intros j Hj. destruct (Nat.eq_dec j i) as [->|Hne].
        -- rewrite Hx. apply Qle_refl.
        -- rewrite app_nth1 by lia. apply Qle_trans with bv.
           ++ apply Hmax. lia.
           ++ apply Qlt_le_weak. exact Hlt.
    + apply (IH (S i) best bv (pre ++ [x])%list).
      * rewrite length_app. simpl. lia.
      * lia.
      * rewrite app_nth1 by lia. exact Hn.
      * intros j Hj. destruct (Nat.eq_dec j i) as [->|Hne].
        -- rewrite Hx. exact Hle.
        -- rewrite app_nth1 by lia. apply Hmax. lia.
Qed.

(** [argmax] gives the position of a largest total. *)
Lemma argmax_spec (xs : list Q) (k : nat) :
  argmax xs = Some k →
  k < length xs ∧ ∀ j, j < length xs → (nth j xs 0 <= nth k xs 0)%Q.
Proof.
  destruct xs as [|x xs]; [discriminate|]. intros [= <-].
  apply (argmax_from_spec xs 1 0 x 0%Q [x]); try reflexivity; try lia.
  intros j Hj. destruct j; [apply Qle_refl|lia].
Qed.

(** The yearly means and the yearly totals are those of the same years. *)
Lemma yearly_years (self : GridPolyConv) (spec : time_spec) (npoly : nat)
    (sel : list bool) (ts : timeseries) (yt : year_totals) :
  yearly self spec npoly sel ts = Ok yt →
  map fst (var_mean yt) = map fst (wvar_year_total yt).
Proof.
  unfold yearly. destruct (year_labels _ _ _ _) as [year bogus].
  destruct (weighted self npoly (rows ts)) as [wvar|]; [|discriminate].
  simpl. intros [= <-]. simpl. unfold groupby_mean.
  rewrite !map_map. reflexivity.
Qed.

Variable yt : year_totals.
Hypothesis Hyears : map fst (var_mean yt) = map fst (wvar_year_total yt).

(** The values of the year at a position of the totals. *)
Lemma year_values_at (k : nat) :
  k < length (wvar_year_total yt) →
  ∃ year values,
    year_values yt (Some k) = Ok values
    ∧ (year, nth k (map snd (wvar_year_total yt)) 0%Q) ∈ wvar_year_total yt
    ∧ (year, values) ∈ var_mean yt.
Proof using Hyears.
  intros Hk. unfold year_values.
  destruct (lookup_lt_is_Some_2 _ _ Hk) as [[year total] Hl].
  rewrite Hl.
  assert (Hin : year ∈ map fst (var_mean yt)).
  { rewrite Hyears. apply list_elem_of_In, in_map_iff.
    exists (year, total). split; [reflexivity|].
    apply list_elem_of_In. eapply list_elem_of_lookup_2. exact Hl. }
  destruct (List.find _ (var_mean yt)) as [gv|] eqn:Hf.
  - apply find_some in Hf as [Hgv Hy]. apply bool_decide_eq_true in Hy.
    exists year, gv.2. split; [reflexivity|]. split.
    + rewrite (nth_map_in _ _ _ (year, total)) by exact Hk.
      rewrite nth_lookup, Hl. simpl.
      eapply list_elem_of_lookup_2. exact Hl.
    + apply list_elem_of_In. destruct gv as [y v]. simpl in *. subst y.
      exact Hgv.
  - exfalso. apply list_elem_of_In, in_map_iff in Hin as ([y v] & Hy & Hv).
    simpl in Hy. subst y.
    pose proof (find_none _ _ Hf _ Hv) as Hn. simpl in Hn.
    apply bool_decide_eq_false in Hn. apply Hn. reflexivity.
Qed.

Lemma total_at (y : label) (t : Q) :
  (y, t) ∈ wvar_year_total yt →
  ∃ j, j < length (map snd (wvar_year_total yt))
       ∧ nth j (map snd (wvar_year_total yt)) 0%Q = t.
Proof.
  intros Hin. apply list_elem_of_lookup_1 in Hin as [j Hj].
  pose proof (lookup_lt_Some _ _ _ Hj) as Hlt.
  exists j. split; [rewrite length_map; exact Hlt|].
  rewrite (nth_map_in _ _ _ (y, t)) by exact Hlt.
  rewrite nth_lookup, Hj. reflexivity.
Qed.

End extreme_facts.

(** X16. With a time window and at least one year in it, "min" returns the
    mean values of a year whose total is at most the total of every year,
    and "max" those of a year whose total is at least the total of every
    year; the year is always found among the yearly means. *)
Theorem min_max_year
    (quantile : string → list (list Q) → result (list Q))
    (self : GridPolyConv) (spec : time_spec) (npoly : nat) (sel : list bool)
    (ts : timeseries) (yt : year_totals) (var : list (list Q)) :
  is_Some (time_window spec) →
  yearly self spec npoly sel ts = Ok yt →
  wvar_year_total yt ≠ [] →
  windowed_extremes quantile spec npoly yt var.
Proof.
  intros [w Hw] Hy Hne. pose proof (yearly_years _ _ _ _ _ _ Hy) as Hyears.
  unfold windowed_extremes, statistic. rewrite Hw.
  change (String.eqb "min" "mean") with false.
  change (String.eqb "min" "median") with false.
  change (String.eqb "min" "min") with true.
  change (String.eqb "max" "mean") with false.
  change (String.eqb "max" "median") with false.
  change (String.eqb "max" "min") with false.
  change (String.eqb "max" "max") with true.
  cbv iota.
  set (totals := map snd (wvar_year_total yt)).
  assert (Ht : totals ≠ []).
  { unfold totals. destruct (wvar_year_total yt); [congruence|discriminate]. }
  split.
  - destruct (argmin totals) as [k|] eqn:Hk;
      [|destruct totals; [congruence|discriminate]].
    destruct (argmin_spec _ _ Hk) as [Hlt Hmin].
    unfold totals in Hlt. rewrite length_map in Hlt.
    destruct (year_values_at yt Hyears k Hlt) as (year & values & Hv & Hin & Hm).
    exists values. split; [exact Hv|].
    exists year, (nth k totals 0%Q). split; [exact Hin|]. split; [|exact Hm].
    intros y t Hyt. destruct (total_at yt y t Hyt) as (j & Hj & <-).
    apply Hmin. exact Hj.
  - destruct (argmax totals) as [k|] eqn:Hk;
      [|destruct totals; [congruence|discriminate]].
    destruct (argmax_spec _ _ Hk) as [Hlt Hmax].
    unfold totals in Hlt. rewrite length_map in Hlt.
    destruct (year_values_at yt Hyears k Hlt) as (year & values & Hv & Hin & Hm).
    exists values. split; [exact Hv|].
    exists year, (nth k totals 0%Q). split; [exact Hin|]. split; [|exact Hm].
    intros y t Hyt. destruct (total_at yt y t Hyt) as (j & Hj & <-).
    apply Hmax. exact Hj.
Qed.

Lemma min_max_year_witness :
  parse_time_stats "Jul-Jun:min,max" = Ok Samples.water_years
  ∧ is_Some (time_window Samples.water_years)
  ∧ ∃ yt,
      yearly Samples.plain Samples.water_years 2
        (month_sel 7 6 (map snd (time Samples.three_water_years)))
        Samples.three_water_years = Ok yt
      ∧ wvar_year_total yt ≠ []
      ∧ windowed_extremes (fun _ _ => Ok []) Samples.water_years 2 yt
          (rows Samples.three_water_years).
Proof.
  split; [reflexivity|].
  assert (Hw : is_Some (time_window Samples.water_years)) by (eexists; reflexivity).
  split; [exact Hw|].
  destruct (yearly Samples.plain Samples.water_years 2
              (month_sel 7 6 (map snd (time Samples.three_water_years)))
              Samples.three_water_years) as [yt|e] eqn:E;
    [|vm_compute in E; discriminate E].
  assert (Hne : wvar_year_total yt ≠ []).
  { intros Hn. vm_compute in E. injection E as E. subst yt. discriminate Hn. }
  exists yt. split; [reflexivity|]. split; [exact Hne|].
  apply (min_max_year (fun _ _ => Ok []) Samples.plain Samples.water_years 2
           (month_sel 7 6 (map snd (time Samples.three_water_years)))
           Samples.three_water_years yt (rows Samples.three_water_years)
           Hw E Hne).
Defined.

(** ** The dict returned by array_from_netcdf *)

Section dict_facts.

Context {V : Type}.

Lemma dict_set_keys (k : option string) (v : V) (d : list (option string * V))
    (k' : option string) :
  k' ∈ map fst (dict_set k v d) ↔ k' = k ∨ k' ∈ map fst d.
Proof.
  induction d as [|[k0 v0] d IH]; simpl.
  - rewrite elem_of_cons. split; intros [H|H]; auto; inversion H.
  - destruct (bool_decide (k0 = k)) eqn:E; simpl; rewrite !elem_of_cons.
    + apply bool_decide_eq_true in E. subst k0. tauto.
    + rewrite IH. tauto.
Qed.

Lemma dict_set_NoDup (k : option string) (v : V) (d : list (option string * V)) :
  NoDup (map fst d) → NoDup (map fst (dict_set k v d)).
Proof.
  induction d as [|[k0 v0] d IH]; simpl; intros Hnd.
  - constructor; [apply not_elem_of_nil|constructor].
  - apply NoDup_cons in Hnd as [Hk0 Hnd].
    destruct (bool_decide (k0 = k)) eqn:E; simpl.
    + apply NoDup_cons. split; assumption.
    + apply bool_decide_eq_false in E. apply NoDup_cons. split; [|auto].
      rewrite dict_set_keys. intros [H|H]; [congruence|contradiction].
Qed.

Lemma dict_set_Forall (P : V → Prop) (k : option string) (v : V)
    (d : list (option string * V)) :
  P v → Forall (fun kv => P kv.2) d →
  Forall (fun kv => P kv.2) (dict_set k v d).
Proof.
  intros Hv. induction 1 as [|[k0 v0] d H0 Hd IH]; simpl.
  - repeat constructor. exact Hv.
  - destruct (bool_decide (k0 = k)); constructor; simpl in *; assumption.
Qed.

End dict_facts.

Section each_statistic_facts.

Variable quantile : string → list (list Q) → result (list Q).
Variable self : GridPolyConv.
Variables (spec : time_spec) (yt : option year_totals) (var : list (list Q)).
Variables (fill : Q) (enforce1d : bool).
Variable P : masked_array → Prop.
Hypothesis HP :
  ∀ values ar,
    array_from_values self (poly_idx self) (NdArray [length values] values)
      fill enforce1d = Ok ar → P ar.

Lemma each_statistic_result (stats : list string)
    (ret0 ret : list (option string * masked_array)) :
  each_statistic quantile self spec yt var fill enforce1d stats ret0 = Ok ret →
  (NoDup (map fst ret0) → NoDup (map fst ret))
  ∧ (∀ k, k ∈ map fst ret
          ↔ k ∈ map fst ret0 ∨ ∃ t, k = Some t ∧ t ∈ stats)
  ∧ (Forall (fun kv => P kv.2) ret0 → Forall (fun kv => P kv.2) ret).
Proof using HP.
  revert ret0. induction stats as [|tstats stats IH]; intros ret0 H.
  - simpl in H. injection H as <-. split; [auto|]. split; [|auto].
    intros k. split; [auto|]. intros [Hk|(t & _ & Ht)]; [exact Hk|inversion Ht].
  - cbn [each_statistic] in H. cbv zeta in H.
    destruct (statistic _ _ _ _ _ _) as [values|]; [|discriminate].
    cbn [mbind result_bind] in H.
    destruct (array_from_values _ _ _ _ _) as [ar|] eqn:Har; [|discriminate].
    cbn [mbind result_bind] in H.
    destruct (IH _ H) as (Hnd & Hk & Hf).
    split; [intros H0; apply Hnd, dict_set_NoDup, H0|].
    split.
    + intros k. rewrite Hk, dict_set_keys. split.
      * intros [[->|H0]|(t & -> & Ht)]; eauto.
        -- right. exists tstats. split; [reflexivity|]. apply elem_of_cons; auto.
        -- right. exists t. split; [reflexivity|]. apply elem_of_cons; auto.
      * intros [H0|(t & -> & Ht)]; [auto|].
        apply elem_of_cons in Ht as [->|Ht]; [auto|]. right. eauto.
    + intros H0. apply Hf, dict_set_Forall; [|exact H0].
      apply (HP values). exact Har.
Qed.

End each_statistic_facts.

Lemma vector_on_grid (self : GridPolyConv) (index : list key)
    (values : ndarray Q) (fill : Q) (enforce1d : bool) (out : masked_array) :
  constructed self → well_formed (idx_ar self) →
  ndim values = 1%nat →
  array_from_values self index values fill enforce1d = Ok out →
  on_grid self out.
Proof.
  intros Hc Hwf Hn H.
  destruct (array_from_values_output_shape _ _ _ _ _ _ Hc Hwf H)
    as (Hw & _ & _ & H1 & _).
  destruct (H1 Hn) as [Hs Hm]. unfold on_grid.
  split; [|auto]. unfold ndim. rewrite Hs.
  destruct Hc as (cls & p & i & a & Hi).
  destruct (constructed_object_invariant _ _ _ _ _ Hi)
    as [_ [(Hd & _ & _ & ->)|(Hd & _ & cnt & w & _ & _ & _ & _ & ->)]];
    simpl; [exact Hd|].
  unfold ndim in Hd. destruct (shape (idx_ar self)); [discriminate|].
  simpl in *. lia.
Qed.

(** X17. The dict returned by [array_from_netcdf] has distinct keys: the
    statistics asked for when the variable has a time dimension and
    statistics are given, the single key [None] otherwise.  With
    [enforce1d] (as the command line calls it), with statistics, or for a
    variable without time dimension, every array of the dict is a 2D array
    on the grid with the mask of the object. *)
Theorem array_from_netcdf_result
    (quantile : string → list (list Q) → result (list Q))
    (self : GridPolyConv) (var : variable) (time_stats : option string)
    (fill : Q) (enforce1d : bool) (ret : list (option string * masked_array)) :
  constructed self → well_formed (idx_ar self) →
  array_from_netcdf quantile self var time_stats fill enforce1d = Ok ret →
  netcdf_result self var time_stats enforce1d ret.
Proof.
  intros Hc Hwf H. unfold array_from_netcdf in H.
  assert (Hsingle : ∀ values,
             (ar ← array_from_values self (poly_idx self) values fill enforce1d;
              Ok [(None, ar)]) = Ok ret →
             NoDup (map fst ret) ∧ map fst ret = [None]
             ∧ (ndim values = 1%nat ∨ enforce1d = true →
                Forall (fun kv => on_grid self kv.2) ret)).
  { intros values Hr.
    destruct (array_from_values _ _ _ _ _) as [ar|] eqn:Har; [|discriminate].
    injection Hr as <-. simpl.
    split; [constructor; [apply not_elem_of_nil|constructor]|].
    split; [reflexivity|]. intros Hn. constructor; [|constructor]. simpl.
    apply (vector_on_grid self (poly_idx self) values fill enforce1d);
      try assumption.
    destruct Hn as [Hn|He]; [exact Hn|].
    destruct (array_from_values_Ok _ _ _ _ _ _ Har) as [(_ & _ & H1) _].
    exact (H1 He). }
  unfold netcdf_result.
  destruct time_stats as [s|].
  - destruct (parse_time_stats s) as [spec|] eqn:Hp; [|discriminate].
    cbn [fmap result_fmap mbind result_bind] in H.
    destruct var as [vals|ts].
    + destruct (Hsingle _ H) as (Hnd & Hk & Hg).
      split; [exact Hnd|]. split; [exact Hk|].
      intros _. apply Hg. left. reflexivity.
    + cbv zeta in H.
      destruct (if _ : bool then Some <$> yearly _ _ _ _ _ else Ok None)
        as [yt|]; [|discriminate].
      cbn [mbind result_bind] in H.
      destruct (each_statistic_result quantile self spec yt _ fill enforce1d
                  (on_grid self)
                  (fun values ar =>
                     vector_on_grid self (poly_idx self)
                       (NdArray [length values] values) fill enforce1d ar
                       Hc Hwf eq_refl)
                  _ _ _ H) as (Hnd & Hk & Hg).
      split; [apply Hnd; constructor|].
      split.
      * exists spec. split; [reflexivity|]. intros k. rewrite Hk. simpl.
        split; [intros [H0|H0]; [inversion H0|exact H0]|auto].
      * intros _. apply Hg. constructor.
  - cbn [mbind result_bind] in H.
    destruct var as [vals|ts].
    + destruct (Hsingle _ H) as (Hnd & Hk & Hg).
      split; [exact Hnd|]. split; [exact Hk|].
      intros _. apply Hg. left. reflexivity.
    + destruct (Hsingle _ H) as (Hnd & Hk & Hg).
      split; [exact Hnd|]. split; [exact Hk|].
      intros [He|[[? Hn]|[vals Hv]]]; [|discriminate Hn|discriminate Hv].
      apply Hg. right. exact He.
Qed.

Lemma array_from_netcdf_result_witness :
  constructed Samples.plain
  ∧ well_formed (idx_ar Samples.plain)
  ∧ ∃ ret,
      array_from_netcdf (fun _ _ => Ok []) Samples.plain
        (Series Samples.three_water_years) (Some "Jul-Jun:min,max") 0 true
      = Ok ret
      ∧ netcdf_result Samples.plain (Series Samples.three_water_years)
          (Some "Jul-Jun:min,max") true ret.
Proof.
  assert (Hc : constructed Samples.plain).
  { exists "GridPolyConv", (PTuple [KInt 10; KInt 20]),
      (PIntArray (NdArray [1; 2] [1; 2]%Z)), PNone. reflexivity. }
  split; [exact Hc|]. split; [reflexivity|].
  destruct (array_from_netcdf (fun _ _ => Ok []) Samples.plain
              (Series Samples.three_water_years) (Some "Jul-Jun:min,max") 0 true)
    as [ret|e] eqn:E; [|vm_compute in E; discriminate E].
  exists ret. split; [reflexivity|].
  apply (array_from_netcdf_result (fun _ _ => Ok []) Samples.plain
           (Series Samples.three_water_years) (Some "Jul-Jun:min,max") 0 true
           ret Hc); [reflexivity|exact E].
Defined.

(** ** The polygon keys and the indexes of the features *)

Section indexing_facts.

Lemma insert_key_perm (x : key) (l : list key) : insert_key x l ≡ₚ x :: l.
Proof.
  induction l as [|y l IH]; simpl; [reflexivity|].
  destruct (key_leb x y); [reflexivity|].
  rewrite IH. apply Permutation_swap.
Qed.

Lemma sort_perm (l : list key) : foldr insert_key [] l ≡ₚ l.
Proof.
  induction l as [|x l IH]; simpl; [reflexivity|].
  rewrite insert_key_perm, IH. reflexivity.
Qed.

Lemma key_leb_total (b : bool) (x y : key) :
  is_int x = b → is_int y = b → key_leb x y = false → key_leb y x = true.
Proof.
  destruct x as [x|x], y as [y|y]; simpl; intros <- Hy Hxy; try discriminate.
  - apply Z.leb_le. apply Z.leb_gt in Hxy. lia.
  - destruct (String.leb_total x y) as [H|H]; congruence.
Qed.

Lemma insert_key_ascending (b : bool) (x : key) (l : list key) :
  is_int x = b → Forall (fun k => is_int k = b) l →
  ascending l = true → ascending (insert_key x l) = true.
Proof.
  intros Hx Hl. induction Hl as [|y l Hy Hl IH]; intros Ha; [reflexivity|].
  cbn [insert_key]. destruct (key_leb x y) eqn:Hxy.
  - cbn [ascending]. rewrite Hxy. exact Ha.
  - pose proof (key_leb_total b x y Hx Hy Hxy) as Hyx.
    destruct l as [|z l].
    + simpl. rewrite Hyx. reflexivity.
    + cbn [ascending] in Ha. apply andb_true_iff in Ha as [Hyz Ha].
      specialize (IH Ha). cbn [insert_key] in IH |- *.
      destruct (key_leb x z); cbn [ascending] in IH |- *.
      * rewrite Hyx. exact IH.
      * rewrite Hyz. exact IH.
Qed.

Lemma sort_ascending (b : bool) (l : list key) :
  Forall (fun k => is_int k = b) l → ascending (foldr insert_key [] l) = true.
Proof.
  induction 1 as [|x l Hx Hl IH]; [reflexivity|].
  simpl. apply (insert_key_ascending b); [exact Hx| |exact IH].
  rewrite sort_perm. exact Hl.
Qed.

Lemma sorted_Ok (s l : list key) :
  sorted s = Ok l → l ≡ₚ s ∧ ascending l = true.
Proof.
  unfold sorted. destruct (forallb is_int s) eqn:Hi; cbn [orb].
  - intros [= <-]. split; [apply sort_perm|].
    apply (sort_ascending true). apply Forall_forall. intros k Hk.
    rewrite forallb_forall in Hi. apply Hi. apply list_elem_of_In. exact Hk.
  - destruct (forallb (fun k => negb (is_int k)) s) eqn:Hs; [|discriminate].
    intros [= <-]. split; [apply sort_perm|].
    apply (sort_ascending false). apply Forall_forall. intros k Hk.
    rewrite forallb_forall in Hs. apply negb_true_iff, Hs.
    apply list_elem_of_In. exact Hk.
Qed.

Lemma poly_idx_of_enumerate (start : Z) (l : list key) :
  map snd (enumerate start l) = l.
Proof.
  unfold enumerate. revert start. induction l as [|x l IH]; intros start;
    [reflexivity|].
  simpl. f_equal. unfold compose.
  erewrite imap_ext; [apply (IH (start + 1)%Z)|].
  intros i y _. simpl. f_equal. lia.
Qed.

(** The dict that maps a value to its number. *)
Lemma idx_vals_lookup (l : list key) :
  NoDup l →
  ∀ j v, l !! j = Some v →
         foldl (fun (d : gmap key Z) kv => <[kv.2 := kv.1]> d) ∅ (enumerate 1 l)
           !! v = Some (Z.of_nat (S j)).
Proof.
  unfold enumerate.
  induction l as [|x l IH] using rev_ind; intros Hnd j v Hj; [inversion Hj|].
  apply NoDup_app in Hnd as (Hnd & Hx & _).
  rewrite imap_app, foldl_app. simpl.
  destruct (decide (v = x)) as [->|Hne].
  - rewrite lookup_insert. 
    destruct (decide (j < length l)) as [Hlt|Hge].
    + exfalso. rewrite lookup_app_l in Hj by exact Hlt.
      apply (Hx x); [eapply list_elem_of_lookup_2; exact Hj|].
      apply elem_of_cons. left. reflexivity.
    + pose proof (lookup_lt_Some _ _ _ Hj) as Hb. rewrite length_app in Hb.
      simpl in Hb. rewrite decide_True by reflexivity. f_equal. lia.
  - rewrite lookup_insert_ne by congruence.
    apply IH; [exact Hnd|].
    destruct (decide (j < length l)) as [Hlt|Hge].
    + rewrite lookup_app_l in Hj by exact Hlt. exact Hj.
    + rewrite lookup_app_r in Hj by lia.
      destruct (j - length l)%nat; simpl in Hj; [congruence|inversion Hj].
Qed.

End indexing_facts.

(** X18. The keys that [from_grid_vector] derives from the attribute values
    of the features are the distinct values in ascending order, so the
    constructor never rejects them as not unique; every feature gets the
    1-based position of its value among the keys, and features with the
    same value share one index: repeated values are not an error. *)
Theorem index_features_indexed (vals poly_idx : list key)
    (idxs : list (option Z)) :
  index_features vals = Ok (poly_idx, idxs) → indexed vals poly_idx idxs.
Proof.
  unfold index_features. destruct (bool_decide (vals = [])); [discriminate|].
  destruct (sorted (remove_dups vals)) as [s|] eqn:Hs; [|discriminate].
  cbn [mbind result_bind]. cbv zeta. rewrite poly_idx_of_enumerate.
  intros [= <- <-].
  destruct (sorted_Ok _ _ Hs) as [Hp Ha].
  assert (Hnd : NoDup s) by (rewrite Hp; apply NoDup_remove_dups).
  assert (Hin : ∀ k, k ∈ s ↔ k ∈ vals)
    by (intros k; rewrite Hp; apply elem_of_remove_dups).
  unfold indexed. split; [exact Hnd|]. split; [exact Ha|]. split; [exact Hin|].
  split; [apply length_map|]. split.
  - intros i v Hv.
    assert (Hvs : v ∈ s) by (apply Hin; eapply list_elem_of_lookup_2; exact Hv).
    apply list_elem_of_lookup_1 in Hvs as [j Hj].
    exists j. split; [|exact Hj].
    rewrite list_lookup_fmap, Hv. simpl.
    rewrite (idx_vals_lookup s Hnd j v Hj). reflexivity.
  - intros cls i a. unfold __init__. cbn [mbind result_bind].
    rewrite bool_decide_eq_true_2 by exact Hnd. cbn [negb].
    destruct i as [| | |idx| |]; try discriminate.
    destruct (shape idx) as [|L [|nrow [|ncol [|? ?]]]]; try discriminate.
    destruct a as [| | |cnt| |]; try discriminate.
    destruct (negb _); [discriminate|]. destruct L; discriminate.
Qed.

Lemma index_features_indexed_witness :
  index_features [KStr "b"; KStr "a"; KStr "b"]
  = Ok ([KStr "a"; KStr "b"], [Some 2; Some 1; Some 2]%Z)
  ∧ indexed [KStr "b"; KStr "a"; KStr "b"] [KStr "a"; KStr "b"]
      [Some 2; Some 1; Some 2]%Z.
Proof.
  assert (H : index_features [KStr "b"; KStr "a"; KStr "b"]
              = Ok ([KStr "a"; KStr "b"], [Some 2; Some 1; Some 2]%Z))
    by (vm_compute; reflexivity).
  split; [exact H|].
  apply (index_features_indexed [KStr "b"; KStr "a"; KStr "b"]
           [KStr "a"; KStr "b"] [Some 2; Some 1; Some 2]%Z H).
Defined.

(** ** Rows of values, one by one *)

Section row_facts.

Lemma slice_mjoin {T} (n : nat) (rs : list (list T)) (e : nat) :
  Forall (fun r => length r = n) rs → e < length rs →
  take n (drop (e * n) (mjoin rs)) = nth e rs [].
Proof.
  intros Hf. revert e. induction Hf as [|r rs Hr Hf IH]; intros e He;
    simpl in He; [lia|].
  change (mjoin (r :: rs)) with (r ++ mjoin rs)%list.
  destruct e as [|e].
  - change (0 * n)%nat with 0%nat. rewrite drop_0.
    apply take_app_length'. symmetry. exact Hr.
  - cbn [nth]. replace (S e * n)%nat with (length r + e * n)%nat by (simpl; lia).
    rewrite drop_app_add. apply IH. lia.
Qed.

Lemma slice_broadcast_levels {T} (L : nat) (xs : list T) (e : nat) :
  e < L →
  take (length xs) (drop (e * length xs) (broadcast_levels L xs)) = xs.
Proof.
  intros He. unfold broadcast_levels.
  rewrite slice_mjoin.
  - rewrite nth_lookup, lookup_replicate_2 by exact He. reflexivity.
  - apply Forall_replicate. reflexivity.
  - rewrite length_replicate. exact He.
Qed.

Variable self : GridPolyConv.

Lemma spread_rows_nth (rows : list (list Q)) (fill : Q) (rs : list (list Q))
    (e : nat) :
  spread_rows self rows fill = Ok rs → e < length rows →
  spread self (nth e rows []) fill = Ok (nth e rs []).
Proof.
  revert rs e. induction rows as [|vals rows IH]; simpl; intros rs e H He;
    [lia|].
  destruct (spread self vals fill) as [r|] eqn:Hr; [|discriminate].
  simpl in H.
  destruct (spread_rows self rows fill) as [rs'|]; [|discriminate].
  injection H as <-. destruct e as [|e]; simpl; [exact Hr|].
  apply IH; [reflexivity|lia].
Qed.

(** What a call on a 2D array of values has checked. *)
Lemma array_from_values_2d_checked (index : list key) (values : ndarray Q)
    (fill : Q) (enforce1d : bool) (extra npoly : nat) :
  shape values = [extra; npoly] →
  returns (array_from_values self index values fill enforce1d) →
  length index = npoly ∧ enforce1d = false
  ∧ isdisjoint index (poly_idx self) = false
  ∧ issuperset index (poly_idx self) = true.
Proof.
  unfold array_from_values, ndim. intros Hs. rewrite Hs.
  cbn [length List.last].
  rewrite (bool_decide_eq_true_2 (2%nat = 1%nat ∨ 2%nat = 2%nat))
    by (right; reflexivity).
  rewrite (bool_decide_eq_false_2 (2%nat = 1%nat)) by discriminate.
  cbn [negb].
  destruct (bool_decide (length index = npoly)) eqn:Hl; [|contradiction].
  apply bool_decide_eq_true in Hl. cbn [negb].
  destruct enforce1d; [contradiction|]. cbn [andb].
  destruct (isdisjoint _ _); [contradiction|].
  destruct (issuperset _ _); [|contradiction]. auto.
Qed.

(** A call on a vector of values that passes the checks. *)
Lemma array_from_values_vector (index : list key) (vals : list Q) (fill : Q)
    (r : list Q) :
  isdisjoint index (poly_idx self) = false →
  issuperset index (poly_idx self) = true →
  spread self (reindex self index vals) fill = Ok r →
  array_from_values self index (NdArray [length index] vals) fill false
  = Ok {| ma_data :=
            NdArray (out_shape self)
              match weight self with
              | Some w =>
                  if negb (Qeq_bool fill 0)
                  then zip_with fadd r (outside w fill) else r
              | None => r
              end;
          ma_mask := NdArray (out_shape self) (data (mask self)) |}.
Proof.
  intros Hd Hs Hr. unfold array_from_values, ndim. cbn [shape data length].
  rewrite bool_decide_eq_true_2 by (left; reflexivity).
  cbn [List.last negb andb].
  rewrite bool_decide_eq_true_2 by reflexivity. cbn [negb].
  rewrite Hd, Hs. cbn [negb]. rewrite Hr. cbn [mbind result_bind].
  destruct (weight self); [destruct (Qeq_bool fill 0)|]; reflexivity.
Qed.

End row_facts.

(** X19. Projecting a 2D array of values (one row per time step) is
    projecting its rows one by one: the call on row [e] alone returns, and
    what it returns is level [e] of the output of the call on the whole
    array, with the mask of the object. *)
Theorem rows_projected_one_by_one (self : GridPolyConv) (index : list key)
    (values : ndarray Q) (fill : Q) (enforce1d : bool) (out : masked_array)
    (e : nat) :
  constructed self → well_formed (idx_ar self) →
  ndim values = 2%nat → e < hd 0%nat (shape values) →
  array_from_values self index values fill enforce1d = Ok out →
  row_projection self index values fill enforce1d out e.
Proof.
  intros Hc Hwf Hn He H. unfold ndim in Hn.
  destruct (shape values) as [|extra [|npoly [|? ?]]] eqn:Hs;
    try discriminate Hn.
  simpl in He.
  assert (Hret : returns (array_from_values self index values fill enforce1d))
    by (rewrite H; exact I).
  destruct (array_from_values_2d_checked self _ _ _ _ _ _ Hs Hret)
    as (Hl & -> & Hd & Hsup).
  destruct (array_from_values_2d _ _ _ _ _ _ _ _ Hs H) as (rs & Hr & Hlr & ->).
  destruct (mask_shape self Hc Hwf) as [Hms Hmw].
  pose proof (spread_rows_lengths self Hc Hwf _ _ _ Hr) as Hf.
  assert (Hrow : spread self
                   (reindex self index
                      (take npoly (drop (e * npoly) (data values)))) fill
                 = Ok (nth e rs [])).
  { pose proof (spread_rows_nth self _ _ _ e Hr) as Hn'.
    rewrite length_map, length_rows_of in Hn'. specialize (Hn' He).
    rewrite (nth_map_in _ _ _ []) in Hn' by (rewrite length_rows_of; exact He).
    unfold rows_of in Hn'. rewrite nth_map_seq in Hn' by exact He.
    exact Hn'. }
  assert (Hre : length (nth e rs []) = size_of (out_shape self)).
  { rewrite Forall_forall in Hf. apply Hf. apply list_elem_of_In, nth_In. lia. }
  unfold row_projection, row_of_values, level_of_output.
  rewrite Hs, Hms. cbn [List.last]. subst npoly.
  eexists. split.
  { apply (array_from_values_vector self index _ fill (nth e rs []) Hd Hsup).
    exact Hrow. }
  cbn [ma_data ma_mask shape data]. split; [|split; [reflexivity|]].
  - destruct (weight self) as [w|] eqn:Hw.
    + destruct (negb (Qeq_bool fill 0)).
      * rewrite zip_with_drop, zip_with_take.
        rewrite slice_mjoin by (assumption || lia).
        rewrite <- (length_outside_grid self w fill Hw).
        rewrite slice_broadcast_levels by lia. reflexivity.
      * rewrite slice_mjoin by (assumption || lia). reflexivity.
    + rewrite slice_mjoin by (assumption || lia). reflexivity.
  - destruct (mask self) as [sh d]. simpl in *. rewrite Hms. reflexivity.
Qed.

Lemma rows_projected_one_by_one_witness :
  constructed Samples.refined
  ∧ well_formed (idx_ar Samples.refined)
  ∧ ∃ out,
      array_from_values Samples.refined [KInt 10; KInt 20; KInt 30]
        (NdArray [2; 3] [1; 2; 3; 4; 5; 6]%Q) 9 false = Ok out
      ∧ row_projection Samples.refined [KInt 10; KInt 20; KInt 30]
          (NdArray [2; 3] [1; 2; 3; 4; 5; 6]%Q) 9 false out 1.
Proof.
  assert (Hc : constructed Samples.refined).
  { exists "GridPolyConv", (PTuple [KInt 10; KInt 20; KInt 30]),
      (PIntArray (NdArray [2; 1; 2] [1; 2; 3; 0]%Z)),
      (PIntArray (NdArray [2; 1; 2] [3; 2; 1; 0]%Z)). reflexivity. }
  split; [exact Hc|]. split; [reflexivity|].
  destruct (array_from_values Samples.refined [KInt 10; KInt 20; KInt 30]
              (NdArray [2; 3] [1; 2; 3; 4; 5; 6]%Q) 9 false) as [o|e] eqn:E;
    [|vm_compute in E; discriminate E].
  exists o. split; [reflexivity|].
  apply (rows_projected_one_by_one Samples.refined [KInt 10; KInt 20; KInt 30]
           (NdArray [2; 3] [1; 2; 3; 4; 5; 6]%Q) 9 false o 1 Hc);
    [reflexivity|reflexivity|simpl; lia|exact E].
Defined.
